(** * The validated mutation pipeline of the dashboard (app/lib/actions.ts)

    A shallow embedding of the server actions [createInvoice],
    [updateInvoice], [deleteInvoice], [createCustomer], [updateCustomer],
    [deleteCustomer] and [authenticate], of the two zod schemas they
    validate with, and of [sanitizeAndTimestampFilename].

    The JavaScript, Node and zod (version 3) library functions the actions
    call are modelled in the modules [JS], [NodePath] and [Zod]; the
    collaborators the actions talk to (the SQL store, the file system, the
    cache, the router, the clock) are an explicit environment and world. *)

From Stdlib Require Import ZArith NArith List Ascii String Bool Lia.
From Stdlib Require Import Floats.
From stdpp Require Import base option list strings gmap.

Set Default Proof Using "Type".
Local Open Scope N_scope.

(** JavaScript strings are sequences of UTF-16 code units. *)
Abbreviation jsstring := (list N).

(* ===================================================================== *)
(** ** JavaScript built-ins used by the actions *)
(* ===================================================================== *)
Module JS.

(** Source literals are written as Rocq strings (UTF-8 bytes) and decoded
    to code units; only one-, two- and three-byte sequences and
    four-byte sequences (to a surrogate pair) occur. *)
Fixpoint utf16_of_utf8 (bs : list N) : jsstring :=
  match bs with
  | [] => []
  | b0 :: r0 =>
    if b0 <? 128 then b0 :: utf16_of_utf8 r0
    else match r0 with
    | [] => []
    | b1 :: r1 =>
      if b0 <? 224 then ((b0 mod 32) * 64 + b1 mod 64) :: utf16_of_utf8 r1
      else match r1 with
      | [] => []
      | b2 :: r2 =>
        if b0 <? 240
        then ((b0 mod 16) * 4096 + (b1 mod 64) * 64 + b2 mod 64)
               :: utf16_of_utf8 r2
        else match r2 with
        | [] => []
        | b3 :: r3 =>
          let cp := (b0 mod 8) * 262144 + (b1 mod 64) * 4096
                    + (b2 mod 64) * 64 + b3 mod 64 in
          (55296 + (cp - 65536) / 1024) :: (56320 + (cp - 65536) mod 1024)
            :: utf16_of_utf8 r3
        end
      end
    end
  end.

Definition js (s : string) : jsstring :=
  utf16_of_utf8 (map N_of_ascii (list_ascii_of_string s)).

Definition jsstring_eqb (a b : jsstring) : bool := bool_decide (a = b).

(** [String(n)] for an integral number, [Number::toString] in radix 10. *)
Fixpoint digits_loop (fuel : nat) (n : N) (acc : jsstring) : jsstring :=
  match fuel with
  | O => acc
  | S fuel' =>
    let acc' := (48 + n mod 10) :: acc in
    if n / 10 =? 0 then acc' else digits_loop fuel' (n / 10) acc'
  end.

Definition digits_of_N (n : N) : jsstring :=
  digits_loop (S (N.to_nat (N.log2 n))) n [].

Definition String_of_int (z : Z) : jsstring :=
  match z with
  | Zneg p => 45 :: digits_of_N (Npos p)
  | _ => digits_of_N (Z.to_N z)
  end.

(** [String.prototype.padStart(targetLength, padString)]. *)
Definition padStart (s : jsstring) (targetLength : nat) (padString : jsstring)
  : jsstring :=
  let stringLength := length s in
  if (targetLength <=? stringLength)%nat then s
  else match padString with
  | [] => s
  | _ =>
    let fillLen := (targetLength - stringLength)%nat in
    take fillLen (concat (replicate fillLen padString)) ++ s
  end.

(** [String.prototype.slice(start, end)] for in-range, non-negative
    indices, which is how [path] uses it. *)
Definition slice (s : jsstring) (start stop : Z) : jsstring :=
  take (Z.to_nat (stop - start)) (drop (Z.to_nat start) s).

(** [s.split(sep)[0]] for a one-unit separator: the part before the first
    occurrence of [sep], or all of [s]. *)
Fixpoint split_first (sep : N) (s : jsstring) : jsstring :=
  match s with
  | [] => []
  | c :: r => if c =? sep then [] else c :: split_first sep r
  end.

(** A [Date] object, by what its getters return: the broken-down local
    time and the broken-down UTC time of one instant. *)
Record DateFields := {
  fullYear : Z;       (* getFullYear *)
  month : Z;          (* getMonth, 0 to 11 *)
  date : Z;           (* getDate, 1 to 31 *)
  hours : Z;
  minutes : Z;
  seconds : Z;
  milliseconds : Z }.

Record Date := { local : DateFields; utc : DateFields }.

Definition fields_in_range (d : DateFields) : Prop :=
  (0 <= month d <= 11 /\ 1 <= date d <= 31 /\ 0 <= hours d <= 23 /\
   0 <= minutes d <= 59 /\ 0 <= seconds d <= 59 /\
   0 <= milliseconds d <= 999)%Z.

Definition pad_int (z : Z) (w : nat) : jsstring :=
  padStart (String_of_int z) w (js "0").

(** [Date.prototype.toISOString]: [YYYY-MM-DDTHH:mm:ss.sssZ] in UTC, with
    the expanded six-digit signed year outside 0..9999. *)
Definition isoYear (y : Z) : jsstring :=
  if ((0 <=? y) && (y <=? 9999))%Z then pad_int y 4
  else if (y <? 0)%Z then js "-" ++ pad_int (- y) 6
  else js "+" ++ pad_int y 6.

Definition toISOString (d : Date) : jsstring :=
  let u := utc d in
  isoYear (fullYear u) ++ js "-" ++ pad_int (month u + 1) 2 ++ js "-"
    ++ pad_int (date u) 2 ++ js "T" ++ pad_int (hours u) 2 ++ js ":"
    ++ pad_int (minutes u) 2 ++ js ":" ++ pad_int (seconds u) 2 ++ js "."
    ++ pad_int (milliseconds u) 3 ++ js "Z".

(** *** Numbers: IEEE 754 binary64, and [Number(string)] *)

(** [StrWhiteSpaceChar]: white space and line terminators. *)
Definition is_StrWhiteSpaceChar (c : N) : bool :=
  existsb (N.eqb c)
    [9; 10; 11; 12; 13; 32; 160; 5760; 8232; 8233; 8239; 8287; 12288; 65279]
  || ((8192 <=? c) && (c <=? 8202)).

Fixpoint skip_white (s : jsstring) : jsstring :=
  match s with
  | c :: r => if is_StrWhiteSpaceChar c then skip_white r else s
  | [] => []
  end.

Definition trim (s : jsstring) : jsstring :=
  rev (skip_white (rev (skip_white s))).

Definition is_digit (c : N) : bool := (48 <=? c) && (c <=? 57).

Fixpoint span_digits (s : jsstring) : jsstring * jsstring :=
  match s with
  | c :: r =>
    if is_digit c then let '(d, rest) := span_digits r in (c :: d, rest)
    else ([], s)
  | [] => ([], [])
  end.

Definition digits_value (radix : N) (digit : N -> N) (ds : jsstring) : N :=
  fold_left (fun acc c => acc * radix + digit c) ds 0.

Definition decimal_value (ds : jsstring) : N :=
  digits_value 10 (fun c => c - 48) ds.

(** The number nearest to [(-1)^neg * m * 10^e], ties to even. *)
Definition float_of_decimal (neg : bool) (m : N) (e : Z) : float :=
  match m with
  | N0 => if neg then neg_zero else zero
  | Npos p =>
    SF2Prim
      (if (0 <=? e)%Z
       then binary_normalize prec emax
              ((if neg then Zneg p else Zpos p) * 10 ^ e)%Z 0 false
       else SFdiv prec emax (S754_finite neg p 0)
              (S754_finite false (Z.to_pos (10 ^ (- e))) 0))
  end.

(** [ExponentPart] after its [e]: an optional sign and digits. *)
Definition parse_exponent (s : jsstring) : option Z :=
  let '(neg, r) := match s with
                   | 43 :: r => (false, r)
                   | 45 :: r => (true, r)
                   | _ => (false, s)
                   end in
  match span_digits r with
  | ((_ :: _) as ds, []) =>
    let v := Z.of_N (decimal_value ds) in Some (if neg then - v else v)%Z
  | _ => None
  end.

(** [StrUnsignedDecimalLiteral] other than [Infinity], as a mantissa and
    a power of ten. *)
Definition parse_unsigned_decimal (s : jsstring) : option (N * Z) :=
  let '(ip, r1) := span_digits s in
  let '(fp, r2) := match r1 with
                   | 46 :: r => span_digits r
                   | _ => ([], r1)
                   end in
  match ip ++ fp with
  | [] => None
  | ds =>
    let m := decimal_value ds in
    let scale := (- Z.of_nat (length fp))%Z in
    match r2 with
    | [] => Some (m, scale)
    | c :: r3 =>
      if (c =? 101) || (c =? 69)
      then match parse_exponent r3 with
           | Some e => Some (m, (e + scale)%Z)
           | None => None
           end
      else None
    end
  end.

Definition hex_digit (c : N) : option N :=
  if is_digit c then Some (c - 48)
  else if (97 <=? c) && (c <=? 102) then Some (c - 87)
  else if (65 <=? c) && (c <=? 70) then Some (c - 55)
  else None.

(** [NonDecimalIntegerLiteral] digits in the given radix. *)
Definition parse_radix (radix : N) (ds : jsstring) : option N :=
  match ds with
  | [] => None
  | _ =>
    if forallb (fun c => match hex_digit c with
                         | Some d => d <? radix
                         | None => false
                         end) ds
    then Some (digits_value radix (fun c => default 0 (hex_digit c)) ds)
    else None
  end.

(** [StringToNumber]. *)
Definition StringToNumber (str : jsstring) : float :=
  let s := trim str in
  let unsigned (neg : bool) (u : jsstring) : float :=
    if jsstring_eqb u (js "Infinity")
    then if neg then neg_infinity else infinity
    else match parse_unsigned_decimal u with
         | Some (m, e) => float_of_decimal neg m e
         | None => nan
         end in
  match s with
  | [] => zero
  | 43 :: u => unsigned false u
  | 45 :: u => unsigned true u
  | 48 :: x :: ds =>
    let radix := if (x =? 120) || (x =? 88) then Some 16
                 else if (x =? 111) || (x =? 79) then Some 8
                 else if (x =? 98) || (x =? 66) then Some 2
                 else None in
    match radix with
    | Some r => match parse_radix r ds with
                | Some m => float_of_decimal false m 0
                | None => nan
                end
    | None => unsigned false s
    end
  | _ => unsigned false s
  end.

End JS.
Import JS.

(* ===================================================================== *)
(** ** Node's [path.extname] and [path.basename] (POSIX flavour) *)
(* ===================================================================== *)
Module NodePath.

Definition CHAR_FORWARD_SLASH : N := 47.
Definition CHAR_DOT : N := 46.

Definition charCodeAt (s : jsstring) (i : nat) : N := nth i s 0.

Record ExtState := {
  startDot : Z; startPart : Z; end_ : Z;
  matchedSlash : bool; preDotState : Z }.

(** The loop [for (let i = path.length - 1; i >= 0; --i)] of [extname];
    the argument counts the indices left, the one inspected is [i]. *)
Fixpoint extname_loop (path : jsstring) (n : nat) (st : ExtState) : ExtState :=
  match n with
  | O => st
  | S i =>
    let code := charCodeAt path i in
    if code =? CHAR_FORWARD_SLASH then
      if negb (matchedSlash st)
      then {| startDot := startDot st; startPart := Z.of_nat i + 1;
              end_ := end_ st; matchedSlash := matchedSlash st;
              preDotState := preDotState st |}            (* break *)
      else extname_loop path i st                          (* continue *)
    else
      let st1 :=
        if (end_ st =? -1)%Z
        then {| startDot := startDot st; startPart := startPart st;
                end_ := Z.of_nat i + 1; matchedSlash := false;
                preDotState := preDotState st |}
        else st in
      let st2 :=
        if code =? CHAR_DOT then
          if (startDot st1 =? -1)%Z
          then {| startDot := Z.of_nat i; startPart := startPart st1;
                  end_ := end_ st1; matchedSlash := matchedSlash st1;
                  preDotState := preDotState st1 |}
          else if negb (preDotState st1 =? 1)%Z
          then {| startDot := startDot st1; startPart := startPart st1;
                  end_ := end_ st1; matchedSlash := matchedSlash st1;
                  preDotState := 1 |}
          else st1
        else if negb (startDot st1 =? -1)%Z
        then {| startDot := startDot st1; startPart := startPart st1;
                end_ := end_ st1; matchedSlash := matchedSlash st1;
                preDotState := -1 |}
        else st1 in
      extname_loop path i st2
  end.

Definition extname (path : jsstring) : jsstring :=
  let st := extname_loop path (length path)
              {| startDot := -1; startPart := 0; end_ := -1;
                 matchedSlash := true; preDotState := 0 |} in
  if ((startDot st =? -1) || (end_ st =? -1) || (preDotState st =? 0)
      || ((preDotState st =? 1) && (startDot st =? end_ st - 1)
          && (startDot st =? startPart st + 1)))%Z
  then []
  else slice path (startDot st) (end_ st).

Record BaseState := {
  start : Z; bend : Z; bmatchedSlash : bool;
  extIdx : Z; firstNonSlashEnd : Z }.

(** The loop of [basename] when a non-empty suffix no longer than the
    path is given. *)
Fixpoint basename_suffix_loop (path suffix : jsstring) (n : nat)
    (st : BaseState) : BaseState :=
  match n with
  | O => st
  | S i =>
    let code := charCodeAt path i in
    if code =? CHAR_FORWARD_SLASH then
      if negb (bmatchedSlash st)
      then {| start := Z.of_nat i + 1; bend := bend st;
              bmatchedSlash := bmatchedSlash st; extIdx := extIdx st;
              firstNonSlashEnd := firstNonSlashEnd st |}   (* break *)
      else basename_suffix_loop path suffix i st
    else
      let st1 :=
        if (firstNonSlashEnd st =? -1)%Z
        then {| start := start st; bend := bend st; bmatchedSlash := false;
                extIdx := extIdx st; firstNonSlashEnd := Z.of_nat i + 1 |}
        else st in
      let st2 :=
        if (0 <=? extIdx st1)%Z then
          if code =? charCodeAt suffix (Z.to_nat (extIdx st1)) then
            if (extIdx st1 - 1 =? -1)%Z
            then {| start := start st1; bend := Z.of_nat i;
                    bmatchedSlash := bmatchedSlash st1;
                    extIdx := extIdx st1 - 1;
                    firstNonSlashEnd := firstNonSlashEnd st1 |}
            else {| start := start st1; bend := bend st1;
                    bmatchedSlash := bmatchedSlash st1;
                    extIdx := extIdx st1 - 1;
                    firstNonSlashEnd := firstNonSlashEnd st1 |}
          else {| start := start st1; bend := firstNonSlashEnd st1;
                  bmatchedSlash := bmatchedSlash st1; extIdx := -1;
                  firstNonSlashEnd := firstNonSlashEnd st1 |}
        else st1 in
      basename_suffix_loop path suffix i st2
  end.

(** The loop of [basename] without a usable suffix. *)
Fixpoint basename_plain_loop (path : jsstring) (n : nat) (st : BaseState)
  : BaseState :=
  match n with
  | O => st
  | S i =>
    if charCodeAt path i =? CHAR_FORWARD_SLASH then
      if negb (bmatchedSlash st)
      then {| start := Z.of_nat i + 1; bend := bend st;
              bmatchedSlash := bmatchedSlash st; extIdx := extIdx st;
              firstNonSlashEnd := firstNonSlashEnd st |}   (* break *)
      else basename_plain_loop path i st
    else if (bend st =? -1)%Z
    then basename_plain_loop path i
           {| start := start st; bend := Z.of_nat i + 1;
              bmatchedSlash := false; extIdx := extIdx st;
              firstNonSlashEnd := firstNonSlashEnd st |}
    else basename_plain_loop path i st
  end.

Definition basename (path suffix : jsstring) : jsstring :=
  let init := {| start := 0; bend := -1; bmatchedSlash := true;
                 extIdx := Z.of_nat (length suffix) - 1;
                 firstNonSlashEnd := -1 |} in
  if ((0 <? length suffix)%nat && (length suffix <=? length path)%nat)%bool
  then
    if jsstring_eqb suffix path then []
    else
      let st := basename_suffix_loop path suffix (length path) init in
      let e := if (start st =? bend st)%Z then firstNonSlashEnd st
               else if (bend st =? -1)%Z then Z.of_nat (length path)
               else bend st in
      slice path (start st) e
  else
    let st := basename_plain_loop path (length path) init in
    if (bend st =? -1)%Z then [] else slice path (start st) (bend st).

End NodePath.

(* ===================================================================== *)
(** ** sanitizeAndTimestampFilename *)
(* ===================================================================== *)

(** The character class [a-zA-Z0-9-_]. *)
Definition safe_unit (c : N) : bool :=
  ((97 <=? c) && (c <=? 122)) || ((65 <=? c) && (c <=? 90))
  || ((48 <=? c) && (c <=? 57)) || (c =? 45) || (c =? 95).

(** [s.replace(/[^a-zA-Z0-9-_]/g, '_')]: every code unit outside the class
    is replaced, one by one. *)
Definition replace_unsafe (s : jsstring) : jsstring :=
  map (fun c => if safe_unit c then c else 95) s.

Definition timestamp (now : Date) : jsstring :=
  let d := local now in
  let year := fullYear d in
  let month := padStart (String_of_int (month d + 1)) 2 (js "0") in
  let day := padStart (String_of_int (date d)) 2 (js "0") in
  let hours := padStart (String_of_int (hours d)) 2 (js "0") in
  let minutes := padStart (String_of_int (minutes d)) 2 (js "0") in
  let seconds := padStart (String_of_int (seconds d)) 2 (js "0") in
  let milliseconds := padStart (String_of_int (milliseconds d)) 3 (js "0") in
  String_of_int year ++ month ++ day ++ js "_" ++ hours ++ minutes ++ seconds
    ++ js "_" ++ milliseconds.

(** [now] is what [new Date()] returns at the call. *)
Definition sanitizeAndTimestampFilename (now : Date) (originalFilename : jsstring)
  : jsstring :=
  let timestamp := timestamp now in
  let extension := NodePath.extname originalFilename in
  let nameWithoutExtension := NodePath.basename originalFilename extension in
  let nameWithoutExtension := replace_unsafe nameWithoutExtension in
  nameWithoutExtension ++ js "_" ++ timestamp ++ extension.


(* ===================================================================== *)
(** ** Values that reach the schemas *)
(* ===================================================================== *)

(** A [File]: its name, MIME type, size in bytes as the platform reports
    it, and the bytes [arrayBuffer()] resolves to. *)
Record File := {
  file_name : jsstring;
  file_type : jsstring;
  file_size : N;
  file_bytes : list N }.

(** The values the schemas are given. A form entry is a string or a
    [File], a missing one reads as [null], and [createCustomer] leaves a
    key [undefined]. [VFileList] is the browser's list of files the
    upload schema is typed for; the server is never handed one. *)
Inductive JsValue :=
| VUndefined
| VNull
| VString (s : jsstring)
| VFile (f : File)
| VFileList (fs : list File).

(** [Number(v)], the coercion of [z.coerce.number()]: an object goes
    through its string form, which is not a numeric literal. *)
Definition Number (v : JsValue) : float :=
  match v with
  | VUndefined => nan
  | VNull => zero
  | VString s => StringToNumber s
  | VFile _ | VFileList _ => nan
  end.

(** A [FormData]: entries in order; [get] returns the first value under
    the name, or [null]. An entry is a string or a [File]. *)
Inductive FormDataEntryValue :=
| EntryString (s : jsstring)
| EntryFile (f : File).

Definition FormData := list (string * FormDataEntryValue).

Definition formData_get (formData : FormData) (name : string) : JsValue :=
  match find (fun e => String.eqb (fst e) name) formData with
  | Some (_, EntryString s) => VString s
  | Some (_, EntryFile f) => VFile f
  | None => VNull
  end.

(** What a call can throw. A [ReferenceError] is what evaluating an
    identifier that is not bound throws. *)
Inductive JsError :=
| StoreError
| FileSystemError
| TypeError
| ReferenceError
| NEXT_REDIRECT (url : string).

(** How an evaluation completes: normally, with a value, or by throwing. *)
Inductive Completion (A : Type) :=
| Normal (a : A)
| Throw (e : JsError).
Arguments Normal {A} a.
Arguments Throw {A} e.

(* ===================================================================== *)
(** ** zod (version 3): the parsers the two schemas are built from *)
(* ===================================================================== *)
Module Zod.

Record ZodIssue := { issue_path : list string; issue_message : jsstring }.

(** A parser returns [INVALID] (aborted) or a value that is clean or
    dirty, and the issues it added to the context, in order. *)
Inductive SyncParseReturn (A : Type) :=
| INVALID
| PARSED (dirty : bool) (value : A).
Arguments INVALID {A}.
Arguments PARSED {A} dirty value.

Definition Schema (A : Type) : Type :=
  JsValue -> list string -> SyncParseReturn A * list ZodIssue.

(** [getParsedType], by name, for the default messages. *)
Definition parsedTypeName (v : JsValue) : jsstring :=
  match v with
  | VUndefined => js "undefined"
  | VNull => js "null"
  | VString _ => js "string"
  | VFile _ | VFileList _ => js "object"
  end.

Record RawCreateParams := {
  required_error : option jsstring;
  invalid_type_error : option jsstring }.

Definition no_params : RawCreateParams :=
  {| required_error := None; invalid_type_error := None |}.

(** The error map for an [invalid_type] issue: the schema's
    [required_error] when the data is [undefined], its
    [invalid_type_error] otherwise, and the default message when the
    one that applies is not given. [received] names the parsed type. *)
Definition invalid_type_message (p : RawCreateParams) (expected : jsstring)
    (is_undefined : bool) (received : jsstring) : jsstring :=
  let defaultError :=
    if is_undefined then js "Required"
    else js "Expected " ++ expected ++ js ", received " ++ received in
  if is_undefined then default defaultError (required_error p)
  else default defaultError (invalid_type_error p).

Definition is_undefined (v : JsValue) : bool :=
  match v with VUndefined => true | _ => false end.

(** *** ZodString *)
Inductive StringCheck := check_email (message : jsstring).

Record ZodString := {
  zs_params : RawCreateParams;
  zs_checks : list StringCheck }.

Definition z_string (p : RawCreateParams) : ZodString :=
  {| zs_params := p; zs_checks := [] |}.

Definition email (message : jsstring) (s : ZodString) : ZodString :=
  {| zs_params := zs_params s;
     zs_checks := zs_checks s ++ [check_email message] |}.

Section ZodString_parse.
(** [emailRegex.test], the regular expression of the installed zod. *)
Variable emailRegex_test : jsstring -> bool.

Definition run_string_check (data : jsstring) (pth : list string)
    (c : StringCheck) : list ZodIssue :=
  match c with
  | check_email m =>
    if emailRegex_test data then []
    else [{| issue_path := pth; issue_message := m |}]
  end.

Definition ZodString_parse (s : ZodString) : Schema jsstring :=
  fun data pth =>
    match data with
    | VString str =>
      let issues := flat_map (run_string_check str pth) (zs_checks s) in
      (PARSED (negb (bool_decide (issues = []))) str, issues)
    | _ =>
      (INVALID,
       [{| issue_path := pth;
           issue_message := invalid_type_message (zs_params s) (js "string")
                        (is_undefined data) (parsedTypeName data) |}])
    end.
End ZodString_parse.

(** *** ZodNumber *)
Inductive NumberCheck :=
  check_min (value : float) (inclusive : bool) (message : jsstring).

Record ZodNumber := {
  zn_coerce : bool;
  zn_params : RawCreateParams;
  zn_checks : list NumberCheck }.

Definition z_coerce_number : ZodNumber :=
  {| zn_coerce := true; zn_params := no_params; zn_checks := [] |}.

Definition gt (value : float) (message : jsstring) (n : ZodNumber) : ZodNumber :=
  {| zn_coerce := zn_coerce n; zn_params := zn_params n;
     zn_checks := zn_checks n ++ [check_min value false message] |}.

Definition run_number_check (data : float) (pth : list string)
    (c : NumberCheck) : list ZodIssue :=
  match c with
  | check_min value inclusive m =>
    let tooSmall := if inclusive then (data <? value)%float
                    else (data <=? value)%float in
    if tooSmall then [{| issue_path := pth; issue_message := m |}] else []
  end.

(** Only the coercing parser is used: the data is [Number(input)], a
    number whose parsed type is [nan] or [number]. *)
Definition ZodNumber_parse (n : ZodNumber) : Schema float :=
  fun input pth =>
    let data := Number input in
    if is_nan data then
      (INVALID,
       [{| issue_path := pth;
           issue_message := invalid_type_message (zn_params n) (js "number")
                        false (js "nan") |}])
    else
      let issues := flat_map (run_number_check data pth) (zn_checks n) in
      (PARSED (negb (bool_decide (issues = []))) data, issues).

(** *** ZodEnum *)
Record ZodEnum := { ze_values : list jsstring; ze_params : RawCreateParams }.

Definition z_enum (values : list jsstring) (p : RawCreateParams) : ZodEnum :=
  {| ze_values := values; ze_params := p |}.

(** [util.joinValues]: the values quoted and joined by [" | "]. *)
Fixpoint joinValues (values : list jsstring) : jsstring :=
  match values with
  | [] => []
  | [v] => js "'" ++ v ++ js "'"
  | v :: rest => js "'" ++ v ++ js "' | " ++ joinValues rest
  end.

Definition ZodEnum_parse (e : ZodEnum) : Schema jsstring :=
  fun data pth =>
    match data with
    | VString str =>
      if existsb (jsstring_eqb str) (ze_values e) then (PARSED false str, [])
      else
        (INVALID,
         [{| issue_path := pth;
             issue_message := js "Invalid enum value. Expected "
                          ++ joinValues (ze_values e) ++ js ", received '"
                          ++ str ++ js "'" |}])
    | _ =>
      (INVALID,
       [{| issue_path := pth;
           issue_message := invalid_type_message (ze_params e)
                        (joinValues (ze_values e))
                        (is_undefined data) (parsedTypeName data) |}])
    end.

(** *** z.custom() without a check, transform, superRefine, pipe *)
Definition z_custom : Schema JsValue := fun data _ => (PARSED false data, []).

(** A parser that runs a callback of the schema's author: what the
    callback throws leaves the parse, and [safeParse], uncaught. *)
Definition ThrowingSchema (A : Type) : Type :=
  JsValue -> list string -> Completion (SyncParseReturn A * list ZodIssue).

(** [.transform(f)]: [f] runs on a valid value only. *)
Definition transform (f : JsValue -> Completion JsValue) (inner : Schema JsValue)
  : ThrowingSchema JsValue :=
  fun data pth =>
    match inner data pth with
    | (PARSED false v, issues) =>
      match f v with
      | Normal v' => Normal (PARSED false v', issues)
      | Throw e => Throw e
      end
    | base => Normal base
    end.

(** An issue a refinement adds with [ctx.addIssue]. *)
Record IssueData := { fatal : bool; custom_message : jsstring }.

(** [.superRefine(fn)]: the refinement is given by the issues it adds,
    in order; a fatal one aborts the parse, any other makes it dirty. *)
Definition superRefine (refinement : JsValue -> list IssueData)
    (inner : ThrowingSchema JsValue) : ThrowingSchema JsValue :=
  fun data pth =>
    match inner data pth with
    | Throw e => Throw e
    | Normal (INVALID, issues) => Normal (INVALID, issues)
    | Normal (PARSED d v, issues) =>
      let added := refinement v in
      let issues' :=
        issues ++ map (fun i => {| issue_path := pth; issue_message := custom_message i |})
                      added in
      if existsb fatal added then Normal (INVALID, issues')
      else Normal (PARSED (d || negb (bool_decide (added = []))) v, issues')
    end.

(** [.pipe(out)]: [out] parses the value only when it is still valid. *)
Definition pipe (out : Schema JsValue) (inner : ThrowingSchema JsValue)
  : ThrowingSchema JsValue :=
  fun data pth =>
    match inner data pth with
    | Throw e => Throw e
    | Normal (INVALID, issues) => Normal (INVALID, issues)
    | Normal (PARSED true v, issues) => Normal (PARSED true v, issues)
    | Normal (PARSED false v, issues) =>
      let '(r, more) := out v pth in Normal (r, issues ++ more)
    end.

(** *** Objects and [safeParse] *)

(** [ParseStatus.mergeObjectSync] on one more key: aborted if the value
    is, dirty if either is. *)
Definition merge_field {A B C : Type} (acc : SyncParseReturn A)
    (r : SyncParseReturn B) (add : A -> B -> C) : SyncParseReturn C :=
  match acc, r with
  | PARSED d1 a, PARSED d2 b => PARSED (d1 || d2) (add a b)
  | _, _ => INVALID
  end.

Inductive SafeParseReturn (A : Type) :=
| SafeParseSuccess (data : A)
| SafeParseError (issues : list ZodIssue).
Arguments SafeParseSuccess {A} data.
Arguments SafeParseError {A} issues.

(** [handleResult]: success exactly when the status is valid. *)
Definition handleResult {A : Type} (r : SyncParseReturn A * list ZodIssue)
  : SafeParseReturn A :=
  match r with
  | (PARSED false v, _) => SafeParseSuccess v
  | (_, issues) => SafeParseError issues
  end.

(** [ZodError.flatten().fieldErrors]: the messages grouped by the first
    path element, each group in issue order. *)
Definition flatten_step (fieldErrors : gmap string (list jsstring))
    (sub : ZodIssue) : gmap string (list jsstring) :=
  match issue_path sub with
  | k :: _ => <[k := default [] (fieldErrors !! k) ++ [issue_message sub]]> fieldErrors
  | [] => fieldErrors
  end.

Definition fieldErrors (issues : list ZodIssue) : gmap string (list jsstring) :=
  fold_left flatten_step issues ∅.

End Zod.
Import Zod.

(* ===================================================================== *)
(** ** The schemas of actions.ts *)
(* ===================================================================== *)

Definition msg_select_customer := js "Please select a customer.".
Definition msg_amount := js "Please enter an amount greater than $0.".
Definition msg_select_status := js "Please select an invoice status.".
Definition msg_name_required := js "Ingrese el nombre del cliente".
Definition msg_name_invalid := js "Caracteres no válidos".
Definition msg_email := js "Email no válido".
Definition msg_not_a_file := js "Not a file".
Definition msg_max_size := js "Max file size allowed is 5MB".
Definition msg_must_be_image := js "File must be an image (jpeg, jpg, png, webp)".

Module FormSchema.
Definition id := z_string no_params.
Definition customerId :=
  z_string {| required_error := None;
              invalid_type_error := Some msg_select_customer |}.
Definition amount := gt 0%float msg_amount z_coerce_number.
Definition status :=
  z_enum [js "pending"; js "paid"]
         {| required_error := None;
            invalid_type_error := Some msg_select_status |}.
Definition date := z_string no_params.
End FormSchema.

Module FormSchemaCustomer.
Definition id := z_string no_params.
Definition name :=
  z_string {| required_error := Some msg_name_required;
              invalid_type_error := Some msg_name_invalid |}.
Definition email := Zod.email msg_email (z_string no_params).
Definition image_url := z_string no_params.

(** [val instanceof File]: [File] is a global of the server runtime. *)
Definition instanceof_File (val : JsValue) : bool :=
  match val with VFile _ => true | _ => false end.

(** The callback of [.transform]. The module is a server module ('use
    server') and runs on Node, which binds no [FileList]: for a value
    that is not a [File] the second test evaluates the identifier and
    throws a [ReferenceError], so that [val[0]] and [return null] are
    never reached. *)
Definition unwrap_file (val : JsValue) : Completion JsValue :=
  if instanceof_File val then Normal val
  else Throw ReferenceError.

Definition image_types : list jsstring :=
  [js "image/jpeg"; js "image/png"; js "image/webp"; js "image/jpg"].

(** The callback of [.superRefine], by the issues it adds. *)
Definition check_file (file : JsValue) : list IssueData :=
  match file with
  | VFile f =>
    (if 5 * 1024 * 1024 <? file_size f
     then [{| fatal := false; custom_message := msg_max_size |}]
     else [])
    ++ (if negb (existsb (jsstring_eqb (file_type f)) image_types)
        then [{| fatal := false; custom_message := msg_must_be_image |}]
        else [])
  | _ => [{| fatal := true; custom_message := msg_not_a_file |}]
  end.

Definition image_upload : ThrowingSchema JsValue :=
  pipe z_custom (superRefine check_file (transform unwrap_file z_custom)).
End FormSchemaCustomer.

(** The objects handed to [safeParse] and the data it yields. *)
Record InvoiceInput := {
  in_customerId : JsValue; in_amount : JsValue; in_status : JsValue }.

Record InvoiceData := {
  customerId : jsstring; amount : float; status : jsstring }.

Record CustomerInput := {
  in_name : JsValue; in_email : JsValue; in_image_url : JsValue;
  in_image_upload : JsValue }.

Record CustomerData := {
  name : jsstring; email : jsstring; image_url : jsstring;
  image_upload : JsValue }.

Section Schemas.
Variable emailRegex_test : jsstring -> bool.

(** [FormSchema.omit({ id: true, date: true })]: the keys [customerId],
    [amount], [status], parsed in this order. *)
Definition invoice_object_parse (input : InvoiceInput)
  : SyncParseReturn InvoiceData * list ZodIssue :=
  let '(r1, i1) := ZodString_parse emailRegex_test FormSchema.customerId
                     (in_customerId input) ["customerId"%string] in
  let '(r2, i2) := ZodNumber_parse FormSchema.amount
                     (in_amount input) ["amount"%string] in
  let '(r3, i3) := ZodEnum_parse FormSchema.status
                     (in_status input) ["status"%string] in
  (merge_field
     (merge_field (merge_field (PARSED false tt) r1 (fun _ c => c))
                  r2 (fun c a => (c, a)))
     r3 (fun ca s => {| customerId := fst ca; amount := snd ca; status := s |}),
   i1 ++ i2 ++ i3).

Definition CreateInvoice_safeParse (input : InvoiceInput)
  : SafeParseReturn InvoiceData :=
  handleResult (invoice_object_parse input).

Definition UpdateInvoice_safeParse (input : InvoiceInput)
  : SafeParseReturn InvoiceData :=
  handleResult (invoice_object_parse input).

(** [FormSchemaCustomer.omit({ id: true })]: the keys [name], [email],
    [image_url], [image_upload], parsed in this order; what the last
    one throws leaves the parse. *)
Definition customer_object_parse (input : CustomerInput)
  : Completion (SyncParseReturn CustomerData * list ZodIssue) :=
  let '(r1, i1) := ZodString_parse emailRegex_test FormSchemaCustomer.name
                     (in_name input) ["name"%string] in
  let '(r2, i2) := ZodString_parse emailRegex_test FormSchemaCustomer.email
                     (in_email input) ["email"%string] in
  let '(r3, i3) := ZodString_parse emailRegex_test FormSchemaCustomer.image_url
                     (in_image_url input) ["image_url"%string] in
  match FormSchemaCustomer.image_upload
          (in_image_upload input) ["image_upload"%string] with
  | Throw e => Throw e
  | Normal (r4, i4) =>
    Normal
      (merge_field
         (merge_field
            (merge_field (merge_field (PARSED false tt) r1 (fun _ n => n))
                         r2 (fun n e => (n, e)))
            r3 (fun ne u => (ne, u)))
         r4 (fun neu f => {| name := fst (fst neu); email := snd (fst neu);
                             image_url := snd neu; image_upload := f |}),
       i1 ++ i2 ++ i3 ++ i4)
  end.

(** [safeParse] has no [try]: it returns a result, or throws what the
    parse threw. *)
Definition safeParse {A : Type}
    (parsed : Completion (SyncParseReturn A * list ZodIssue))
  : Completion (SafeParseReturn A) :=
  match parsed with
  | Normal r => Normal (handleResult r)
  | Throw e => Throw e
  end.

Definition CreateCustomer_safeParse (input : CustomerInput)
  : Completion (SafeParseReturn CustomerData) :=
  safeParse (customer_object_parse input).

Definition UpdateCustomer_safeParse (input : CustomerInput)
  : Completion (SafeParseReturn CustomerData) :=
  safeParse (customer_object_parse input).
End Schemas.

(* ===================================================================== *)
(** ** The collaborators: store, file system, cache, router, clock *)
(* ===================================================================== *)

Inductive SqlValue :=
| SqlText (s : jsstring)
| SqlNumber (x : float).

(** The three statement shapes of the tagged templates, with their bound
    parameters. *)
Inductive SqlStatement :=
| INSERT_INTO (table : string) (columns : list string) (values : list SqlValue)
| UPDATE_SET (table : string) (assignments : list (string * SqlValue))
             (where_id : SqlValue)
| DELETE_FROM (table : string) (where_id : SqlValue).

Abbreviation Row := (gmap string SqlValue).
Abbreviation Store := (gmap string (list Row)).

Definition sql_value_eqb (a b : SqlValue) : bool :=
  match a, b with
  | SqlText s, SqlText t => jsstring_eqb s t
  | SqlNumber x, SqlNumber y => (x =? y)%float
  | _, _ => false
  end.

Definition row_has_id (id : SqlValue) (r : Row) : bool :=
  match r !! "id"%string with
  | Some v => sql_value_eqb v id
  | None => false
  end.

Definition set_columns (assignments : list (string * SqlValue)) (r : Row) : Row :=
  fold_left (fun acc cv => <[fst cv := snd cv]> acc) assignments r.

Definition table_rows (db : Store) (table : string) : list Row :=
  default [] (db !! table).

(** What a statement the store accepts does to it; [new_id] is the id the
    store gives an inserted row. *)
Definition apply_statement (new_id : SqlValue) (stmt : SqlStatement) (db : Store)
  : Store :=
  match stmt with
  | INSERT_INTO table columns values =>
    <[table := table_rows db table
               ++ [set_columns (zip columns values) {["id"%string := new_id]}]]> db
  | UPDATE_SET table assignments id =>
    <[table := map (fun r => if row_has_id id r then set_columns assignments r
                             else r)
                   (table_rows db table)]> db
  | DELETE_FROM table id =>
    <[table := filter (fun r => row_has_id id r = false) (table_rows db table)]> db
  end.

Inductive Event :=
| EvSql (stmt : SqlStatement) (accepted : bool)
| EvWriteFile (file : jsstring) (data : list N) (written : bool)
| EvRevalidatePath (url : string)
| EvRedirect (url : string)
| EvConsoleLog (args : list jsstring).

(** What an invocation cannot decide: the clock, whether the store and the
    file system fail, the id the store generates, the working directory
    and [path.join], and zod's e-mail pattern. *)
Record Env := {
  now : Date;
  emailRegex_test : jsstring -> bool;
  cwd : jsstring;
  path_join : jsstring -> jsstring -> jsstring;
  sql_rejects : SqlStatement -> Store -> bool;
  generated_id : Store -> SqlValue;
  writeFile_rejects : jsstring -> list N -> bool }.

Record World := {
  db : Store;
  disk : gmap jsstring (list N);
  trace : list Event }.

Definition emit (e : Event) (w : World) : World :=
  {| db := db w; disk := disk w; trace := trace w ++ [e] |}.

(** *** Effects: a computation reads the environment, changes the world and
    completes normally or by throwing. *)
Definition Eff (A : Type) : Type := Env -> World -> Completion A * World.

Definition ret {A : Type} (a : A) : Eff A := fun _ w => (Normal a, w).

Definition bind {A B : Type} (m : Eff A) (k : A -> Eff B) : Eff B :=
  fun env w =>
    match m env w with
    | (Normal a, w') => k a env w'
    | (Throw e, w') => (Throw e, w')
    end.

Definition throw {A : Type} (e : JsError) : Eff A := fun _ w => (Throw e, w).

(** An evaluation without effects, within a computation. *)
Definition evaluate {A : Type} (c : Completion A) : Eff A := fun _ w => (c, w).

Definition ask : Eff Env := fun env w => (Normal env, w).

#[global] Instance Eff_ret : MRet Eff := @ret.
#[global] Instance Eff_bind : MBind Eff := fun A B k m => bind m k.

(** [try { body } catch (error) { ... }], by what the block completed with. *)
Inductive Tried (A : Type) :=
| Completed (a : A)
| Caught (error : JsError).
Arguments Completed {A} a.
Arguments Caught {A} error.

Definition try {A : Type} (body : Eff A) : Eff (Tried A) :=
  fun env w =>
    match body env w with
    | (Normal a, w') => (Normal (Completed a), w')
    | (Throw e, w') => (Normal (Caught e), w')
    end.

(** [await sql`...`]: one statement, applied whole or not at all. *)
Definition sql (stmt : SqlStatement) : Eff unit :=
  fun env w =>
    if sql_rejects env stmt (db w)
    then (Throw StoreError, emit (EvSql stmt false) w)
    else (Normal tt,
          emit (EvSql stmt true)
            {| db := apply_statement (generated_id env (db w)) stmt (db w);
               disk := disk w; trace := trace w |}).

(** [await writeFile(file, data)]. *)
Definition writeFile (file : jsstring) (data : list N) : Eff unit :=
  fun env w =>
    if writeFile_rejects env file data
    then (Throw FileSystemError, emit (EvWriteFile file data false) w)
    else (Normal tt,
          emit (EvWriteFile file data true)
            {| db := db w; disk := <[file := data]> (disk w); trace := trace w |}).

Definition revalidatePath (url : string) : Eff unit :=
  fun _ w => (Normal tt, emit (EvRevalidatePath url) w).

(** [redirect] never returns: it throws the framework's redirect signal. *)
Definition redirect {A : Type} (url : string) : Eff A :=
  fun _ w => (Throw (NEXT_REDIRECT url), emit (EvRedirect url) w).

Definition console_log (args : list jsstring) : Eff unit :=
  fun _ w => (Normal tt, emit (EvConsoleLog args) w).

Definition new_Date : Eff Date := fun env w => (Normal (now env), w).

(** Member access on the validated upload: a [TypeError] unless it is a
    [File]. *)
Definition as_File (v : JsValue) : Eff File :=
  match v with
  | VFile f => ret f
  | _ => throw TypeError
  end.

(** JavaScript truthiness of a form entry. *)
Definition truthy (v : JsValue) : bool :=
  match v with
  | VUndefined | VNull => false
  | VString s => negb (bool_decide (s = []))
  | VFile _ | VFileList _ => true
  end.

Definition error_text (e : JsError) : jsstring :=
  match e with
  | StoreError => js "StoreError"
  | FileSystemError => js "FileSystemError"
  | TypeError => js "TypeError"
  | ReferenceError => js "ReferenceError"
  | NEXT_REDIRECT _ => js "NEXT_REDIRECT"
  end.

(* ===================================================================== *)
(** ** The server actions *)
(* ===================================================================== *)

(** [State] and [StateCustomer]: both fields optional. *)
Record State := {
  errors : option (gmap string (list jsstring));
  message : option jsstring }.

Definition StateCustomer := State.

Definition createInvoice (prevState : State) (formData : FormData) : Eff State :=
  env ← ask;
  let validatedFields :=
    CreateInvoice_safeParse (emailRegex_test env)
      {| in_customerId := formData_get formData "customerId";
         in_amount := formData_get formData "amount";
         in_status := formData_get formData "status" |} in
  match validatedFields with
  | SafeParseError issues =>
    ret {| errors := Some (fieldErrors issues);
           message := Some (js "Missing Fields. Failed to Create Invoice.") |}
  | SafeParseSuccess data =>
    let amountInCents := (amount data * 100)%float in
    d ← new_Date;
    let date := split_first 84 (toISOString d) in
    r ← try (sql (INSERT_INTO "invoices"
                     ["customer_id"; "amount"; "status"; "date"]%string
                     [SqlText (customerId data); SqlNumber amountInCents;
                      SqlText (status data); SqlText date]));
    match r with
    | Caught error =>
      ret {| errors := None;
             message := Some (js "Database Error: Failed to Create Invoice.") |}
    | Completed _ =>
      revalidatePath "/dashboard/invoices";;
      redirect "/dashboard/invoices"
    end
  end.

Definition updateInvoice (id : jsstring) (prevState : State) (formData : FormData)
  : Eff State :=
  env ← ask;
  let validatedFields :=
    UpdateInvoice_safeParse (emailRegex_test env)
      {| in_customerId := formData_get formData "customerId";
         in_amount := formData_get formData "amount";
         in_status := formData_get formData "status" |} in
  match validatedFields with
  | SafeParseError issues =>
    ret {| errors := Some (fieldErrors issues);
           message := Some (js "Missing Fields. Failed to Update Invoice.") |}
  | SafeParseSuccess data =>
    let amountInCents := (amount data * 100)%float in
    r ← try (sql (UPDATE_SET "invoices"
                     [("customer_id", SqlText (customerId data));
                      ("amount", SqlNumber amountInCents);
                      ("status", SqlText (status data))]%string
                     (SqlText id)));
    match r with
    | Caught error =>
      ret {| errors := None;
             message := Some (js "Database Error: Failed to Update Invoice.") |}
    | Completed _ =>
      revalidatePath "/dashboard/invoices";;
      redirect "/dashboard/invoices"
    end
  end.

Definition deleteInvoice (id : jsstring) : Eff unit :=
  sql (DELETE_FROM "invoices" (SqlText id));;
  revalidatePath "/dashboard/invoices".

Definition createCustomer (prevState : StateCustomer) (formData : FormData)
  : Eff StateCustomer :=
  env ← ask;
  validatedFields ←
    evaluate
      (CreateCustomer_safeParse (emailRegex_test env)
         {| in_name := formData_get formData "name";
            in_email := formData_get formData "email";
            in_image_url := formData_get formData "image_url";
            in_image_upload := VUndefined |});
  match validatedFields with
  | SafeParseError issues =>
    ret {| errors := Some (fieldErrors issues);
           message := Some (js "Missing Fields. Failed to Create Invoice.") |}
  | SafeParseSuccess data =>
    r ← try (sql (INSERT_INTO "customers"
                     ["name"; "email"; "image_url"]%string
                     [SqlText (name data); SqlText (email data);
                      SqlText (image_url data)]));
    match r with
    | Caught error =>
      ret {| errors := None;
             message := Some (js "Database Error: Failed to Create Customer.") |}
    | Completed _ =>
      revalidatePath "/dashboard/customers";;
      redirect "/dashboard/customers"
    end
  end.

Definition updateCustomer (id : jsstring) (prevState : StateCustomer)
    (formData : FormData) : Eff StateCustomer :=
  env ← ask;
  validatedFields ←
    evaluate
      (UpdateCustomer_safeParse (emailRegex_test env)
         {| in_name := formData_get formData "name";
            in_email := formData_get formData "email";
            in_image_url := formData_get formData "image_url";
            in_image_upload := formData_get formData "image_upload" |});
  match validatedFields with
  | SafeParseError issues =>
    ret {| errors := Some (fieldErrors issues);
           message := Some (js "Missing Fields. Failed to Update Invoice.") |}
  | SafeParseSuccess data =>
    let file := formData_get formData "image_upload" in
    if negb (truthy file)
    then ret {| errors := None; message := Some (js "No files received.") |}
    else
      f ← as_File (image_upload data);
      let buffer := file_bytes f in
      f' ← as_File (image_upload data);
      d ← new_Date;
      let filename := sanitizeAndTimestampFilename d (file_name f') in
      console_log [filename];;
      w ← try (writeFile
                  (path_join env (cwd env) (js "/public/customers/" ++ filename))
                  buffer;;
                console_log [js "archivo subido correctamente"; filename]);
      match w with
      | Caught error =>
        console_log [js "Error occured "; error_text error];;
        ret {| errors := None;
               message := Some (js "Error occured al grabar archivo.") |}
      | Completed _ =>
        r ← try (sql (UPDATE_SET "customers"
                         [("name", SqlText (name data));
                          ("email", SqlText (email data));
                          ("image_url", SqlText (js "/customers/" ++ filename))]%string
                         (SqlText id)));
        match r with
        | Caught error =>
          console_log [js "Error occured "; filename];;
          ret {| errors := None;
                 message := Some (js "Database Error: Failed to Update Customer.") |}
        | Completed _ =>
          revalidatePath "/dashboard/customers";;
          redirect "/dashboard/customers"
        end
      end
  end.

Definition deleteCustomer (id : jsstring) : Eff unit :=
  sql (DELETE_FROM "customers" (SqlText id));;
  revalidatePath "/dashboard/customers".

(* ===================================================================== *)
(** ** The six operations as one family, and what a run leaves behind *)
(* ===================================================================== *)

Inductive Action :=
| CreateInvoice (prevState : State) (formData : FormData)
| UpdateInvoice (id : jsstring) (prevState : State) (formData : FormData)
| DeleteInvoice (id : jsstring)
| CreateCustomer (prevState : StateCustomer) (formData : FormData)
| UpdateCustomer (id : jsstring) (prevState : StateCustomer) (formData : FormData)
| DeleteCustomer (id : jsstring).

(** What the caller gets: the returned state ([None] for the actions that
    return nothing), or the thrown value. *)
Definition run (a : Action) : Eff (option State) :=
  match a with
  | CreateInvoice p fd => s ← createInvoice p fd; ret (Some s)
  | UpdateInvoice id p fd => s ← updateInvoice id p fd; ret (Some s)
  | DeleteInvoice id => deleteInvoice id;; ret None
  | CreateCustomer p fd => s ← createCustomer p fd; ret (Some s)
  | UpdateCustomer id p fd => s ← updateCustomer id p fd; ret (Some s)
  | DeleteCustomer id => deleteCustomer id;; ret None
  end.

Definition is_delete (a : Action) : bool :=
  match a with
  | DeleteInvoice _ | DeleteCustomer _ => true
  | _ => false
  end.

(** The listing view of the entity an action works on. *)
Definition listing (a : Action) : string :=
  match a with
  | CreateInvoice _ _ | UpdateInvoice _ _ _ | DeleteInvoice _ => "/dashboard/invoices"
  | _ => "/dashboard/customers"
  end.

(** The events a computation adds to the trace of the world it starts in. *)
Definition events_of {A : Type} (m : Eff A) (env : Env) (w : World) : list Event :=
  drop (length (trace w)) (trace (snd (m env w))).

Definition is_sql (e : Event) : bool :=
  match e with EvSql _ _ => true | _ => false end.

Definition is_failed_sql (e : Event) : bool :=
  match e with EvSql _ false => true | _ => false end.

Definition is_failed_write (e : Event) : bool :=
  match e with EvWriteFile _ _ false => true | _ => false end.

Definition is_revalidate (e : Event) : bool :=
  match e with EvRevalidatePath _ => true | _ => false end.

Definition is_redirect (e : Event) : bool :=
  match e with EvRedirect _ => true | _ => false end.

(** Every invalidation and every navigation of the list comes after a
    statement the store accepted ([mutated] tells whether one already
    did). *)
Fixpoint only_after_mutation (mutated : bool) (evs : list Event) : bool :=
  match evs with
  | [] => true
  | EvSql _ accepted :: rest => only_after_mutation (mutated || accepted) rest
  | EvRevalidatePath _ :: rest => mutated && only_after_mutation mutated rest
  | EvRedirect _ :: rest => mutated && only_after_mutation mutated rest
  | _ :: rest => only_after_mutation mutated rest
  end.

(** The messages [fieldErrors] holds under a key, read off the issues. *)
Definition messages_at (k : string) (issues : list ZodIssue) : list jsstring :=
  flat_map (fun i => match issue_path i with
                     | k' :: _ => if String.eqb k' k then [issue_message i] else []
                     | [] => []
                     end) issues.

(** [state.errors?.[field]] of what an action returned. *)
Definition field_errors {A : Type} (r : Completion State * A) (field : string)
  : option (list jsstring) :=
  match fst r with
  | Normal st => fe ← errors st; fe !! field
  | Throw _ => None
  end.

Definition returned_message {A : Type} (r : Completion State * A) : option jsstring :=
  match fst r with
  | Normal st => message st
  | Throw _ => None
  end.

Definition invoice_input (formData : FormData) : InvoiceInput :=
  {| in_customerId := formData_get formData "customerId";
     in_amount := formData_get formData "amount";
     in_status := formData_get formData "status" |}.

Definition create_customer_input (formData : FormData) : CustomerInput :=
  {| in_name := formData_get formData "name";
     in_email := formData_get formData "email";
     in_image_url := formData_get formData "image_url";
     in_image_upload := VUndefined |}.

Definition update_customer_input (formData : FormData) : CustomerInput :=
  {| in_name := formData_get formData "name";
     in_email := formData_get formData "email";
     in_image_url := formData_get formData "image_url";
     in_image_upload := formData_get formData "image_upload" |}.

(** The statements the actions issue. *)
Definition insert_invoice (data : InvoiceData) (today : Date) : SqlStatement :=
  INSERT_INTO "invoices" ["customer_id"; "amount"; "status"; "date"]%string
    [SqlText (customerId data); SqlNumber (amount data * 100)%float;
     SqlText (status data); SqlText (split_first 84 (toISOString today))].

Definition update_invoice (id : jsstring) (data : InvoiceData) : SqlStatement :=
  UPDATE_SET "invoices"
    [("customer_id", SqlText (customerId data));
     ("amount", SqlNumber (amount data * 100)%float);
     ("status", SqlText (status data))]%string
    (SqlText id).

Definition insert_customer (data : CustomerData) : SqlStatement :=
  INSERT_INTO "customers" ["name"; "email"; "image_url"]%string
    [SqlText (name data); SqlText (email data); SqlText (image_url data)].

Definition update_customer (id : jsstring) (data : CustomerData)
    (filename : jsstring) : SqlStatement :=
  UPDATE_SET "customers"
    [("name", SqlText (name data)); ("email", SqlText (email data));
     ("image_url", SqlText (js "/customers/" ++ filename))]%string
    (SqlText id).

(** The columns a statement assigns. *)
Definition assigned_columns (stmt : SqlStatement) : list string :=
  match stmt with
  | INSERT_INTO _ columns _ => columns
  | UPDATE_SET _ assignments _ => map fst assignments
  | DELETE_FROM _ _ => []
  end.

(** *** The image_upload rule as the specification words it *)

(** The file a value stands for: a file itself, or the first of a list of
    files. *)
Definition supplied_file (v : JsValue) : option File :=
  match v with
  | VFile f => Some f
  | VFileList (f :: _) => Some f
  | _ => None
  end.

Definition image_mime_types : list jsstring :=
  [js "image/jpeg"; js "image/png"; js "image/webp"; js "image/jpg"].

(** Not a file: the single message "Not a file". A file: "Max file size
    allowed is 5MB" when its size exceeds 5*1024*1024 bytes, then "File
    must be an image (jpeg, jpg, png, webp)" when its MIME type is outside
    the four image types; both can appear. *)
Definition image_upload_messages_spec (v : JsValue) : list jsstring :=
  match supplied_file v with
  | None => [js "Not a file"]
  | Some f =>
    (if bool_decide (5 * 1024 * 1024 < file_size f)
     then [js "Max file size allowed is 5MB"] else [])
    ++ (if bool_decide (file_type f ∈ image_mime_types)
        then [] else [js "File must be an image (jpeg, jpg, png, webp)"])
  end.

(** Characters and digit strings of the timestamped name. *)
Definition all_safe (s : jsstring) : Prop := Forall (fun c => safe_unit c = true) s.
Definition all_digits (s : jsstring) : Prop := Forall (fun c => is_digit c = true) s.

Definition digits_of_width (w : nat) (s : jsstring) : bool :=
  (length s =? w)%nat && forallb is_digit s.

(** *** Auxiliary definitions of the proofs *)

(** The loop of [extname] keeps [startDot] on a dot before [end]. *)
Definition ext_inv (p : jsstring) (n : nat) (st : NodePath.ExtState) : Prop :=
  (NodePath.end_ st = (-1)%Z
   \/ (Z.of_nat n < NodePath.end_ st <= Z.of_nat (length p))%Z)
  /\ (NodePath.startDot st = (-1)%Z
      \/ ((Z.of_nat n <= NodePath.startDot st < NodePath.end_ st)%Z
          /\ NodePath.charCodeAt p (Z.to_nat (NodePath.startDot st)) = 46)).

Definition scenario_clock : Date :=
  let f := {| fullYear := 2024; month := 2; date := 9; hours := 7;
              minutes := 5; seconds := 3; milliseconds := 42 |} in
  {| local := f; utc := f |}.

(** Issues that all sit at one path. *)
Definition at_path (pth : list string) (issues : list ZodIssue) : Prop :=
  Forall (fun i => issue_path i = pth) issues.

(** The issues of a customer object whose parse does not throw, field
    by field. *)
Definition customer_field_issues (t : jsstring -> bool) (input : CustomerInput)
  : list ZodIssue :=
  snd (ZodString_parse t FormSchemaCustomer.name (in_name input) ["name"%string])
  ++ snd (ZodString_parse t FormSchemaCustomer.email (in_email input)
            ["email"%string])
  ++ snd (ZodString_parse t FormSchemaCustomer.image_url (in_image_url input)
            ["image_url"%string])
  ++ map (fun i => {| issue_path := ["image_upload"%string];
                      issue_message := custom_message i |})
       (FormSchemaCustomer.check_file (in_image_upload input)).

Definition msg_not_a_number : jsstring := js "Expected number, received nan".

Definition failed (msg : jsstring) : State :=
  {| errors := None; message := Some msg |}.

Definition rejected (issues : list ZodIssue) (msg : jsstring) : State :=
  {| errors := Some (fieldErrors issues); message := Some msg |}.

(** The world after the store accepted [stmt]. *)
Definition stored (env : Env) (stmt : SqlStatement) (w : World) : World :=
  emit (EvSql stmt true)
    {| db := apply_statement (generated_id env (db w)) stmt (db w);
       disk := disk w; trace := trace w |}.

Definition listed (url : string) (w : World) : World :=
  emit (EvRedirect url) (emit (EvRevalidatePath url) w).

(** The file name, the place it is written to and the world after the
    write, for an upload [f]. *)
Definition upload_name (env : Env) (f : File) : jsstring :=
  sanitizeAndTimestampFilename (now env) (file_name f).

Definition upload_target (env : Env) (f : File) : jsstring :=
  path_join env (cwd env) (js "/public/customers/" ++ upload_name env f).

Definition written (env : Env) (f : File) (w : World) : World :=
  emit (EvConsoleLog [js "archivo subido correctamente"; upload_name env f])
    (emit (EvWriteFile (upload_target env f) (file_bytes f) true)
       {| db := db (emit (EvConsoleLog [upload_name env f]) w);
          disk := <[upload_target env f := file_bytes f]>
                    (disk (emit (EvConsoleLog [upload_name env f]) w));
          trace := trace (emit (EvConsoleLog [upload_name env f]) w) |}).


(** *** Concrete environments, worlds and submissions *)

(** An environment where the store and the file system accept everything;
    the e-mail pattern is a stand-in that asks for an [@]. *)
Definition quiet_env : Env :=
  {| now := scenario_clock;
     emailRegex_test := fun s => existsb (N.eqb 64) s;
     cwd := js "/app";
     path_join := fun a b => a ++ b;
     sql_rejects := fun _ _ => false;
     generated_id := fun _ => SqlText (js "generated");
     writeFile_rejects := fun _ _ => false |}.

(** The store throws on every statement. *)
Definition store_down_env : Env :=
  {| now := scenario_clock;
     emailRegex_test := emailRegex_test quiet_env;
     cwd := cwd quiet_env;
     path_join := path_join quiet_env;
     sql_rejects := fun _ _ => true;
     generated_id := generated_id quiet_env;
     writeFile_rejects := fun _ _ => false |}.

(** Every file write fails. *)
Definition disk_full_env : Env :=
  {| now := scenario_clock;
     emailRegex_test := emailRegex_test quiet_env;
     cwd := cwd quiet_env;
     path_join := path_join quiet_env;
     sql_rejects := fun _ _ => false;
     generated_id := generated_id quiet_env;
     writeFile_rejects := fun _ _ => true |}.

Definition empty_world : World := {| db := ∅; disk := ∅; trace := [] |}.

Definition no_state : State := {| errors := None; message := None |}.

(** Scenario 1: customer c1, amount 10.50, pending. *)
Definition invoice_form (amount : string) : FormData :=
  [("customerId", EntryString (js "c1")); ("amount", EntryString (js amount));
   ("status", EntryString (js "pending"))]%string.

Definition photo : File :=
  {| file_name := js "My Photo.JPG"; file_type := js "image/jpeg";
     file_size := 2 * 1024 * 1024; file_bytes := [255; 216; 255] |}.

Definition customer_form (name : FormDataEntryValue) : FormData :=
  [("name", name); ("email", EntryString (js "ann@example.com"));
   ("image_url", EntryString (js "/customers/ann.png"));
   ("image_upload", EntryFile photo)]%string.

(** The statements among the events, in order. *)
Definition sql_statements (evs : list Event) : list SqlStatement :=
  flat_map (fun e => match e with EvSql stmt _ => [stmt] | _ => [] end) evs.

(** Every statement of the list comes after a file write that succeeded
    ([written] tells whether one already did). *)
Fixpoint only_after_write (written : bool) (evs : list Event) : bool :=
  match evs with
  | [] => true
  | EvWriteFile _ _ ok :: rest => only_after_write (written || ok) rest
  | EvSql _ _ :: rest => written && only_after_write written rest
  | _ :: rest => only_after_write written rest
  end.

(** *** The events of the actions *)

(** The events of a create or update of an invoice, given the outcome of
    validation. *)
Definition mutation_events (env : Env) (w : World) (stmt : SqlStatement)
    (url : string) : list Event :=
  if sql_rejects env stmt (db w) then [EvSql stmt false]
  else [EvSql stmt true; EvRevalidatePath url; EvRedirect url].

Definition delete_events (env : Env) (w : World) (stmt : SqlStatement)
    (url : string) : list Event :=
  if sql_rejects env stmt (db w) then [EvSql stmt false]
  else [EvSql stmt true; EvRevalidatePath url].

(** The events of an update of a customer whose submission validated to
    [data] with the upload [f]. *)
Definition upload_events (id : jsstring) (env : Env) (w : World)
    (data : CustomerData) (f : File) : list Event :=
  EvConsoleLog [upload_name env f]
  :: (if writeFile_rejects env (upload_target env f) (file_bytes f)
      then [EvWriteFile (upload_target env f) (file_bytes f) false;
            EvConsoleLog [js "Error occured "; error_text FileSystemError]]
      else
        EvWriteFile (upload_target env f) (file_bytes f) true
        :: EvConsoleLog [js "archivo subido correctamente"; upload_name env f]
        :: (let stmt := update_customer id data (upload_name env f) in
            if sql_rejects env stmt (db w)
            then [EvSql stmt false;
                  EvConsoleLog [js "Error occured "; upload_name env f]]
            else [EvSql stmt true; EvRevalidatePath "/dashboard/customers";
                  EvRedirect "/dashboard/customers"])).


(** *** Operations, entities and validation of an action *)

Definition operation_name (a : Action) : jsstring :=
  match a with
  | CreateInvoice _ _ | CreateCustomer _ _ => js "Create"
  | UpdateInvoice _ _ _ | UpdateCustomer _ _ _ => js "Update"
  | DeleteInvoice _ | DeleteCustomer _ => js "Delete"
  end.

Definition entity_name (a : Action) : jsstring :=
  match a with
  | CreateInvoice _ _ | UpdateInvoice _ _ _ | DeleteInvoice _ => js "Invoice"
  | _ => js "Customer"
  end.

(** The generic message for a store failure: it names the operation and
    the entity. *)
Definition store_failure_message (a : Action) : jsstring :=
  js "Database Error: Failed to " ++ operation_name a ++ js " "
    ++ entity_name a ++ js ".".

(** Whether the submission of an action fails validation, by issues or
    by a throw of the parse; the delete actions validate nothing. *)
Definition fails_validation (a : Action) (env : Env) : bool :=
  match a with
  | CreateInvoice _ fd =>
    match CreateInvoice_safeParse (emailRegex_test env) (invoice_input fd) with
    | SafeParseError _ => true | SafeParseSuccess _ => false
    end
  | UpdateInvoice _ _ fd =>
    match UpdateInvoice_safeParse (emailRegex_test env) (invoice_input fd) with
    | SafeParseError _ => true | SafeParseSuccess _ => false
    end
  | CreateCustomer _ fd =>
    match CreateCustomer_safeParse (emailRegex_test env)
            (create_customer_input fd) with
    | Normal (SafeParseSuccess _) => false | _ => true
    end
  | UpdateCustomer _ _ fd =>
    match UpdateCustomer_safeParse (emailRegex_test env)
            (update_customer_input fd) with
    | Normal (SafeParseSuccess _) => false | _ => true
    end
  | DeleteInvoice _ | DeleteCustomer _ => false
  end.

(** The statement a delete action sends. *)
Definition delete_statement (a : Action) : SqlStatement :=
  match a with
  | DeleteInvoice id => DELETE_FROM "invoices" (SqlText id)
  | DeleteCustomer id => DELETE_FROM "customers" (SqlText id)
  | _ => DELETE_FROM "" (SqlText [])
  end.

(** A world whose store holds one invoice, dated 2020-01-01. *)
Definition old_invoice : Row :=
  list_to_map
    [("id", SqlText (js "7")); ("customer_id", SqlText (js "c0"));
     ("amount", SqlNumber 500); ("status", SqlText (js "paid"));
     ("date", SqlText (js "2020-01-01"))]%string.

Definition one_invoice_world : World :=
  {| db := {["invoices"%string := [old_invoice]]}; disk := ∅; trace := [] |}.

(** What [UPDATE invoices SET ... WHERE id] makes of a row. *)
Definition updated_invoice_row (id : jsstring) (data : InvoiceData) (r : Row) : Row :=
  if row_has_id (SqlText id) r
  then <["status"%string := SqlText (status data)]>
         (<["amount"%string := SqlNumber (amount data * 100)%float]>
            (<["customer_id"%string := SqlText (customerId data)]> r))
  else r.

(** *** The outcomes of an action *)

(** Events that touch neither the store, nor the cache, nor the router. *)
Definition quiet (evs : list Event) : Prop :=
  Forall (fun e => is_sql e = false /\ is_revalidate e = false
                   /\ is_redirect e = false) evs.

(** Every way an action can end: what the caller gets and the events of
    the run. *)
Inductive Outcome (a : Action) (env : Env)
  : Completion (option State) -> list Event -> Prop :=
| out_rejected (issues : list ZodIssue) (msg : jsstring) :
    fails_validation a env = true ->
    Outcome a env
      (Normal (Some {| errors := Some (fieldErrors issues); message := Some msg |}))
      []
| out_no_file :
    fails_validation a env = false -> is_delete a = false ->
    Outcome a env
      (Normal (Some {| errors := None; message := Some (js "No files received.") |}))
      []
| out_type_error :
    fails_validation a env = false -> is_delete a = false ->
    Outcome a env (Throw TypeError) []
| out_write_failed (pre : list Event) :
    fails_validation a env = false -> is_delete a = false ->
    quiet pre -> existsb is_failed_write pre = true ->
    Outcome a env
      (Normal (Some {| errors := None;
                       message := Some (js "Error occured al grabar archivo.") |}))
      pre
| out_store_failed (stmt : SqlStatement) (pre post : list Event) :
    fails_validation a env = false -> is_delete a = false ->
    quiet pre -> quiet post -> existsb is_failed_write pre = false ->
    Outcome a env
      (Normal (Some {| errors := None; message := Some (store_failure_message a) |}))
      (pre ++ EvSql stmt false :: post)
| out_stored (stmt : SqlStatement) (pre : list Event) :
    fails_validation a env = false -> is_delete a = false ->
    quiet pre -> existsb is_failed_write pre = false ->
    Outcome a env
      (Throw (NEXT_REDIRECT (listing a)))
      (pre ++ [EvSql stmt true; EvRevalidatePath (listing a); EvRedirect (listing a)])
| out_delete_failed :
    is_delete a = true ->
    Outcome a env (Throw StoreError) [EvSql (delete_statement a) false]
| out_deleted :
    is_delete a = true ->
    Outcome a env (Normal None)
      [EvSql (delete_statement a) true; EvRevalidatePath (listing a)]
| out_parse_threw :
    fails_validation a env = true -> is_delete a = false ->
    Outcome a env (Throw ReferenceError) [].

(** Scenario 3: a GIF of 6MB. *)
Definition big_gif : File :=
  {| file_name := js "big.gif"; file_type := js "image/gif";
     file_size := 6 * 1024 * 1024; file_bytes := [71; 73; 70] |}.

Definition big_gif_form : FormData :=
  [("name", EntryString (js "Ann")); ("email", EntryString (js "ann@example.com"));
   ("image_url", EntryString (js "/customers/ann.png"));
   ("image_upload", EntryFile big_gif)]%string.

(** The action behind [run], with the state wrapped. *)
Definition underlying (a : Action) : Eff (option State) :=
  fun env w =>
    match a with
    | CreateInvoice p fd =>
      (match fst (createInvoice p fd env w) with
       | Normal s => Normal (Some s) | Throw e => Throw e
       end, snd (createInvoice p fd env w))
    | UpdateInvoice id p fd =>
      (match fst (updateInvoice id p fd env w) with
       | Normal s => Normal (Some s) | Throw e => Throw e
       end, snd (updateInvoice id p fd env w))
    | DeleteInvoice id =>
      (match fst (deleteInvoice id env w) with
       | Normal _ => Normal None | Throw e => Throw e
       end, snd (deleteInvoice id env w))
    | CreateCustomer p fd =>
      (match fst (createCustomer p fd env w) with
       | Normal s => Normal (Some s) | Throw e => Throw e
       end, snd (createCustomer p fd env w))
    | UpdateCustomer id p fd =>
      (match fst (updateCustomer id p fd env w) with
       | Normal s => Normal (Some s) | Throw e => Throw e
       end, snd (updateCustomer id p fd env w))
    | DeleteCustomer id =>
      (match fst (deleteCustomer id env w) with
       | Normal _ => Normal None | Throw e => Throw e
       end, snd (deleteCustomer id env w))
    end.


(** A customer submission whose e-mail is no address. *)
Definition bad_email_form : FormData :=
  [("name", EntryString (js "Ann")); ("email", EntryString (js "ann"));
   ("image_url", EntryString (js "/customers/ann.png"));
   ("image_upload", EntryFile photo)]%string.

(** A customer submission without a file to upload. *)
Definition fileless_form : FormData :=
  [("name", EntryString (js "Ann")); ("email", EntryString (js "ann@example.com"));
   ("image_url", EntryString (js "/customers/ann.png"))]%string.

(** A customer submission with every field but the name. *)
Definition nameless_form : FormData :=
  [("email", EntryString (js "ann@example.com"));
   ("image_url", EntryString (js "/customers/ann.png"));
   ("image_upload", EntryFile photo)]%string.

(** *** Validation read off the schemas, field by field *)

(** The invoice a submission stands for: a string customer, an amount that
    coerces to a number above zero, a status that is one of the two
    values; [None] when a field does not pass. *)
Definition expected_invoice (fd : FormData) : option InvoiceData :=
  match formData_get fd "customerId", formData_get fd "status" with
  | VString c, VString s =>
    let n := Number (formData_get fd "amount") in
    if negb (is_nan n) && negb (n <=? 0)%float
       && (jsstring_eqb s (js "pending") || jsstring_eqb s (js "paid"))
    then Some {| customerId := c; amount := n; status := s |}
    else None
  | _, _ => None
  end.

(** The message under [customerId], by the submitted value. *)
Definition expected_customerId_errors (v : JsValue) : option (list jsstring) :=
  match v with
  | VString _ => None
  | VUndefined => Some [js "Required"]
  | _ => Some [js "Please select a customer."]
  end.

(** The message under [status], by the submitted value. *)
Definition expected_status_errors (v : JsValue) : option (list jsstring) :=
  match v with
  | VString s =>
    if jsstring_eqb s (js "pending") || jsstring_eqb s (js "paid") then None
    else Some [js "Invalid enum value. Expected 'pending' | 'paid', received '"
                 ++ s ++ js "'"]
  | VUndefined => Some [js "Required"]
  | _ => Some [js "Please select an invoice status."]
  end.

(** The customer an update submission stands for: string name, e-mail
    and image_url, the e-mail matching the pattern, and an uploaded file of
    at most 5MB whose type is one of the four image types. *)
Definition expected_customer (t : jsstring -> bool) (fd : FormData)
  : option CustomerData :=
  match formData_get fd "name", formData_get fd "email",
        formData_get fd "image_url", formData_get fd "image_upload" with
  | VString n, VString e, VString u, VFile f =>
    if t e && (file_size f <=? 5 * 1024 * 1024)
       && existsb (jsstring_eqb (file_type f)) image_mime_types
    then Some {| name := n; email := e; image_url := u; image_upload := VFile f |}
    else None
  | _, _, _, _ => None
  end.

(** The message under [email], by the submitted value. *)
Definition expected_email_errors (t : jsstring -> bool) (v : JsValue)
  : option (list jsstring) :=
  match v with
  | VString e => if t e then None else Some [js "Email no válido"]
  | VNull => Some [js "Expected string, received null"]
  | VUndefined => Some [js "Required"]
  | _ => Some [js "Expected string, received object"]
  end.

(** A string of white space only. *)
Definition blank (s : jsstring) : Prop :=
  Forall (fun c => is_StrWhiteSpaceChar c = true) s.

(** *** The extension within the path *)

(** A code unit that is neither the dot nor the path separator. *)
Definition plain_unit (c : N) : Prop := c <> 46 /\ c <> 47.

(** What the loop of [extname] has seen above index [n]: the last
    component reaches up to [end], holds no separator there, and
    [startDot] is the last dot in it. *)
Definition ext_scan (p : jsstring) (n : nat) (st : NodePath.ExtState) : Prop :=
  (NodePath.matchedSlash st = true -> NodePath.end_ st = (-1)%Z)
  /\ (NodePath.end_ st = (-1)%Z -> NodePath.startDot st = (-1)%Z)
  /\ (NodePath.end_ st <> (-1)%Z ->
      (Z.of_nat n < NodePath.end_ st <= Z.of_nat (length p))%Z
      /\ forall j : nat, (Z.of_nat n <= Z.of_nat j < NodePath.end_ st)%Z ->
                         NodePath.charCodeAt p j <> 47)
  /\ (NodePath.startDot st = (-1)%Z ->
      forall j : nat, (Z.of_nat n <= Z.of_nat j < NodePath.end_ st)%Z ->
                      NodePath.charCodeAt p j <> 46)
  /\ (NodePath.startDot st <> (-1)%Z ->
      (Z.of_nat n <= NodePath.startDot st < NodePath.end_ st)%Z
      /\ NodePath.charCodeAt p (Z.to_nat (NodePath.startDot st)) = 46
      /\ forall j : nat, (NodePath.startDot st < Z.of_nat j < NodePath.end_ st)%Z ->
                         NodePath.charCodeAt p j <> 46).

(** The units a timestamp is made of: digits, the minus sign of a year
    before 0, and the underscore. *)
Definition stamp_unit (c : N) : Prop := is_digit c = true \/ c = 45 \/ c = 95.


(** The clock of the scenarios, one millisecond later. *)
Definition next_millisecond : Date :=
  let f := {| fullYear := 2024; month := 2; date := 9; hours := 7;
              minutes := 5; seconds := 3; milliseconds := 43 |} in
  {| local := f; utc := f |}.

(** Half past eleven in the evening of 9 March 2024, five hours behind
    UTC. *)
Definition late_evening : Date :=
  {| local := {| fullYear := 2024; month := 2; date := 9; hours := 23;
                 minutes := 30; seconds := 0; milliseconds := 0 |};
     utc := {| fullYear := 2024; month := 2; date := 10; hours := 4;
               minutes := 30; seconds := 0; milliseconds := 0 |} |}.

Definition late_evening_env : Env :=
  {| now := late_evening;
     emailRegex_test := emailRegex_test quiet_env;
     cwd := cwd quiet_env;
     path_join := path_join quiet_env;
     sql_rejects := sql_rejects quiet_env;
     generated_id := generated_id quiet_env;
     writeFile_rejects := writeFile_rejects quiet_env |}.

(** Scenario 2 with another address in the [image_url] field. *)
Definition customer_form_other_url : FormData :=
  [("name", EntryString (js "Ann")); ("email", EntryString (js "ann@example.com"));
   ("image_url", EntryString (js "https://elsewhere.example/x.png"));
   ("image_upload", EntryFile photo)]%string.

(** The state an earlier attempt left behind. *)
Definition some_state : State :=
  {| errors := None; message := Some (js "Database Error: Failed to Update Customer.") |}.

(* ===================================================================== *)
(** ** Signing in *)
(* ===================================================================== *)

(** What [signIn] can throw: an instance of next-auth's [AuthError], by
    its [type], or any other value. *)
Inductive Thrown :=
| AuthError (type : jsstring)
| NotAuthError (e : JsError).

Inductive Settled (A : Type) :=
| Returned (a : A)
| Threw (error : Thrown).
Arguments Returned {A} a.
Arguments Threw {A} error.

(** [authenticate]; [signIn] of [@/auth] is given: what a call with a
    provider and a form settles to, and the world it leaves. A call that
    falls off the end of the function returns [undefined], here [None]. *)
Definition authenticate
    (signIn : jsstring -> FormData -> World -> Settled unit * World)
    (prevState : option jsstring) (formData : FormData)
  : World -> Settled (option jsstring) * World :=
  fun w =>
    match signIn (js "credentials") formData w with
    | (Returned _, w') => (Returned None, w')
    | (Threw error, w') =>
      match error with
      | AuthError type =>
        if jsstring_eqb type (js "CredentialsSignin")
        then (Returned (Some (js "Invalid credentials.")), w')
        else (Returned (Some (js "Something went wrong.")), w')
      | NotAuthError _ => (Threw error, w')
      end
    end.

(* ===================================================================== *)
(** * Properties *)
(* ===================================================================== *)

(** ** The timestamped file name *)
Section Filename.

(** A property checked on every integer of a range holds on the range. *)
Lemma checked_on_range (P : Z -> bool) (lo n : Z) :
  forallb P (map (fun i => (lo + Z.of_nat i)%Z) (seq 0 (Z.to_nat n))) = true ->
  forall z, (lo <= z < lo + n)%Z -> P z = true.
Proof.
  intros Hall z Hz.
  rewrite forallb_forall in Hall. apply Hall.
  apply in_map_iff. exists (Z.to_nat (z - lo)). split; [lia|].
  apply in_seq. lia.
Qed.

Lemma digits_of_width_spec (w : nat) (s : jsstring) :
  digits_of_width w s = true -> length s = w /\ all_digits s.
Proof.
  unfold digits_of_width, all_digits. intros H.
  apply andb_prop in H as [Hlen Hd]. split.
  - by apply Nat.eqb_eq.
  - apply Forall_forall. intros c Hc. rewrite forallb_forall in Hd.
    apply Hd. by apply list_elem_of_In.
Qed.

Lemma pad2_digits (z : Z) :
  (0 <= z <= 99)%Z ->
  digits_of_width 2 (padStart (String_of_int z) 2 (js "0")) = true.
Proof.
  intros Hz.
  apply (checked_on_range
           (fun z => digits_of_width 2 (padStart (String_of_int z) 2 (js "0")))
           0 100); [by vm_compute | lia].
Qed.

Lemma pad3_digits (z : Z) :
  (0 <= z <= 999)%Z ->
  digits_of_width 3 (padStart (String_of_int z) 3 (js "0")) = true.
Proof.
  intros Hz.
  apply (checked_on_range
           (fun z => digits_of_width 3 (padStart (String_of_int z) 3 (js "0")))
           0 1000); [by vm_compute | lia].
Qed.

Lemma year4_digits (z : Z) :
  (1000 <= z <= 9999)%Z -> digits_of_width 4 (String_of_int z) = true.
Proof.
  intros Hz.
  apply (checked_on_range (fun z => digits_of_width 4 (String_of_int z))
           1000 9000); [by vm_compute | lia].
Qed.

Lemma digits_value_from (ds : jsstring) :
  forall a,
    fold_left (fun acc c => acc * 10 + (c - 48)) ds a
    = a * 10 ^ N.of_nat (length ds)
      + fold_left (fun acc c => acc * 10 + (c - 48)) ds 0.
Proof.
  induction ds as [|c ds IH]; intros a.
  - cbn. lia.
  - cbn [fold_left length]. rewrite IH, (IH (0 * 10 + (c - 48))).
    rewrite Nat2N.inj_succ, N.pow_succ_r'. lia.
Qed.

Lemma decimal_value_cons (c : N) (ds : jsstring) :
  decimal_value (c :: ds)
  = (c - 48) * 10 ^ N.of_nat (length ds) + decimal_value ds.
Proof.
  unfold decimal_value, digits_value. cbn [fold_left].
  rewrite digits_value_from. lia.
Qed.

(** With enough fuel the loop writes the decimal digits of [n]. *)
Lemma digits_loop_value (fuel : nat) :
  forall n acc,
    n < 10 ^ N.of_nat fuel ->
    decimal_value (digits_loop fuel n acc)
    = n * 10 ^ N.of_nat (length acc) + decimal_value acc.
Proof.
  induction fuel as [|k IH]; intros n acc Hn; cbn [digits_loop].
  - cbn in Hn. assert (n = 0) as -> by lia. lia.
  - rewrite Nat2N.inj_succ, N.pow_succ_r' in Hn.
    pose proof (N.div_mod n 10 ltac:(lia)) as Hdm.
    pose proof (N.mod_upper_bound n 10 ltac:(lia)) as Hr.
    set (q := n / 10) in *. set (r := n mod 10) in *.
    assert (Hcons : decimal_value ((48 + r) :: acc)
                    = r * 10 ^ N.of_nat (length acc) + decimal_value acc).
    { rewrite decimal_value_cons. f_equal. f_equal. lia. }
    destruct (N.eqb_spec q 0) as [Hq|Hq].
    + rewrite Hcons. f_equal. f_equal. lia.
    + rewrite IH by (clearbody q r; nia).
      rewrite Hcons. cbn [length]. rewrite Nat2N.inj_succ, N.pow_succ_r'.
      clearbody q r. subst n. lia.
Qed.

Lemma digits_of_N_value (n : N) : decimal_value (digits_of_N n) = n.
Proof.
  unfold digits_of_N. rewrite digits_loop_value.
  - cbn [length]. change (decimal_value []) with 0. cbn. lia.
  - rewrite Nat2N.inj_succ, N2Nat.id.
    destruct (N.eq_dec n 0) as [->|Hn]; [by vm_compute|].
    destruct (N.log2_spec n ltac:(lia)) as [_ Hlt].
    eapply N.lt_le_trans; [exact Hlt|].
    apply N.pow_le_mono_l. lia.
Qed.

Lemma decimal_value_app (a b : jsstring) :
  decimal_value (a ++ b)
  = decimal_value a * 10 ^ N.of_nat (length b) + decimal_value b.
Proof.
  unfold decimal_value, digits_value. rewrite fold_left_app.
  apply digits_value_from.
Qed.

Lemma String_of_int_value (z : Z) :
  (0 <= z)%Z -> decimal_value (String_of_int z) = Z.to_N z.
Proof.
  intros Hz. destruct z as [|p|p]; [| |lia]; cbn [String_of_int];
    apply digits_of_N_value.
Qed.

(** A padded field that fits its width keeps its value. *)
Lemma pad2_value (z : Z) :
  (0 <= z <= 99)%Z ->
  decimal_value (padStart (String_of_int z) 2 (js "0")) = Z.to_N z.
Proof.
  intros Hz. apply N.eqb_eq.
  apply (checked_on_range
           (fun z => decimal_value (padStart (String_of_int z) 2 (js "0"))
                     =? Z.to_N z) 0 100); [by vm_compute | lia].
Qed.

Lemma pad3_value (z : Z) :
  (0 <= z <= 999)%Z ->
  decimal_value (padStart (String_of_int z) 3 (js "0")) = Z.to_N z.
Proof.
  intros Hz. apply N.eqb_eq.
  apply (checked_on_range
           (fun z => decimal_value (padStart (String_of_int z) 3 (js "0"))
                     =? Z.to_N z) 0 1000); [by vm_compute | lia].
Qed.

Lemma all_digits_app (a b : jsstring) :
  all_digits a -> all_digits b -> all_digits (a ++ b).
Proof. unfold all_digits. intros. by apply Forall_app. Qed.

Lemma replace_unsafe_safe (s : jsstring) : all_safe (replace_unsafe s).
Proof.
  unfold all_safe, replace_unsafe. apply Forall_forall. intros c Hc.
  apply list_elem_of_In, in_map_iff in Hc as (c0 & <- & _).
  destruct (safe_unit c0) eqn:E; [exact E | reflexivity].
Qed.

Lemma replace_unsafe_length (s : jsstring) :
  length (replace_unsafe s) = length s.
Proof. apply length_map. Qed.

Lemma replace_unsafe_lookup (s : jsstring) (i : nat) (c : N) :
  s !! i = Some c ->
  replace_unsafe s !! i = Some (if safe_unit c then c else 95).
Proof. intros H. unfold replace_unsafe. by rewrite list_lookup_fmap, H. Qed.

(** A slice is a contiguous part of the string it is taken from. *)
Lemma slice_is_part (s : jsstring) (a b : Z) :
  exists pre post, s = pre ++ slice s a b ++ post.
Proof.
  exists (take (Z.to_nat a) s),
         (drop (Z.to_nat (b - a)) (drop (Z.to_nat a) s)).
  unfold slice. by rewrite !take_drop.
Qed.

Lemma extname_is_part (p : jsstring) :
  exists pre post, p = pre ++ NodePath.extname p ++ post.
Proof.
  unfold NodePath.extname.
  destruct (_ || _ || _ || _)%bool.
  - exists [], p. reflexivity.
  - apply slice_is_part.
Qed.

Lemma ext_inv_weaken (p : jsstring) (n : nat) (st : NodePath.ExtState) :
  ext_inv p n st -> ext_inv p 0 st.
Proof. unfold ext_inv. intros [[?|?] [?|[? ?]]]; (split; [|]); auto; try lia;
       right; try split; auto; lia. Qed.

Lemma extname_loop_inv (p : jsstring) (n : nat) :
  forall st, (n <= length p)%nat -> ext_inv p n st ->
             ext_inv p 0 (NodePath.extname_loop p n st).
Proof.
  induction n as [|i IH]; intros st Hn Hinv; simpl.
  - exact Hinv.
  - destruct (NodePath.charCodeAt p i =? NodePath.CHAR_FORWARD_SLASH) eqn:Hs.
    + destruct (negb (NodePath.matchedSlash st)).
      * apply (ext_inv_weaken p (S i)). exact Hinv.
      * apply IH; [lia|]. unfold ext_inv in *.
        destruct Hinv as [[?|?] [?|[? ?]]]; split; auto; right;
          try split; auto; lia.
    + apply IH; [lia|].
      destruct Hinv as [He Hd].
      destruct (Z.eqb_spec (NodePath.end_ st) (-1));
        destruct (N.eqb_spec (NodePath.charCodeAt p i) NodePath.CHAR_DOT);
        cbn [NodePath.end_ NodePath.startDot NodePath.preDotState negb];
        repeat (match goal with
                | |- context [(?a =? ?b)%Z] => destruct (Z.eqb_spec a b)
                end;
                cbn [NodePath.end_ NodePath.startDot NodePath.preDotState negb]);
        unfold ext_inv;
        cbn [NodePath.end_ NodePath.startDot NodePath.preDotState];
        (split;
         [ destruct He; first [left; lia | right; lia]
         | destruct He, Hd as [|[? ?]];
           first [ left; lia
                 | right; split;
                   [lia | first [assumption | rewrite Nat2Z.id; assumption]] ] ]).
Qed.

(** A non-empty extension starts with the dot. *)
Lemma extname_leading_dot (p : jsstring) :
  NodePath.extname p = [] \/ exists rest, NodePath.extname p = 46 :: rest.
Proof.
  unfold NodePath.extname.
  set (st := NodePath.extname_loop p (length p) _).
  destruct (_ || _ || _ || _)%bool eqn:E; [by left|right].
  apply orb_false_elim in E as [E _]. apply orb_false_elim in E as [E _].
  apply orb_false_elim in E as [E1 E2].
  apply Z.eqb_neq in E1, E2.
  assert (Hinv : ext_inv p 0 st).
  { apply extname_loop_inv; [lia|]. unfold ext_inv. simpl. auto. }
  destruct Hinv as [[?|He] [?|[Hd Hc]]]; try lia.
  unfold slice.
  assert (Hlt : (Z.to_nat (NodePath.startDot st) < length p)%nat) by lia.
  apply lookup_lt_is_Some in Hlt as [c Hc'].
  unfold NodePath.charCodeAt in Hc. rewrite nth_lookup, Hc' in Hc. simpl in Hc.
  subst c. rewrite (drop_S _ _ _ Hc').
  destruct (Z.to_nat (NodePath.end_ st - NodePath.startDot st)) eqn:Ek; [lia|].
  simpl. eauto.
Qed.

End Filename.

(** C5. For every original filename, at a clock reading with a four-digit
    year, [sanitizeAndTimestampFilename] returns
    [<base>_<YYYYMMDD>_<HHMMSS>_<mmm><extension>]: the base is the file's
    base name with every code unit outside [A-Za-z0-9_-] replaced by [_]
    (so it holds only such units); the three stamps are 8, 6 and 3 decimal
    digits that read, as numbers, the local year, month (counted from 1)
    and day of the month, the local hours, minutes and seconds, and the
    milliseconds of the call; and the extension is [path.extname] of the
    original name, a part of that name copied as it is, which starts with
    the dot when it is not empty. *)
Theorem sanitized_filename_format (now : Date) (originalFilename : jsstring) :
  fields_in_range (local now) ->
  (1000 <= fullYear (local now) <= 9999)%Z ->
  let extension := NodePath.extname originalFilename in
  let stem := NodePath.basename originalFilename extension in
  exists base ymd hms mmm : jsstring,
    sanitizeAndTimestampFilename now originalFilename
      = base ++ js "_" ++ ymd ++ js "_" ++ hms ++ js "_" ++ mmm ++ extension
    /\ all_safe base
    /\ length base = length stem
    /\ (forall i c, stem !! i = Some c ->
                    base !! i = Some (if safe_unit c then c else 95))
    /\ length ymd = 8%nat /\ all_digits ymd
    /\ length hms = 6%nat /\ all_digits hms
    /\ length mmm = 3%nat /\ all_digits mmm
    /\ Z.of_N (decimal_value ymd)
       = (fullYear (local now) * 10000 + (month (local now) + 1) * 100
          + date (local now))%Z
    /\ Z.of_N (decimal_value hms)
       = (hours (local now) * 10000 + minutes (local now) * 100
          + seconds (local now))%Z
    /\ Z.of_N (decimal_value mmm) = milliseconds (local now)
    /\ (exists pre post, originalFilename = pre ++ extension ++ post)
    /\ (extension = [] \/ exists rest, extension = 46 :: rest).
Proof.
  intros (Hmo & Hda & Hho & Hmi & Hse & Hms) Hy extension stem.
  destruct (digits_of_width_spec _ _ (year4_digits _ Hy)) as [Ly Dy].
  assert (Hmo' : (0 <= month (local now) + 1 <= 99)%Z) by lia.
  assert (Hda' : (0 <= date (local now) <= 99)%Z) by lia.
  assert (Hho' : (0 <= hours (local now) <= 99)%Z) by lia.
  assert (Hmi' : (0 <= minutes (local now) <= 99)%Z) by lia.
  assert (Hse' : (0 <= seconds (local now) <= 99)%Z) by lia.
  destruct (digits_of_width_spec _ _ (pad2_digits _ Hmo')) as [Lmo Dmo].
  destruct (digits_of_width_spec _ _ (pad2_digits _ Hda')) as [Lda Dda].
  destruct (digits_of_width_spec _ _ (pad2_digits _ Hho')) as [Lho Dho].
  destruct (digits_of_width_spec _ _ (pad2_digits _ Hmi')) as [Lmi Dmi].
  destruct (digits_of_width_spec _ _ (pad2_digits _ Hse')) as [Lse Dse].
  destruct (digits_of_width_spec _ _ (pad3_digits _ Hms)) as [Lms Dms].
  exists (replace_unsafe stem),
    (String_of_int (fullYear (local now))
       ++ padStart (String_of_int (month (local now) + 1)) 2 (js "0")
       ++ padStart (String_of_int (date (local now))) 2 (js "0")),
    (padStart (String_of_int (hours (local now))) 2 (js "0")
       ++ padStart (String_of_int (minutes (local now))) 2 (js "0")
       ++ padStart (String_of_int (seconds (local now))) 2 (js "0")),
    (padStart (String_of_int (milliseconds (local now))) 3 (js "0")).
  split.
  { unfold sanitizeAndTimestampFilename, timestamp.
    fold extension. fold stem. by rewrite <- !app_assoc. }
  split; [apply replace_unsafe_safe|].
  split; [apply replace_unsafe_length|].
  split; [apply replace_unsafe_lookup|].
  split; [rewrite !length_app; lia|].
  split; [by repeat apply all_digits_app|].
  split; [rewrite !length_app; lia|].
  split; [by repeat apply all_digits_app|].
  split; [exact Lms|]. split; [exact Dms|].
  split.
  { rewrite !decimal_value_app, !length_app, Lmo, Lda.
    rewrite String_of_int_value, !pad2_value by lia.
    change (10 ^ N.of_nat (2 + 2)) with 10000.
    change (10 ^ N.of_nat 2) with 100. lia. }
  split.
  { rewrite !decimal_value_app, !length_app, Lmi, Lse.
    rewrite !pad2_value by lia.
    change (10 ^ N.of_nat (2 + 2)) with 10000.
    change (10 ^ N.of_nat 2) with 100. lia. }
  split; [rewrite pad3_value by lia; lia|].
  split; [apply extname_is_part | apply extname_leading_dot].
Qed.

Lemma sanitized_filename_format_witness :
  sanitizeAndTimestampFilename scenario_clock (js "My Photo.JPG")
    = js "My_Photo_20240309_070503_042.JPG"
  /\ exists base ymd hms mmm : jsstring,
       sanitizeAndTimestampFilename scenario_clock (js "My Photo.JPG")
         = base ++ js "_" ++ ymd ++ js "_" ++ hms ++ js "_" ++ mmm
             ++ NodePath.extname (js "My Photo.JPG")
       /\ all_safe base /\ length ymd = 8%nat /\ length hms = 6%nat
       /\ length mmm = 3%nat
       /\ Z.of_N (decimal_value ymd) = 20240309%Z
       /\ Z.of_N (decimal_value hms) = 70503%Z
       /\ Z.of_N (decimal_value mmm) = 42%Z.
Proof.
  split; [by vm_compute|].
  destruct (sanitized_filename_format scenario_clock (js "My Photo.JPG"))
    as (base & ymd & hms & mmm & H1 & H2 & _ & _ & H5 & _ & H7 & _ & H9 & _
        & V1 & V2 & V3 & _).
  - unfold fields_in_range, scenario_clock; simpl; lia.
  - unfold scenario_clock; simpl; lia.
  - exists base, ymd, hms, mmm.
    repeat (split; [assumption|]). exact V3.
Defined.

(** ** Validation: issues and the field errors built from them *)
Section Validation.

Lemma messages_at_app (k : string) (a b : list ZodIssue) :
  messages_at k (a ++ b) = messages_at k a ++ messages_at k b.
Proof. unfold messages_at. apply flat_map_app. Qed.

Lemma flatten_lookup (issues : list ZodIssue) :
  forall (acc : gmap string (list jsstring)) (k : string),
    fold_left flatten_step issues acc !! k
    = match messages_at k issues with
      | [] => acc !! k
      | ms => Some (default [] (acc !! k) ++ ms)
      end.
Proof.
  induction issues as [|i rest IH]; intros acc k; [reflexivity|].
  cbn [fold_left]. rewrite IH. unfold flatten_step.
  unfold messages_at. cbn [flat_map]. fold (messages_at k rest).
  destruct (issue_path i) as [|k' tl]; [reflexivity|].
  destruct (String.eqb_spec k' k) as [->|Hne].
  - rewrite lookup_insert_eq. simpl.
    destruct (messages_at k rest); [reflexivity|].
    simpl. by rewrite <- app_assoc.
  - rewrite lookup_insert_ne by done. reflexivity.
Qed.

(** [fieldErrors] has a key exactly for the fields with an issue, and
    holds their messages in issue order. *)
Lemma fieldErrors_lookup (issues : list ZodIssue) (k : string) :
  fieldErrors issues !! k
  = match messages_at k issues with [] => None | ms => Some ms end.
Proof.
  unfold fieldErrors. rewrite flatten_lookup, lookup_empty.
  by destruct (messages_at k issues).
Qed.

Lemma messages_at_path (k k' : string) (issues : list ZodIssue) :
  at_path [k'] issues ->
  messages_at k issues
  = if String.eqb k' k then map issue_message issues else [].
Proof.
  unfold at_path, messages_at. induction 1 as [|i rest Hi _ IH].
  - by destruct (String.eqb k' k).
  - cbn [flat_map map]. rewrite IH, Hi.
    by destruct (String.eqb k' k).
Qed.

Lemma at_path_string (t : jsstring -> bool) (s : ZodString) (v : JsValue)
    (pth : list string) :
  at_path pth (snd (ZodString_parse t s v pth)).
Proof.
  unfold ZodString_parse, at_path. destruct v; cbn [snd];
    try (by repeat constructor).
  induction (zs_checks s) as [|c cs IH]; cbn [flat_map]; [constructor|].
  apply Forall_app. split; [|exact IH].
  destruct c. unfold run_string_check. destruct (t s0); by repeat constructor.
Qed.

Lemma at_path_enum (e : ZodEnum) (v : JsValue) (pth : list string) :
  at_path pth (snd (ZodEnum_parse e v pth)).
Proof.
  unfold ZodEnum_parse, at_path. destruct v; cbn [snd];
    try (by repeat constructor).
  destruct (existsb _ _); by repeat constructor.
Qed.

Lemma at_path_number (n : ZodNumber) (v : JsValue) (pth : list string) :
  at_path pth (snd (ZodNumber_parse n v pth)).
Proof.
  unfold ZodNumber_parse, at_path. destruct (is_nan _); cbn [snd];
    [by repeat constructor|].
  induction (zn_checks n) as [|c cs IH]; cbn [flat_map]; [constructor|].
  apply Forall_app. split; [|exact IH].
  destruct c. unfold run_number_check. destruct (if inclusive then _ else _);
    by repeat constructor.
Qed.

(** *** The amount field *)

Lemma msg_not_a_number_is_default :
  invalid_type_message no_params (js "number") false (js "nan")
  = msg_not_a_number.
Proof. by vm_compute. Qed.

Lemma amount_parse (v : JsValue) (pth : list string) :
  ZodNumber_parse FormSchema.amount v pth
  = if is_nan (Number v)
    then (INVALID, [{| issue_path := pth; issue_message := msg_not_a_number |}])
    else if (Number v <=? 0)%float
    then (PARSED true (Number v),
          [{| issue_path := pth; issue_message := msg_amount |}])
    else (PARSED false (Number v), []).
Proof.
  unfold ZodNumber_parse, FormSchema.amount, gt, z_coerce_number.
  cbn [zn_coerce zn_params zn_checks app flat_map run_number_check].
  rewrite msg_not_a_number_is_default.
  destruct (is_nan (Number v)); [reflexivity|].
  destruct (Number v <=? 0)%float; reflexivity.
Qed.

(** *** The name field *)
Lemma name_parse (t : jsstring -> bool) (v : JsValue) (pth : list string) :
  ZodString_parse t FormSchemaCustomer.name v pth
  = match v with
    | VString s => (PARSED false s, [])
    | VUndefined =>
      (INVALID, [{| issue_path := pth; issue_message := msg_name_required |}])
    | _ =>
      (INVALID, [{| issue_path := pth; issue_message := msg_name_invalid |}])
    end.
Proof. destruct v; reflexivity. Qed.

(** *** The image_upload field *)
Lemma image_types_agree : FormSchemaCustomer.image_types = image_mime_types.
Proof. reflexivity. Qed.

Lemma existsb_eqb_elem_of (x : jsstring) (l : list jsstring) :
  existsb (jsstring_eqb x) l = bool_decide (x ∈ l).
Proof.
  induction l as [|y l IH]; cbn [existsb].
  - symmetry. apply bool_decide_eq_false. apply not_elem_of_nil.
  - rewrite IH. unfold jsstring_eqb.
    destruct (decide (x = y)) as [->|Hne].
    + rewrite bool_decide_eq_true_2 by done. cbn [orb]. symmetry.
      apply bool_decide_eq_true. left.
    + rewrite (bool_decide_eq_false_2 _ Hne). cbn [orb].
      apply bool_decide_ext. rewrite elem_of_cons.
      split; [by right | by intros [?|?]].
Qed.

(** For a file, the issues the refinement adds are the messages of the
    specification, and none is fatal. *)
Lemma check_file_spec (f : File) :
  map custom_message (FormSchemaCustomer.check_file (VFile f))
  = image_upload_messages_spec (VFile f)
  /\ existsb fatal (FormSchemaCustomer.check_file (VFile f)) = false.
Proof.
  unfold FormSchemaCustomer.check_file, image_upload_messages_spec.
  cbn [supplied_file]. rewrite existsb_eqb_elem_of, image_types_agree.
  destruct (N.ltb_spec (5 * 1024 * 1024) (file_size f)) as [Hsz|Hsz];
    destruct (bool_decide (file_type f ∈ image_mime_types));
    [ rewrite bool_decide_eq_true_2 by exact Hsz ..
    | rewrite bool_decide_eq_false_2 by lia
    | rewrite bool_decide_eq_false_2 by lia ]; split; reflexivity.
Qed.

(** *** When validation succeeds *)
Lemma handleResult_success {A : Type} (r : SyncParseReturn A * list ZodIssue)
    (d : A) :
  handleResult r = SafeParseSuccess d -> fst r = PARSED false d.
Proof.
  destruct r as [[|[|] v] issues]; cbn [handleResult fst]; congruence.
Qed.

Lemma handleResult_error {A : Type} (r : SyncParseReturn A * list ZodIssue)
    (issues : list ZodIssue) :
  handleResult r = SafeParseError issues -> snd r = issues.
Proof.
  destruct r as [[|[|] v] iss]; cbn [handleResult snd]; congruence.
Qed.

Lemma safeParse_success {A : Type}
    (p : Completion (SyncParseReturn A * list ZodIssue)) (d : A) :
  safeParse p = Normal (SafeParseSuccess d) ->
  exists r, p = Normal r /\ fst r = PARSED false d.
Proof.
  destruct p as [r|e]; cbn [safeParse]; [|discriminate].
  intros H. exists r. split; [reflexivity|].
  apply handleResult_success. congruence.
Qed.

Lemma safeParse_error {A : Type}
    (p : Completion (SyncParseReturn A * list ZodIssue))
    (issues : list ZodIssue) :
  safeParse p = Normal (SafeParseError issues) ->
  exists r, p = Normal r /\ snd r = issues.
Proof.
  destruct p as [r|e]; cbn [safeParse]; [|discriminate].
  intros H. exists r. split; [reflexivity|].
  apply handleResult_error. congruence.
Qed.

Lemma merge_field_valid {A B C : Type} (acc : SyncParseReturn A)
    (r : SyncParseReturn B) (add : A -> B -> C) (c : C) :
  merge_field acc r add = PARSED false c ->
  exists a b, acc = PARSED false a /\ r = PARSED false b /\ c = add a b.
Proof.
  destruct acc as [|[|] a], r as [|[|] b]; cbn [merge_field orb];
    try congruence.
  intros [= <-]. eauto.
Qed.

Lemma string_parse_valid (t : jsstring -> bool) (s : ZodString) (v : JsValue)
    (pth : list string) (x : jsstring) :
  fst (ZodString_parse t s v pth) = PARSED false x -> v = VString x.
Proof. destruct v; cbn [ZodString_parse fst]; congruence. Qed.

Lemma enum_parse_valid (e : ZodEnum) (v : JsValue) (pth : list string)
    (x : jsstring) :
  fst (ZodEnum_parse e v pth) = PARSED false x ->
  v = VString x /\ existsb (jsstring_eqb x) (ze_values e) = true.
Proof.
  destruct v; cbn [ZodEnum_parse fst]; try congruence.
  destruct (existsb _ _) eqn:E; cbn [fst]; [|congruence].
  intros [= <-]. auto.
Qed.

Lemma amount_parse_valid (v : JsValue) (pth : list string) (x : float) :
  fst (ZodNumber_parse FormSchema.amount v pth) = PARSED false x ->
  x = Number v /\ is_nan (Number v) = false /\ (Number v <=? 0)%float = false.
Proof.
  rewrite amount_parse.
  destruct (is_nan (Number v)); cbn [fst]; [congruence|].
  destruct (Number v <=? 0)%float; cbn [fst]; [congruence|].
  intros [= <-]. auto.
Qed.

(** What the image_upload pipeline returns, for every value: the
    transform throws on all but a file. *)
Lemma image_upload_parse (v : JsValue) (pth : list string) :
  FormSchemaCustomer.image_upload v pth
  = match v with
    | VFile _ =>
      let added := FormSchemaCustomer.check_file v in
      let issues := map (fun i => {| issue_path := pth;
                                     issue_message := custom_message i |}) added in
      Normal (PARSED (negb (bool_decide (added = []))) v, issues)
    | _ => Throw ReferenceError
    end.
Proof.
  unfold FormSchemaCustomer.image_upload, pipe, superRefine, transform, z_custom.
  destruct v as [| | s | f | fs]; try reflexivity.
  cbn [FormSchemaCustomer.unwrap_file FormSchemaCustomer.instanceof_File app orb].
  cbv zeta. destruct (check_file_spec f) as [_ ->].
  destruct (FormSchemaCustomer.check_file (VFile f)) as [|a l] eqn:E.
  - reflexivity.
  - rewrite bool_decide_eq_false_2 by done. reflexivity.
Qed.

Lemma image_upload_valid (v : JsValue) (pth : list string) (x : JsValue)
    (issues : list ZodIssue) :
  FormSchemaCustomer.image_upload v pth = Normal (PARSED false x, issues) ->
  exists f, v = VFile f /\ x = VFile f /\ image_upload_messages_spec v = [].
Proof.
  rewrite image_upload_parse.
  destruct v as [| | s | f | fs]; try discriminate. cbv zeta.
  destruct (check_file_spec f) as [Hm _].
  destruct (bool_decide_reflect (FormSchemaCustomer.check_file (VFile f) = []))
    as [Hnil|Hnn]; cbn [negb]; [|discriminate].
  intros [= <- _]. exists f. split; [reflexivity|]. split; [reflexivity|].
  by rewrite <- Hm, Hnil.
Qed.

End Validation.

(** ** What each action does, path by path *)
Section Runs.

Ltac run_eff :=
  cbv [mbind mret Eff_bind Eff_ret bind ret ask try sql revalidatePath
       redirect console_log new_Date writeFile throw as_File evaluate].

Lemma createInvoice_run (prev : State) (fd : FormData) (env : Env) (w : World) :
  createInvoice prev fd env w
  = match CreateInvoice_safeParse (emailRegex_test env) (invoice_input fd) with
    | SafeParseError issues =>
      (Normal (rejected issues (js "Missing Fields. Failed to Create Invoice.")), w)
    | SafeParseSuccess data =>
      let stmt := insert_invoice data (now env) in
      if sql_rejects env stmt (db w)
      then (Normal (failed (js "Database Error: Failed to Create Invoice.")),
            emit (EvSql stmt false) w)
      else (Throw (NEXT_REDIRECT "/dashboard/invoices"),
            listed "/dashboard/invoices" (stored env stmt w))
    end.
Proof.
  unfold createInvoice. run_eff. fold (invoice_input fd).
  destruct (CreateInvoice_safeParse _ _) as [data|issues]; [|reflexivity].
  cbv zeta. fold (insert_invoice data (now env)).
  destruct (sql_rejects env _ (db w)); reflexivity.
Qed.

Lemma updateInvoice_run (id : jsstring) (prev : State) (fd : FormData)
    (env : Env) (w : World) :
  updateInvoice id prev fd env w
  = match UpdateInvoice_safeParse (emailRegex_test env) (invoice_input fd) with
    | SafeParseError issues =>
      (Normal (rejected issues (js "Missing Fields. Failed to Update Invoice.")), w)
    | SafeParseSuccess data =>
      let stmt := update_invoice id data in
      if sql_rejects env stmt (db w)
      then (Normal (failed (js "Database Error: Failed to Update Invoice.")),
            emit (EvSql stmt false) w)
      else (Throw (NEXT_REDIRECT "/dashboard/invoices"),
            listed "/dashboard/invoices" (stored env stmt w))
    end.
Proof.
  unfold updateInvoice. run_eff. fold (invoice_input fd).
  destruct (UpdateInvoice_safeParse _ _) as [data|issues]; [|reflexivity].
  cbv zeta. fold (update_invoice id data).
  destruct (sql_rejects env _ (db w)); reflexivity.
Qed.

Lemma delete_run (table : string) (url : string) (id : jsstring)
    (env : Env) (w : World) :
  (sql (DELETE_FROM table (SqlText id));; revalidatePath url) env w
  = let stmt := DELETE_FROM table (SqlText id) in
    if sql_rejects env stmt (db w)
    then (Throw StoreError, emit (EvSql stmt false) w)
    else (Normal tt, emit (EvRevalidatePath url) (stored env stmt w)).
Proof.
  run_eff. cbv zeta. destruct (sql_rejects env _ (db w)); reflexivity.
Qed.

Lemma deleteInvoice_run (id : jsstring) (env : Env) (w : World) :
  deleteInvoice id env w
  = let stmt := DELETE_FROM "invoices" (SqlText id) in
    if sql_rejects env stmt (db w)
    then (Throw StoreError, emit (EvSql stmt false) w)
    else (Normal tt,
          emit (EvRevalidatePath "/dashboard/invoices") (stored env stmt w)).
Proof. apply delete_run. Qed.

Lemma deleteCustomer_run (id : jsstring) (env : Env) (w : World) :
  deleteCustomer id env w
  = let stmt := DELETE_FROM "customers" (SqlText id) in
    if sql_rejects env stmt (db w)
    then (Throw StoreError, emit (EvSql stmt false) w)
    else (Normal tt,
          emit (EvRevalidatePath "/dashboard/customers") (stored env stmt w)).
Proof. apply delete_run. Qed.

Lemma createCustomer_run (prev : StateCustomer) (fd : FormData) (env : Env)
    (w : World) :
  createCustomer prev fd env w
  = match CreateCustomer_safeParse (emailRegex_test env)
            (create_customer_input fd) with
    | Throw e => (Throw e, w)
    | Normal (SafeParseError issues) =>
      (Normal (rejected issues (js "Missing Fields. Failed to Create Invoice.")), w)
    | Normal (SafeParseSuccess data) =>
      let stmt := insert_customer data in
      if sql_rejects env stmt (db w)
      then (Normal (failed (js "Database Error: Failed to Create Customer.")),
            emit (EvSql stmt false) w)
      else (Throw (NEXT_REDIRECT "/dashboard/customers"),
            listed "/dashboard/customers" (stored env stmt w))
    end.
Proof.
  unfold createCustomer. run_eff. fold (create_customer_input fd).
  destruct (CreateCustomer_safeParse _ _) as [[data|issues]|e];
    [|reflexivity|reflexivity].
  cbv zeta. fold (insert_customer data).
  destruct (sql_rejects env _ (db w)); reflexivity.
Qed.

Lemma updateCustomer_run (id : jsstring) (prev : StateCustomer) (fd : FormData)
    (env : Env) (w : World) :
  updateCustomer id prev fd env w
  = match UpdateCustomer_safeParse (emailRegex_test env)
            (update_customer_input fd) with
    | Throw e => (Throw e, w)
    | Normal (SafeParseError issues) =>
      (Normal (rejected issues (js "Missing Fields. Failed to Update Invoice.")), w)
    | Normal (SafeParseSuccess data) =>
      if negb (truthy (formData_get fd "image_upload"))
      then (Normal (failed (js "No files received.")), w)
      else match image_upload data with
      | VFile f =>
        let w1 := emit (EvConsoleLog [upload_name env f]) w in
        if writeFile_rejects env (upload_target env f) (file_bytes f)
        then (Normal (failed (js "Error occured al grabar archivo.")),
              emit (EvConsoleLog [js "Error occured "; error_text FileSystemError])
                (emit (EvWriteFile (upload_target env f) (file_bytes f) false) w1))
        else
          let w2 := written env f w in
          let stmt := update_customer id data (upload_name env f) in
          if sql_rejects env stmt (db w2)
          then (Normal (failed (js "Database Error: Failed to Update Customer.")),
                emit (EvConsoleLog [js "Error occured "; upload_name env f])
                  (emit (EvSql stmt false) w2))
          else (Throw (NEXT_REDIRECT "/dashboard/customers"),
                listed "/dashboard/customers" (stored env stmt w2))
      | _ => (Throw TypeError, w)
      end
    end.
Proof.
  unfold updateCustomer. run_eff. fold (update_customer_input fd).
  destruct (UpdateCustomer_safeParse _ _) as [[data|issues]|e];
    [|reflexivity|reflexivity].
  destruct (negb (truthy _)); [reflexivity|].
  destruct (image_upload data) as [| | s | f | fs]; try reflexivity.
  cbv zeta. fold (upload_name env f). fold (upload_target env f).
  destruct (writeFile_rejects env _ _); [reflexivity|].
  fold (update_customer id data (upload_name env f)).
  unfold written.
  destruct (sql_rejects env _ _); reflexivity.
Qed.

End Runs.

(** ** The events of each action *)
Section Events.

Lemma events_of_eq {A : Type} (m : Eff A) (env : Env) (w : World)
    (evs : list Event) :
  trace (snd (m env w)) = trace w ++ evs -> events_of m env w = evs.
Proof. unfold events_of. intros ->. apply drop_app_length. Qed.

Lemma events_of_unchanged {A : Type} (m : Eff A) (env : Env) (w : World)
    (r : Completion A) :
  m env w = (r, w) -> events_of m env w = [].
Proof.
  intros H. apply events_of_eq. rewrite H. cbn [snd]. by rewrite app_nil_r.
Qed.

Ltac trace_of H :=
  apply events_of_eq; rewrite H;
  cbn [snd trace emit listed stored written db disk];
  rewrite <- ?app_assoc; reflexivity.

Lemma createInvoice_events (prev : State) (fd : FormData) (env : Env) (w : World) :
  events_of (createInvoice prev fd) env w
  = match CreateInvoice_safeParse (emailRegex_test env) (invoice_input fd) with
    | SafeParseError _ => []
    | SafeParseSuccess data =>
      mutation_events env w (insert_invoice data (now env)) "/dashboard/invoices"
    end.
Proof.
  pose proof (createInvoice_run prev fd env w) as H. unfold mutation_events.
  destruct (CreateInvoice_safeParse _ _) as [data|issues].
  - cbv zeta in H. destruct (sql_rejects env _ (db w)); trace_of H.
  - by apply events_of_unchanged in H.
Qed.

Lemma updateInvoice_events (id : jsstring) (prev : State) (fd : FormData)
    (env : Env) (w : World) :
  events_of (updateInvoice id prev fd) env w
  = match UpdateInvoice_safeParse (emailRegex_test env) (invoice_input fd) with
    | SafeParseError _ => []
    | SafeParseSuccess data =>
      mutation_events env w (update_invoice id data) "/dashboard/invoices"
    end.
Proof.
  pose proof (updateInvoice_run id prev fd env w) as H. unfold mutation_events.
  destruct (UpdateInvoice_safeParse _ _) as [data|issues].
  - cbv zeta in H. destruct (sql_rejects env _ (db w)); trace_of H.
  - by apply events_of_unchanged in H.
Qed.

Lemma createCustomer_events (prev : State) (fd : FormData) (env : Env) (w : World) :
  events_of (createCustomer prev fd) env w
  = match CreateCustomer_safeParse (emailRegex_test env)
            (create_customer_input fd) with
    | Normal (SafeParseSuccess data) =>
      mutation_events env w (insert_customer data) "/dashboard/customers"
    | _ => []
    end.
Proof.
  pose proof (createCustomer_run prev fd env w) as H. unfold mutation_events.
  destruct (CreateCustomer_safeParse _ _) as [[data|issues]|e].
  - cbv zeta in H. destruct (sql_rejects env _ (db w)); trace_of H.
  - by apply events_of_unchanged in H.
  - by apply events_of_unchanged in H.
Qed.

Lemma deleteInvoice_events (id : jsstring) (env : Env) (w : World) :
  events_of (deleteInvoice id) env w
  = delete_events env w (DELETE_FROM "invoices" (SqlText id)) "/dashboard/invoices".
Proof.
  pose proof (deleteInvoice_run id env w) as H. unfold delete_events.
  cbv zeta in H. destruct (sql_rejects env _ (db w)); trace_of H.
Qed.

Lemma deleteCustomer_events (id : jsstring) (env : Env) (w : World) :
  events_of (deleteCustomer id) env w
  = delete_events env w (DELETE_FROM "customers" (SqlText id)) "/dashboard/customers".
Proof.
  pose proof (deleteCustomer_run id env w) as H. unfold delete_events.
  cbv zeta in H. destruct (sql_rejects env _ (db w)); trace_of H.
Qed.

Lemma updateCustomer_events (id : jsstring) (prev : State) (fd : FormData)
    (env : Env) (w : World) :
  events_of (updateCustomer id prev fd) env w
  = match UpdateCustomer_safeParse (emailRegex_test env)
            (update_customer_input fd) with
    | Normal (SafeParseSuccess data) =>
      if negb (truthy (formData_get fd "image_upload")) then []
      else match image_upload data with
           | VFile f => upload_events id env w data f
           | _ => []
           end
    | _ => []
    end.
Proof.
  pose proof (updateCustomer_run id prev fd env w) as H. unfold upload_events.
  destruct (UpdateCustomer_safeParse _ _) as [[data|issues]|e];
    [|by apply events_of_unchanged in H ..].
  destruct (negb (truthy _)); [by apply events_of_unchanged in H|].
  destruct (image_upload data) as [| | s | f | fs];
    try (by apply events_of_unchanged in H).
  cbv zeta in H.
  destruct (writeFile_rejects env _ _); [trace_of H|].
  change (db (written env f w)) with (db w) in H.
  destruct (sql_rejects env _ (db w)); trace_of H.
Qed.

End Events.

(** ** Invoice submissions *)
Section Invoices.

(** An amount that is not a number, or not above zero, fails the object
    with exactly one message under [amount]. *)
Lemma invoice_amount_invalid (t : jsstring -> bool) (input : InvoiceInput) :
  is_nan (Number (in_amount input)) = true
  \/ (Number (in_amount input) <=? 0)%float = true ->
  exists issues,
    handleResult (invoice_object_parse t input) = SafeParseError issues
    /\ messages_at "amount" issues
       = [if is_nan (Number (in_amount input)) then msg_not_a_number
          else msg_amount].
Proof.
  intros Hbad. unfold invoice_object_parse.
  pose proof (at_path_string t FormSchema.customerId (in_customerId input)
                ["customerId"%string]) as P1.
  pose proof (at_path_enum FormSchema.status (in_status input)
                ["status"%string]) as P3.
  destruct (ZodString_parse t _ _ _) as [r1 i1].
  destruct (ZodEnum_parse _ _ _) as [r3 i3].
  rewrite amount_parse. cbn [snd] in P1, P3.
  exists (i1 ++ (if is_nan (Number (in_amount input))
                 then [{| issue_path := ["amount"%string];
                          issue_message := msg_not_a_number |}]
                 else [{| issue_path := ["amount"%string];
                          issue_message := msg_amount |}]) ++ i3).
  split.
  - destruct (is_nan (Number (in_amount input))).
    + destruct r1 as [|[|] ?], r3 as [|[|] ?]; reflexivity.
    + destruct Hbad as [Hn | ->]; [done|].
      destruct r1 as [|[|] ?], r3 as [|[|] ?]; reflexivity.
  - rewrite !messages_at_app, (messages_at_path _ _ _ P1),
      (messages_at_path _ _ _ P3).
    change ("customerId" =? "amount")%string with false.
    change ("status" =? "amount")%string with false.
    cbn [app]. rewrite app_nil_r.
    destruct (is_nan (Number (in_amount input))); reflexivity.
Qed.

(** What validation yields when it succeeds: the three fields as
    submitted, the amount coerced. *)
Lemma invoice_parse_success (t : jsstring -> bool) (input : InvoiceInput)
    (data : InvoiceData) :
  handleResult (invoice_object_parse t input) = SafeParseSuccess data ->
  in_customerId input = VString (customerId data)
  /\ amount data = Number (in_amount input)
  /\ is_nan (Number (in_amount input)) = false
  /\ (Number (in_amount input) <=? 0)%float = false
  /\ in_status input = VString (status data)
  /\ existsb (jsstring_eqb (status data)) [js "pending"; js "paid"] = true.
Proof.
  intros H%handleResult_success. unfold invoice_object_parse in H.
  destruct (ZodString_parse t _ _ _) as [r1 i1] eqn:E1.
  destruct (ZodNumber_parse _ _ _) as [r2 i2] eqn:E2.
  destruct (ZodEnum_parse _ _ _) as [r3 i3] eqn:E3.
  cbn [fst] in H.
  apply merge_field_valid in H as ([c a] & s & H12 & -> & ->).
  apply merge_field_valid in H12 as (c' & a' & H1 & -> & [= -> ->]).
  apply merge_field_valid in H1 as ([] & c'' & _ & -> & ->).
  cbn [customerId amount status fst snd].
  apply (f_equal fst) in E1, E2, E3. cbn [fst] in E1, E2, E3.
  apply string_parse_valid in E1. apply amount_parse_valid in E2 as (-> & ? & ?).
  apply enum_parse_valid in E3 as [? ?].
  repeat split; first [assumption | reflexivity].
Qed.

End Invoices.

(** C1 (as amended). For every invoice submission, to [createInvoice] or
    [updateInvoice], whose amount coerces to a number not above zero, the
    action returns a failure whose [fieldErrors.amount] is ["Please enter
    an amount greater than $0."]; when the amount is not numeric (it
    coerces to NaN) the failure carries ["Expected number, received nan"]
    under [amount] instead. In both cases the world is left as it was: no
    statement is sent to the store. *)
Theorem invoice_amount_rejected (id : jsstring) (prev : State) (fd : FormData)
    (env : Env) (w : World) :
  let n := Number (formData_get fd "amount") in
  (n <=? 0)%float = true \/ is_nan n = true ->
  let expected := if is_nan n then msg_not_a_number else msg_amount in
  (exists st,
     createInvoice prev fd env w = (Normal st, w)
     /\ (fe ← errors st; fe !! "amount"%string) = Some [expected]
     /\ message st = Some (js "Missing Fields. Failed to Create Invoice."))
  /\ (exists st,
        updateInvoice id prev fd env w = (Normal st, w)
        /\ (fe ← errors st; fe !! "amount"%string) = Some [expected]
        /\ message st = Some (js "Missing Fields. Failed to Update Invoice."))
  /\ events_of (createInvoice prev fd) env w = []
  /\ events_of (updateInvoice id prev fd) env w = [].
Proof.
  intros n Hbad expected.
  destruct (invoice_amount_invalid (emailRegex_test env) (invoice_input fd))
    as (issues & Hparse & Hmsg).
  { cbn [invoice_input in_amount]. fold n. tauto. }
  cbn [invoice_input in_amount] in Hmsg. fold n in Hmsg. fold expected in Hmsg.
  pose proof (createInvoice_run prev fd env w) as Hc.
  pose proof (updateInvoice_run id prev fd env w) as Hu.
  unfold CreateInvoice_safeParse in Hc. unfold UpdateInvoice_safeParse in Hu.
  rewrite Hparse in Hc, Hu.
  assert (Hfe : fieldErrors issues !! "amount"%string = Some [expected]).
  { rewrite fieldErrors_lookup, Hmsg. reflexivity. }
  repeat split.
  - eexists. split; [exact Hc|]. split; [exact Hfe | reflexivity].
  - eexists. split; [exact Hu|]. split; [exact Hfe | reflexivity].
  - by apply events_of_unchanged in Hc.
  - by apply events_of_unchanged in Hu.
Qed.

Lemma invoice_amount_rejected_witness :
  (Number (formData_get (invoice_form "0") "amount") <=? 0)%float = true
  /\ field_errors (createInvoice no_state (invoice_form "0") quiet_env empty_world)
       "amount" = Some [msg_amount]
  /\ events_of (createInvoice no_state (invoice_form "0")) quiet_env empty_world = [].
Proof.
  assert (H0 : (Number (formData_get (invoice_form "0") "amount") <=? 0)%float = true)
    by (by vm_compute).
  destruct (invoice_amount_rejected (js "7") no_state (invoice_form "0")
              quiet_env empty_world (or_introl H0))
    as ((st & Hrun & Hfe & _) & _ & Hev & _).
  split; [exact H0|]. split; [|exact Hev].
  unfold field_errors. rewrite Hrun. cbn [fst]. rewrite Hfe.
  by vm_compute.
Defined.

(** C1, as stated, fails on a non-numeric amount: the submission with
    amount "abc" is rejected, but the message under [amount] is zod's
    type error and not the amount-specific one. *)
Lemma non_numeric_amount_gets_type_error :
  is_nan (Number (formData_get (invoice_form "abc") "amount")) = true
  /\ field_errors (createInvoice no_state (invoice_form "abc") quiet_env empty_world)
       "amount" = Some [js "Expected number, received nan"]
  /\ field_errors (createInvoice no_state (invoice_form "abc") quiet_env empty_world)
       "amount" <> Some [js "Please enter an amount greater than $0."].
Proof.
  split; [by vm_compute|].
  assert (H : field_errors
                (createInvoice no_state (invoice_form "abc") quiet_env empty_world)
                "amount" = Some [js "Expected number, received nan"])
    by (by vm_compute).
  split; [exact H|]. rewrite H. by vm_compute.
Qed.

(** ** Customer submissions *)
Section Customers.

Variable t : jsstring -> bool.

(** The parse of a customer object throws unless the upload is a file. *)
Lemma customer_object_parse_throws (input : CustomerInput) :
  FormSchemaCustomer.instanceof_File (in_image_upload input) = false ->
  customer_object_parse t input = Throw ReferenceError.
Proof.
  intros Hf. unfold customer_object_parse.
  destruct (ZodString_parse t FormSchemaCustomer.name _ _) as [r1 i1].
  destruct (ZodString_parse t FormSchemaCustomer.email _ _) as [r2 i2].
  destruct (ZodString_parse t FormSchemaCustomer.image_url _ _) as [r3 i3].
  rewrite image_upload_parse.
  destruct (in_image_upload input); try reflexivity. discriminate.
Qed.

(** With a file it returns, and its issues are those of the four
    fields. *)
Lemma customer_object_parse_file (input : CustomerInput) (f : File) :
  in_image_upload input = VFile f ->
  exists r, customer_object_parse t input
            = Normal (r, customer_field_issues t input).
Proof.
  intros Hf. unfold customer_object_parse, customer_field_issues.
  destruct (ZodString_parse t FormSchemaCustomer.name _ _) as [r1 i1].
  destruct (ZodString_parse t FormSchemaCustomer.email _ _) as [r2 i2].
  destruct (ZodString_parse t FormSchemaCustomer.image_url _ _) as [r3 i3].
  rewrite image_upload_parse, Hf. cbv zeta. cbn [snd]. eauto.
Qed.

Lemma upload_issues_at (k : string) (added : list IssueData) :
  messages_at k
    (map (fun i => {| issue_path := ["image_upload"%string];
                      issue_message := custom_message i |}) added)
  = if String.eqb "image_upload" k then map custom_message added else [].
Proof.
  rewrite (messages_at_path k "image_upload").
  - by rewrite map_map.
  - unfold at_path. apply Forall_map. by apply Forall_true.
Qed.

Lemma customer_messages_at_upload (input : CustomerInput) (f : File) :
  in_image_upload input = VFile f ->
  messages_at "image_upload" (customer_field_issues t input)
  = image_upload_messages_spec (VFile f).
Proof.
  intros Hf. unfold customer_field_issues. rewrite !messages_at_app.
  rewrite !(messages_at_path _ _ _ (at_path_string t _ _ _)), upload_issues_at.
  change ("name" =? "image_upload")%string with false.
  change ("email" =? "image_upload")%string with false.
  change ("image_url" =? "image_upload")%string with false.
  change ("image_upload" =? "image_upload")%string with true.
  cbn [app]. rewrite Hf. apply check_file_spec.
Qed.

Lemma customer_messages_at_name (input : CustomerInput) :
  messages_at "name" (customer_field_issues t input)
  = match in_name input with
    | VString _ => []
    | VUndefined => [msg_name_required]
    | _ => [msg_name_invalid]
    end.
Proof.
  unfold customer_field_issues. rewrite !messages_at_app.
  rewrite !(messages_at_path _ _ _ (at_path_string t _ _ _)), upload_issues_at.
  change ("name" =? "name")%string with true.
  change ("email" =? "name")%string with false.
  change ("image_url" =? "name")%string with false.
  change ("image_upload" =? "name")%string with false.
  rewrite !app_nil_r, name_parse.
  destruct (in_name input); reflexivity.
Qed.

Lemma customer_parse_success (input : CustomerInput) (data : CustomerData) :
  safeParse (customer_object_parse t input) = Normal (SafeParseSuccess data) ->
  in_name input = VString (name data)
  /\ in_email input = VString (email data)
  /\ in_image_url input = VString (image_url data)
  /\ exists f, in_image_upload input = VFile f
               /\ image_upload data = VFile f
               /\ image_upload_messages_spec (VFile f) = [].
Proof.
  intros H. apply safeParse_success in H as (r & E & H).
  unfold customer_object_parse in E.
  destruct (ZodString_parse t FormSchemaCustomer.name _ _) as [r1 i1] eqn:E1.
  destruct (ZodString_parse t FormSchemaCustomer.email _ _) as [r2 i2] eqn:E2.
  destruct (ZodString_parse t FormSchemaCustomer.image_url _ _) as [r3 i3] eqn:E3.
  destruct (FormSchemaCustomer.image_upload _ _) as [[r4 i4]|e] eqn:E4;
    [|discriminate].
  injection E as <-. cbn [fst] in H.
  apply merge_field_valid in H as ([[n e] u] & f & H123 & -> & ->).
  apply merge_field_valid in H123 as ([n' e'] & u' & H12 & -> & [= -> -> ->]).
  apply merge_field_valid in H12 as (n'' & e'' & H1 & -> & [= -> ->]).
  destruct r1 as [|d1 b1]; [discriminate|]. injection H1 as -> ->.
  cbn [name email image_url image_upload fst snd].
  apply (f_equal fst) in E1, E2, E3. cbn [fst] in E1, E2, E3.
  apply string_parse_valid in E1, E2, E3.
  apply image_upload_valid in E4 as (f0 & Hv & -> & Hnil).
  repeat split; try assumption. exists f0. rewrite Hv in Hnil. auto.
Qed.

(** A failed validation reports the issues of the object. *)
Lemma customer_parse_error (input : CustomerInput) (issues : list ZodIssue) :
  safeParse (customer_object_parse t input) = Normal (SafeParseError issues) ->
  issues = customer_field_issues t input
  /\ exists f, in_image_upload input = VFile f.
Proof.
  intros H.
  destruct (in_image_upload input) as [| | s | f | fs] eqn:Hv;
    try (rewrite customer_object_parse_throws in H by (by rewrite Hv);
         discriminate).
  destruct (customer_object_parse_file input f Hv) as (r & E).
  apply safeParse_error in H as (r' & E' & H). rewrite E in E'.
  injection E' as <-. cbn [snd] in H. split; [by symmetry|by exists f].
Qed.

(** Without a file the object never validates, nor fails to: the parse
    throws. This is every submission to [createCustomer], which passes
    no [image_upload]. *)
Lemma customer_without_upload_throws (input : CustomerInput) :
  FormSchemaCustomer.instanceof_File (in_image_upload input) = false ->
  safeParse (customer_object_parse t input) = Throw ReferenceError.
Proof. intros Hf. by rewrite customer_object_parse_throws. Qed.

End Customers.

(** [createCustomer] hands the schema an object without [image_upload]:
    the transform of that field throws on [undefined], and so does every
    call, before anything is returned or sent. *)
Lemma createCustomer_always_throws (prev : StateCustomer) (fd : FormData)
    (env : Env) (w : World) :
  createCustomer prev fd env w = (Throw ReferenceError, w).
Proof.
  rewrite createCustomer_run. unfold CreateCustomer_safeParse.
  by rewrite customer_without_upload_throws.
Qed.

(** [updateCustomer] throws the same way when the form holds no file
    under [image_upload]. *)
Lemma updateCustomer_without_file_throws (id : jsstring) (prev : StateCustomer)
    (fd : FormData) (env : Env) (w : World) :
  FormSchemaCustomer.instanceof_File (formData_get fd "image_upload") = false ->
  updateCustomer id prev fd env w = (Throw ReferenceError, w).
Proof.
  intros Hf. rewrite updateCustomer_run. unfold UpdateCustomer_safeParse.
  by rewrite customer_without_upload_throws.
Qed.

(** C6. Validation of [image_upload] is the rule of the specification
    for a file: "Max file size allowed is 5MB" when it is larger than
    5*1024*1024 bytes and "File must be an image (jpeg, jpg, png, webp)"
    when its type is outside the four image types, both when both apply,
    and the parse is then dirty, not aborted; in [updateCustomer] these
    messages are what the returned state holds under [image_upload]. For
    a value that is not a file the issue "Not a file" is never added: the
    transform throws a [ReferenceError] before the refinement runs, and
    [updateCustomer] completes by throwing it, with the world as it
    was. *)
Theorem image_upload_validation (v : JsValue) :
  FormSchemaCustomer.image_upload v ["image_upload"%string]
  = match v with
    | VFile _ =>
      Normal
        (PARSED (negb (bool_decide (image_upload_messages_spec v = []))) v,
         map (fun m => {| issue_path := ["image_upload"%string];
                          issue_message := m |})
           (image_upload_messages_spec v))
    | _ => Throw ReferenceError
    end
  /\ forall id prev fd env w,
       formData_get fd "image_upload" = v ->
       match v with
       | VFile _ =>
         field_errors (updateCustomer id prev fd env w) "image_upload"
         = match image_upload_messages_spec v with
           | [] => None
           | ms => Some ms
           end
       | _ => updateCustomer id prev fd env w = (Throw ReferenceError, w)
       end.
Proof.
  split.
  - rewrite image_upload_parse.
    destruct v as [| | s | f | fs]; try reflexivity. cbv zeta.
    destruct (check_file_spec f) as [Hm _]. rewrite <- Hm, map_map.
    destruct (FormSchemaCustomer.check_file (VFile f)) as [|a l]; reflexivity.
  - intros id prev fd env w Hv.
    destruct v as [| | s | f | fs];
      try (apply updateCustomer_without_file_throws; by rewrite Hv).
    unfold field_errors. rewrite updateCustomer_run.
    unfold UpdateCustomer_safeParse.
    destruct (safeParse _) as [[data|issues]|e] eqn:E.
    + apply customer_parse_success in E as (_ & _ & _ & f0 & Hf0 & -> & Hnil).
      cbn [update_customer_input in_image_upload] in Hf0.
      assert (f0 = f) as -> by congruence.
      rewrite Hnil, Hv. cbn [truthy negb]. cbv zeta.
      destruct (writeFile_rejects env _ _); [reflexivity|].
      destruct (sql_rejects env _ _); reflexivity.
    + apply customer_parse_error in E as [-> _].
      cbn [fst rejected errors]. cbn [mbind option_bind].
      rewrite fieldErrors_lookup.
      by rewrite (customer_messages_at_upload _ _ f).
    + destruct (customer_object_parse_file (emailRegex_test env)
                  (update_customer_input fd) f Hv) as (r & Er).
      rewrite Er in E. discriminate.
Qed.

Lemma image_upload_validation_witness :
  field_errors (updateCustomer (js "7") no_state big_gif_form quiet_env empty_world)
    "image_upload"
  = Some [js "Max file size allowed is 5MB";
          js "File must be an image (jpeg, jpg, png, webp)"]
  /\ formData_get fileless_form "image_upload" = VNull
  /\ image_upload_messages_spec VNull = [js "Not a file"]
  /\ updateCustomer (js "7") no_state fileless_form quiet_env empty_world
     = (Throw ReferenceError, empty_world).
Proof.
  split; [|split; [reflexivity|split; [reflexivity|]]].
  - destruct (image_upload_validation (VFile big_gif)) as (_ & H).
    rewrite (H (js "7") no_state big_gif_form quiet_env empty_world eq_refl).
    by vm_compute.
  - destruct (image_upload_validation VNull) as (_ & H).
    exact (H (js "7") no_state fileless_form quiet_env empty_world eq_refl).
Defined.

(** C8 (as amended). A name that is not a string fails customer
    validation on the [name] field: with "Ingrese el nombre del cliente"
    when the value is undefined, with "Caracteres no válidos" for any
    other value that is not a string; this is what the returned state of
    [updateCustomer] holds under [name] when the form holds a file to
    upload. *)
Theorem name_requires_a_string (v : JsValue) :
  (forall s, v <> VString s) ->
  let expected := if is_undefined v then js "Ingrese el nombre del cliente"
                  else js "Caracteres no válidos" in
  (forall t, ZodString_parse t FormSchemaCustomer.name v ["name"%string]
             = (INVALID, [{| issue_path := ["name"%string];
                             issue_message := expected |}]))
  /\ forall id prev fd env w f,
       formData_get fd "name" = v ->
       formData_get fd "image_upload" = VFile f ->
       field_errors (updateCustomer id prev fd env w) "name" = Some [expected].
Proof.
  intros Hns expected. split.
  - intros t. rewrite name_parse. subst expected.
    destruct v; cbn [is_undefined]; try reflexivity. by destruct (Hns s).
  - intros id prev fd env w f Hv Hf.
    unfold field_errors. rewrite updateCustomer_run.
    unfold UpdateCustomer_safeParse.
    destruct (safeParse _) as [[data|issues]|e] eqn:E.
    + apply customer_parse_success in E as (Hname & _).
      cbn [update_customer_input in_name] in Hname. rewrite Hv in Hname.
      by destruct (Hns (name data)).
    + apply customer_parse_error in E as [-> _].
      cbn [fst rejected errors]. cbn [mbind option_bind].
      rewrite fieldErrors_lookup, customer_messages_at_name.
      cbn [update_customer_input in_name]. rewrite Hv. subst expected.
      destruct v; cbn [is_undefined]; try reflexivity. by destruct (Hns s).
    + destruct (customer_object_parse_file (emailRegex_test env)
                  (update_customer_input fd) f Hf) as (r & Er).
      rewrite Er in E. discriminate.
Qed.

Lemma name_requires_a_string_witness :
  field_errors (updateCustomer (js "7") no_state (customer_form (EntryFile photo))
                  quiet_env empty_world) "name"
  = Some [js "Caracteres no válidos"].
Proof.
  assert (Hns : forall s, VFile photo <> VString s) by (intros s; discriminate).
  pose proof (name_requires_a_string (VFile photo) Hns) as H.
  cbv zeta in H. cbn [is_undefined] in H. destruct H as [_ H].
  exact (H (js "7") no_state (customer_form (EntryFile photo)) quiet_env
           empty_world photo eq_refl eq_refl).
Defined.

(** C8, as stated, fails: a submission without a name is rejected with
    "Caracteres no válidos" on [name], not with "Ingrese el nombre del
    cliente", and a submission whose name is the empty string passes
    validation and is stored. *)
Lemma missing_or_empty_name_not_asked_for :
  formData_get nameless_form "name" = VNull
  /\ field_errors (updateCustomer (js "7") no_state nameless_form
                     quiet_env empty_world) "name"
     = Some [js "Caracteres no válidos"]
  /\ field_errors (updateCustomer (js "7") no_state nameless_form
                     quiet_env empty_world) "name"
     <> Some [js "Ingrese el nombre del cliente"]
  /\ field_errors (updateCustomer (js "7") no_state (customer_form (EntryString []))
                     quiet_env empty_world) "name" = None
  /\ fst (updateCustomer (js "7") no_state (customer_form (EntryString []))
            quiet_env empty_world)
     = Throw (NEXT_REDIRECT "/dashboard/customers").
Proof.
  split; [reflexivity|].
  assert (H : field_errors
                (updateCustomer (js "7") no_state nameless_form
                   quiet_env empty_world) "name"
              = Some [js "Caracteres no válidos"]) by (by vm_compute).
  split; [exact H|]. split; [rewrite H; by vm_compute|].
  split; by vm_compute.
Qed.

(** C10. [updateCustomer] returns the message "Missing Fields. Failed to
    Update Invoice." whenever validation fails, with the field errors of
    the issues, and leaves the world as it was. [createCustomer] never
    returns its message "Missing Fields. Failed to Create Invoice.": every
    call throws a [ReferenceError] from the parse, whatever the
    submission. *)
Theorem customer_validation_failure_messages (id : jsstring)
    (prev : StateCustomer) (fd : FormData) (env : Env) (w : World) :
  createCustomer prev fd env w = (Throw ReferenceError, w)
  /\ (forall issues,
        UpdateCustomer_safeParse (emailRegex_test env) (update_customer_input fd)
        = Normal (SafeParseError issues) ->
        updateCustomer id prev fd env w
        = (Normal {| errors := Some (fieldErrors issues);
                     message := Some (js "Missing Fields. Failed to Update Invoice.") |},
           w)).
Proof.
  split.
  - apply createCustomer_always_throws.
  - intros issues E. rewrite updateCustomer_run, E. reflexivity.
Qed.

Lemma customer_validation_failure_messages_witness :
  createCustomer no_state (customer_form (EntryString (js "Ann"))) quiet_env
    empty_world
  = (Throw ReferenceError, empty_world)
  /\ returned_message
       (updateCustomer (js "7") no_state big_gif_form quiet_env empty_world)
     = Some (js "Missing Fields. Failed to Update Invoice.").
Proof.
  destruct (customer_validation_failure_messages (js "7") no_state
              (customer_form (EntryString (js "Ann"))) quiet_env empty_world)
    as [Hc _].
  destruct (customer_validation_failure_messages (js "7") no_state big_gif_form
              quiet_env empty_world) as [_ Hu].
  split; [exact Hc|].
  destruct (UpdateCustomer_safeParse (emailRegex_test quiet_env)
              (update_customer_input big_gif_form)) as [[d|issues]|e] eqn:Eu;
    [by vm_compute in Eu | | by vm_compute in Eu].
  unfold returned_message. rewrite (Hu issues eq_refl). reflexivity.
Defined.

(** ** The six operations *)
Section Operations.

(** Wrapping the returned state keeps completion and world. *)
Lemma run_wrapped {A B : Type} (m : Eff A) (f : A -> B) (env : Env) (w : World) :
  (x ← m; ret (f x)) env w
  = (match fst (m env w) with
     | Normal a => Normal (f a)
     | Throw e => Throw e
     end, snd (m env w)).
Proof.
  cbv [mbind Eff_bind bind ret]. destruct (m env w) as [[a|e] w']; reflexivity.
Qed.

Lemma run_discarded {A B : Type} (m : Eff A) (b : B) (env : Env) (w : World) :
  (m;; ret b) env w
  = (match fst (m env w) with
     | Normal _ => Normal b
     | Throw e => Throw e
     end, snd (m env w)).
Proof.
  cbv [mbind Eff_bind bind ret]. destruct (m env w) as [[a|e] w']; reflexivity.
Qed.

Lemma run_underlying (a : Action) (env : Env) (w : World) :
  run a env w = underlying a env w.
Proof.
  destruct a; unfold run, underlying;
    first [apply run_wrapped | apply run_discarded].
Qed.

Lemma run_events (a : Action) (env : Env) (w : World) :
  events_of (run a) env w
  = match a with
    | CreateInvoice p fd => events_of (createInvoice p fd) env w
    | UpdateInvoice id p fd => events_of (updateInvoice id p fd) env w
    | DeleteInvoice id => events_of (deleteInvoice id) env w
    | CreateCustomer p fd => events_of (createCustomer p fd) env w
    | UpdateCustomer id p fd => events_of (updateCustomer id p fd) env w
    | DeleteCustomer id => events_of (deleteCustomer id) env w
    end.
Proof.
  unfold events_of. rewrite run_underlying. destruct a; reflexivity.
Qed.

Lemma store_failure_messages :
  (forall p fd, store_failure_message (CreateInvoice p fd)
                = js "Database Error: Failed to Create Invoice.")
  /\ (forall id p fd, store_failure_message (UpdateInvoice id p fd)
                      = js "Database Error: Failed to Update Invoice.")
  /\ (forall p fd, store_failure_message (CreateCustomer p fd)
                   = js "Database Error: Failed to Create Customer.")
  /\ (forall id p fd, store_failure_message (UpdateCustomer id p fd)
                      = js "Database Error: Failed to Update Customer.").
Proof. repeat split; intros; by vm_compute. Qed.

Lemma quiet_nil : quiet [].
Proof. constructor. Qed.

Lemma quiet_existsb (p : Event -> bool) (evs : list Event) :
  (forall e, p e = true ->
             is_sql e = true \/ is_revalidate e = true \/ is_redirect e = true) ->
  quiet evs -> existsb p evs = false.
Proof.
  intros Hp. induction 1 as [|e evs (Hs & Hr & Hd) _ IH]; [reflexivity|].
  cbn [existsb]. rewrite IH, orb_false_r.
  destruct (p e) eqn:E; [|reflexivity].
  destruct (Hp e E) as [?|[?|?]]; congruence.
Qed.

Lemma quiet_only_after_mutation (b : bool) (pre rest : list Event) :
  quiet pre ->
  only_after_mutation b (pre ++ rest) = only_after_mutation b rest.
Proof.
  induction 1 as [|e evs (Hs & Hr & Hd) _ IH]; [reflexivity|].
  cbn [app]. destruct e; cbn in Hs, Hr, Hd; try discriminate;
    cbn [only_after_mutation]; exact IH.
Qed.

Lemma quiet_log (args : list jsstring) (evs : list Event) :
  quiet evs -> quiet (EvConsoleLog args :: evs).
Proof. intros H. constructor; [by repeat split | exact H]. Qed.

Lemma quiet_write (file : jsstring) (data : list N) (ok : bool)
    (evs : list Event) :
  quiet evs -> quiet (EvWriteFile file data ok :: evs).
Proof. intros H. constructor; [by repeat split | exact H]. Qed.

(** Every run ends in one of the outcomes. *)
Lemma run_outcome (a : Action) (env : Env) (w : World) :
  Outcome a env (fst (run a env w)) (events_of (run a) env w).
Proof.
  destruct store_failure_messages as (M1 & M2 & M3 & M4).
  rewrite run_events, run_underlying.
  destruct a as [p fd | id p fd | id | p fd | id p fd | id];
    unfold underlying; cbn [fst].
  - rewrite createInvoice_events, createInvoice_run.
    destruct (CreateInvoice_safeParse _ _) as [data|issues] eqn:E.
    + cbv zeta. unfold mutation_events.
      destruct (sql_rejects env _ (db w)); cbn [fst].
      * rewrite <- M1 with (p := p) (fd := fd).
        apply (out_store_failed _ _ _ [] []);
          [by cbn [fails_validation]; rewrite E | done | apply quiet_nil ..| done].
      * apply (out_stored (CreateInvoice p fd) env _ []);
          [by cbn [fails_validation]; rewrite E | done | apply quiet_nil | done].
    + apply out_rejected. by cbn [fails_validation]; rewrite E.
  - rewrite updateInvoice_events, updateInvoice_run.
    destruct (UpdateInvoice_safeParse _ _) as [data|issues] eqn:E.
    + cbv zeta. unfold mutation_events.
      destruct (sql_rejects env _ (db w)); cbn [fst].
      * rewrite <- M2 with (id := id) (p := p) (fd := fd).
        apply (out_store_failed _ _ _ [] []);
          [by cbn [fails_validation]; rewrite E | done | apply quiet_nil ..| done].
      * apply (out_stored (UpdateInvoice id p fd) env _ []);
          [by cbn [fails_validation]; rewrite E | done | apply quiet_nil | done].
    + apply out_rejected. by cbn [fails_validation]; rewrite E.
  - rewrite deleteInvoice_events, deleteInvoice_run. cbv zeta.
    unfold delete_events.
    destruct (sql_rejects env _ (db w)); cbn [fst].
    + by apply (out_delete_failed (DeleteInvoice id)).
    + by apply (out_deleted (DeleteInvoice id)).
  - rewrite createCustomer_events, createCustomer_run.
    destruct (CreateCustomer_safeParse _ _) as [[data|issues]|e] eqn:E.
    + cbv zeta. unfold mutation_events.
      destruct (sql_rejects env _ (db w)); cbn [fst].
      * rewrite <- M3 with (p := p) (fd := fd).
        apply (out_store_failed _ _ _ [] []);
          [by cbn [fails_validation]; rewrite E | done | apply quiet_nil ..| done].
      * apply (out_stored (CreateCustomer p fd) env _ []);
          [by cbn [fails_validation]; rewrite E | done | apply quiet_nil | done].
    + apply out_rejected. by cbn [fails_validation]; rewrite E.
    + unfold CreateCustomer_safeParse in E.
      rewrite customer_without_upload_throws in E by reflexivity.
      injection E as <-. apply out_parse_threw; [|done].
      cbn [fails_validation]. unfold CreateCustomer_safeParse.
      by rewrite customer_without_upload_throws.
  - rewrite updateCustomer_events, updateCustomer_run.
    destruct (UpdateCustomer_safeParse _ _) as [[data|issues]|e] eqn:E;
      [ | apply out_rejected; by cbn [fails_validation]; rewrite E | ].
    + assert (Hv : fails_validation (UpdateCustomer id p fd) env = false)
        by (by cbn [fails_validation]; rewrite E).
      destruct (negb (truthy _)); [by apply out_no_file|].
      destruct (image_upload data) as [| | s | f | fs];
        try (by apply out_type_error).
      cbv zeta. unfold upload_events.
      destruct (writeFile_rejects env _ _); cbn [fst].
      * apply out_write_failed; [done | done | | reflexivity].
        apply quiet_log, quiet_write, quiet_log, quiet_nil.
      * change (db (written env f w)) with (db w).
        destruct (sql_rejects env _ (db w)); cbn [fst].
        -- rewrite <- M4 with (id := id) (p := p) (fd := fd).
           apply (out_store_failed _ _ _
                    [EvConsoleLog [upload_name env f];
                     EvWriteFile (upload_target env f) (file_bytes f) true;
                     EvConsoleLog [js "archivo subido correctamente";
                                   upload_name env f]]
                    [EvConsoleLog [js "Error occured "; upload_name env f]]);
             [done | done | | | reflexivity].
           ++ apply quiet_log, quiet_write, quiet_log, quiet_nil.
           ++ apply quiet_log, quiet_nil.
        -- apply (out_stored (UpdateCustomer id p fd) env _
                    [EvConsoleLog [upload_name env f];
                     EvWriteFile (upload_target env f) (file_bytes f) true;
                     EvConsoleLog [js "archivo subido correctamente";
                                   upload_name env f]]);
             [done | done | | reflexivity].
           apply quiet_log, quiet_write, quiet_log, quiet_nil.
    + assert (Hv : fails_validation (UpdateCustomer id p fd) env = true)
        by (by cbn [fails_validation]; rewrite E).
      unfold UpdateCustomer_safeParse in E.
      destruct (FormSchemaCustomer.instanceof_File
                  (in_image_upload (update_customer_input fd))) eqn:Hf.
      * destruct (in_image_upload (update_customer_input fd)) as [| | | f |] eqn:Hu;
          try discriminate.
        destruct (customer_object_parse_file (emailRegex_test env)
                    (update_customer_input fd) f Hu) as (r & Er).
        rewrite Er in E. discriminate.
      * rewrite customer_without_upload_throws in E by exact Hf.
        injection E as <-. by apply out_parse_threw.
  - rewrite deleteCustomer_events, deleteCustomer_run. cbv zeta.
    unfold delete_events.
    destruct (sql_rejects env _ (db w)); cbn [fst].
    + by apply (out_delete_failed (DeleteCustomer id)).
    + by apply (out_deleted (DeleteCustomer id)).
Qed.

End Operations.

(** C3 (as amended). For the four create and update operations a failure
    thrown by the store is caught: no store error reaches the caller, and
    when the statement failed the action returns the generic message
    "Database Error: Failed to <Operation> <Entity>.". The two delete
    operations do not catch: there a failure of the store reaches the
    caller as it was thrown. *)
Theorem store_failure_is_reported (a : Action) (env : Env) (w : World) :
  (is_delete a = false -> fst (run a env w) <> Throw StoreError)
  /\ (existsb is_failed_sql (events_of (run a) env w) = true ->
      fst (run a env w)
      = if is_delete a then Throw StoreError
        else Normal (Some {| errors := None;
                             message := Some (store_failure_message a) |})).
Proof.
  assert (Hq : forall evs, quiet evs -> existsb is_failed_sql evs = false).
  { intros evs. apply quiet_existsb. intros [stmt [|]| | | |]; cbn; auto;
      discriminate. }
  pose proof (run_outcome a env w) as H.
  destruct H as [issues msg Hv | Hv Hd | Hv Hd | pre Hv Hd Hq1 Hw
                | stmt pre post Hv Hd Hq1 Hq2 Hw | stmt pre Hv Hd Hq1 Hw
                | Hd | Hd | Hv Hd];
    (split; [intros Hd'; congruence | intros Hf]);
    try rewrite Hd; try reflexivity; exfalso.
  - discriminate.
  - discriminate.
  - discriminate.
  - rewrite (Hq _ Hq1) in Hf. discriminate.
  - rewrite existsb_app, (Hq _ Hq1) in Hf. discriminate.
  - discriminate.
  - discriminate.
Qed.

Lemma store_failure_is_reported_witness :
  fst (run (CreateInvoice no_state (invoice_form "10.50")) store_down_env empty_world)
  = Normal (Some {| errors := None;
                    message := Some (js "Database Error: Failed to Create Invoice.") |})
  /\ fst (run (UpdateCustomer (js "7") no_state (customer_form (EntryString (js "Ann"))))
            store_down_env empty_world)
     = Normal (Some {| errors := None;
                       message := Some (js "Database Error: Failed to Update Customer.") |}).
Proof.
  destruct store_failure_messages as (M1 & _ & _ & M4).
  split.
  - destruct (store_failure_is_reported
                (CreateInvoice no_state (invoice_form "10.50"))
                store_down_env empty_world) as [_ H].
    rewrite <- (M1 no_state (invoice_form "10.50")). apply H. by vm_compute.
  - destruct (store_failure_is_reported
                (UpdateCustomer (js "7") no_state
                   (customer_form (EntryString (js "Ann"))))
                store_down_env empty_world) as [_ H].
    rewrite <- (M4 (js "7") no_state (customer_form (EntryString (js "Ann")))).
    apply H. by vm_compute.
Defined.

(** C3, as stated, fails for the delete operations: with a store that
    throws, [deleteInvoice] and [deleteCustomer] complete by throwing the
    store's error, and no message is returned. *)
Lemma delete_lets_store_error_through :
  existsb is_failed_sql
    (events_of (run (DeleteInvoice (js "7"))) store_down_env empty_world) = true
  /\ fst (run (DeleteInvoice (js "7")) store_down_env empty_world)
     = Throw StoreError
  /\ fst (deleteInvoice (js "7") store_down_env empty_world) = Throw StoreError
  /\ fst (deleteCustomer (js "7") store_down_env empty_world) = Throw StoreError.
Proof. repeat split; by vm_compute. Qed.

(** C9. Invalidation and navigation happen only after a statement the
    store accepted: every such event of a run comes after one; a run
    whose submission fails validation has no event at all, and a run
    whose statement the store refused neither invalidates nor navigates.
    A delete never navigates, and when the store accepts its statement it
    invalidates the listing of its entity. *)
Theorem invalidation_only_after_mutation (a : Action) (env : Env) (w : World) :
  let evs := events_of (run a) env w in
  only_after_mutation false evs = true
  /\ (fails_validation a env = true -> evs = [])
  /\ (existsb is_failed_sql evs = true ->
      existsb is_revalidate evs = false /\ existsb is_redirect evs = false)
  /\ (is_delete a = true ->
      existsb is_redirect evs = false
      /\ (existsb is_failed_sql evs = false ->
          evs = [EvSql (delete_statement a) true; EvRevalidatePath (listing a)])).
Proof.
  assert (Hqf : forall evs, quiet evs -> existsb is_failed_sql evs = false).
  { intros evs. apply quiet_existsb. intros [stmt [|]| | | |]; cbn; auto;
      discriminate. }
  assert (Hqr : forall evs, quiet evs -> existsb is_revalidate evs = false).
  { intros evs. apply quiet_existsb. intros []; cbn; auto; discriminate. }
  assert (Hqd : forall evs, quiet evs -> existsb is_redirect evs = false).
  { intros evs. apply quiet_existsb. intros []; cbn; auto; discriminate. }
  intros evs. subst evs. pose proof (run_outcome a env w) as H.
  destruct H as [issues msg Hv | Hv Hd | Hv Hd | pre Hv Hd Hq1 Hw
                | stmt pre post Hv Hd Hq1 Hq2 Hw | stmt pre Hv Hd Hq1 Hw
                | Hd | Hd | Hv Hd].
  - split; [reflexivity|]. split; [reflexivity|]. split; [discriminate|].
    intros Hd. destruct a; discriminate.
  - split; [reflexivity|]. split; [reflexivity|]. split; [discriminate|].
    congruence.
  - split; [reflexivity|]. split; [reflexivity|]. split; [discriminate|].
    congruence.
  - split; [|split; [congruence|split; [|congruence]]].
    + rewrite <- (app_nil_r pre). by rewrite quiet_only_after_mutation.
    + by rewrite (Hqr _ Hq1), (Hqd _ Hq1).
  - split; [|split; [congruence|split; [|congruence]]].
    + rewrite quiet_only_after_mutation by done. cbn [only_after_mutation orb].
      rewrite <- (app_nil_r post). by rewrite quiet_only_after_mutation.
    + intros _. rewrite !existsb_app. cbn [existsb is_revalidate is_redirect].
      by rewrite (Hqr _ Hq1), (Hqd _ Hq1), (Hqr _ Hq2), (Hqd _ Hq2).
  - split; [|split; [congruence|split; [|congruence]]].
    + by rewrite quiet_only_after_mutation.
    + rewrite existsb_app, (Hqf _ Hq1). discriminate.
  - split; [reflexivity|]. split; [by destruct a|]. split; [done|].
    intros _. split; [reflexivity|discriminate].
  - split; [reflexivity|]. split; [by destruct a|]. split; [discriminate|].
    intros _. split; [reflexivity|reflexivity].
  - split; [reflexivity|]. split; [reflexivity|]. split; [discriminate|].
    congruence.
Qed.

Lemma invalidation_only_after_mutation_witness :
  events_of (run (CreateInvoice no_state (invoice_form "0"))) quiet_env empty_world
  = []
  /\ existsb is_revalidate
       (events_of (run (UpdateInvoice (js "7") no_state (invoice_form "10.50")))
          store_down_env empty_world) = false
  /\ events_of (run (DeleteCustomer (js "7"))) quiet_env empty_world
     = [EvSql (DELETE_FROM "customers" (SqlText (js "7"))) true;
        EvRevalidatePath "/dashboard/customers"].
Proof.
  split; [|split].
  - destruct (invalidation_only_after_mutation
                (CreateInvoice no_state (invoice_form "0")) quiet_env empty_world)
      as (_ & H & _).
    apply H. by vm_compute.
  - destruct (invalidation_only_after_mutation
                (UpdateInvoice (js "7") no_state (invoice_form "10.50"))
                store_down_env empty_world) as (_ & _ & H & _).
    apply H. by vm_compute.
  - destruct (invalidation_only_after_mutation
                (DeleteCustomer (js "7")) quiet_env empty_world)
      as (_ & _ & _ & H).
    destruct (H eq_refl) as [_ H']. apply H'. by vm_compute.
Defined.

(** C2. In [updateCustomer] every statement sent to the store comes after
    a write of the uploaded file that succeeded; when the write fails the
    action returns the message "Error occured al grabar archivo.", sends
    no statement, and leaves the store as it was. *)
Theorem failed_upload_blocks_update (id : jsstring) (prev : StateCustomer)
    (fd : FormData) (env : Env) (w : World) :
  let evs := events_of (updateCustomer id prev fd) env w in
  only_after_write false evs = true
  /\ (existsb is_failed_write evs = true ->
      fst (updateCustomer id prev fd env w)
      = Normal {| errors := None;
                  message := Some (js "Error occured al grabar archivo.") |}
      /\ sql_statements evs = []
      /\ db (snd (updateCustomer id prev fd env w)) = db w).
Proof.
  intros evs. subst evs.
  rewrite updateCustomer_events, updateCustomer_run.
  destruct (UpdateCustomer_safeParse _ _) as [[data|issues]|e];
    [|split; [reflexivity|discriminate] ..].
  destruct (negb (truthy _)); [split; [reflexivity|discriminate]|].
  destruct (image_upload data) as [| | s | f | fs];
    try (split; [reflexivity|discriminate]).
  cbv zeta. unfold upload_events.
  destruct (writeFile_rejects env _ _).
  - split; [reflexivity|]. intros _. repeat split; reflexivity.
  - change (db (written env f w)) with (db w).
    destruct (sql_rejects env _ (db w)); (split; [reflexivity|discriminate]).
Qed.

Lemma failed_upload_blocks_update_witness :
  existsb is_failed_write
    (events_of (updateCustomer (js "7") no_state
                  (customer_form (EntryString (js "Ann"))))
       disk_full_env empty_world) = true
  /\ returned_message
       (updateCustomer (js "7") no_state (customer_form (EntryString (js "Ann")))
          disk_full_env empty_world)
     = Some (js "Error occured al grabar archivo.")
  /\ sql_statements
       (events_of (updateCustomer (js "7") no_state
                     (customer_form (EntryString (js "Ann"))))
          disk_full_env empty_world) = [].
Proof.
  assert (Hw : existsb is_failed_write
                 (events_of (updateCustomer (js "7") no_state
                               (customer_form (EntryString (js "Ann"))))
                    disk_full_env empty_world) = true) by (by vm_compute).
  destruct (failed_upload_blocks_update (js "7") no_state
              (customer_form (EntryString (js "Ann"))) disk_full_env empty_world)
    as [_ H].
  destruct (H Hw) as (Hr & Hs & _).
  split; [exact Hw|]. split; [|exact Hs].
  unfold returned_message. unfold StateCustomer in Hr. rewrite Hr. reflexivity.
Defined.

(** C7. The amount sent to the store is the validated amount times 100,
    in floating point and with no rounding step: when the submission
    validates, the one statement [createInvoice] sends is the INSERT whose
    amount is [Number(amount) * 100]; for the amount "10.50" it is 1050. *)
Theorem amount_in_minor_units (prev : State) (fd : FormData) (env : Env)
    (w : World) (data : InvoiceData) :
  CreateInvoice_safeParse (emailRegex_test env) (invoice_input fd)
  = SafeParseSuccess data ->
  amount data = Number (formData_get fd "amount")
  /\ sql_statements (events_of (createInvoice prev fd) env w)
     = [INSERT_INTO "invoices" ["customer_id"; "amount"; "status"; "date"]%string
          [SqlText (customerId data);
           SqlNumber (Number (formData_get fd "amount") * 100)%float;
           SqlText (status data);
           SqlText (split_first 84 (toISOString (now env)))]]
  /\ forall prev' env' w',
       sql_statements
         (events_of (createInvoice prev' (invoice_form "10.50")) env' w')
       = [INSERT_INTO "invoices" ["customer_id"; "amount"; "status"; "date"]%string
            [SqlText (js "c1"); SqlNumber 1050; SqlText (js "pending");
             SqlText (split_first 84 (toISOString (now env')))]].
Proof.
  assert (Hst : forall env0 w0 d,
            sql_statements
              (mutation_events env0 w0 (insert_invoice d (now env0))
                 "/dashboard/invoices")
            = [insert_invoice d (now env0)]).
  { intros env0 w0 d. unfold mutation_events.
    destruct (sql_rejects env0 _ (db w0)); reflexivity. }
  intros E. split; [|split].
  - apply invoice_parse_success in E as (_ & Ha & _). exact Ha.
  - rewrite createInvoice_events, E, Hst.
    apply invoice_parse_success in E as (_ & Ha & _).
    cbn [invoice_input in_amount] in Ha. unfold insert_invoice. by rewrite Ha.
  - intros prev' env' w'. rewrite createInvoice_events.
    assert (E' : CreateInvoice_safeParse (emailRegex_test env')
                   (invoice_input (invoice_form "10.50"))
                 = SafeParseSuccess {| customerId := js "c1"; amount := 10.5;
                                       status := js "pending" |})
      by (by vm_compute).
    rewrite E', Hst. reflexivity.
Qed.

Lemma amount_in_minor_units_witness :
  sql_statements
    (events_of (createInvoice no_state (invoice_form "10.50")) quiet_env empty_world)
  = [INSERT_INTO "invoices" ["customer_id"; "amount"; "status"; "date"]%string
       [SqlText (js "c1"); SqlNumber 1050; SqlText (js "pending");
        SqlText (js "2024-03-09")]].
Proof.
  assert (E : CreateInvoice_safeParse (emailRegex_test quiet_env)
                (invoice_input (invoice_form "10.50"))
              = SafeParseSuccess {| customerId := js "c1"; amount := 10.5;
                                    status := js "pending" |})
    by (by vm_compute).
  destruct (amount_in_minor_units no_state (invoice_form "10.50") quiet_env
              empty_world _ E) as (_ & H & _).
  rewrite H. by vm_compute.
Defined.

(** ** The invoice UPDATE on the store *)
Section StoredInvoices.

Lemma update_invoice_on_row (id : jsstring) (data : InvoiceData) (r : Row) :
  (if row_has_id (SqlText id) r
   then set_columns
          [("customer_id", SqlText (customerId data));
           ("amount", SqlNumber (amount data * 100)%float);
           ("status", SqlText (status data))]%string r
   else r)
  = updated_invoice_row id data r.
Proof. reflexivity. Qed.

Lemma updated_invoice_row_other (id : jsstring) (data : InvoiceData) (r : Row)
    (c : string) :
  c <> "customer_id"%string -> c <> "amount"%string -> c <> "status"%string ->
  updated_invoice_row id data r !! c = r !! c.
Proof.
  intros H1 H2 H3. unfold updated_invoice_row.
  destruct (row_has_id _ r); [|reflexivity].
  by rewrite !lookup_insert_ne.
Qed.

Lemma updated_invoice_row_set (id : jsstring) (data : InvoiceData) (r : Row) :
  row_has_id (SqlText id) r = true ->
  updated_invoice_row id data r !! "customer_id"%string
  = Some (SqlText (customerId data))
  /\ updated_invoice_row id data r !! "amount"%string
     = Some (SqlNumber (amount data * 100)%float)
  /\ updated_invoice_row id data r !! "status"%string
     = Some (SqlText (status data)).
Proof.
  intros H. unfold updated_invoice_row. rewrite H. repeat split.
  - rewrite !lookup_insert_ne by done. apply lookup_insert_eq.
  - rewrite lookup_insert_ne by done. apply lookup_insert_eq.
  - apply lookup_insert_eq.
Qed.

End StoredInvoices.

(** C4 (as amended). For every valid submission the store accepts,
    [updateInvoice] sends one UPDATE that assigns three columns,
    [customer_id], [amount] (in minor units) and [status], of the rows of
    [invoices] with the given id; every other column of those rows, the
    date among them, and every other row stay as they were. *)
Theorem updateInvoice_sets_three_fields (id : jsstring) (prev : State)
    (fd : FormData) (env : Env) (w : World) (data : InvoiceData) :
  UpdateInvoice_safeParse (emailRegex_test env) (invoice_input fd)
  = SafeParseSuccess data ->
  sql_rejects env (update_invoice id data) (db w) = false ->
  let w' := snd (updateInvoice id prev fd env w) in
  sql_statements (events_of (updateInvoice id prev fd) env w)
  = [update_invoice id data]
  /\ assigned_columns (update_invoice id data)
     = ["customer_id"; "amount"; "status"]%string
  /\ table_rows (db w') "invoices"
     = map (updated_invoice_row id data) (table_rows (db w) "invoices")
  /\ forall r : Row,
       updated_invoice_row id data r !! "date"%string = r !! "date"%string
       /\ updated_invoice_row id data r !! "id"%string = r !! "id"%string
       /\ (row_has_id (SqlText id) r = false -> updated_invoice_row id data r = r)
       /\ (row_has_id (SqlText id) r = true ->
           updated_invoice_row id data r !! "customer_id"%string
           = Some (SqlText (customerId data))
           /\ updated_invoice_row id data r !! "amount"%string
              = Some (SqlNumber (Number (formData_get fd "amount") * 100)%float)
           /\ updated_invoice_row id data r !! "status"%string
              = Some (SqlText (status data))).
Proof.
  intros E Hok w'. subst w'. split; [|split; [reflexivity|split]].
  - rewrite updateInvoice_events, E. unfold mutation_events. by rewrite Hok.
  - rewrite updateInvoice_run, E. cbv zeta. rewrite Hok.
    cbn [snd listed stored emit db apply_statement update_invoice].
    unfold table_rows at 1. rewrite lookup_insert_eq. cbn [default].
    apply map_ext. intros r. apply update_invoice_on_row.
  - intros r. split; [by apply updated_invoice_row_other|].
    split; [by apply updated_invoice_row_other|].
    split.
    + intros H. unfold updated_invoice_row. by rewrite H.
    + intros H. apply invoice_parse_success in E as (_ & Ha & _).
      cbn [invoice_input in_amount] in Ha. rewrite <- Ha.
      by apply updated_invoice_row_set.
Qed.

Lemma updateInvoice_sets_three_fields_witness :
  table_rows
    (db (snd (updateInvoice (js "7") no_state (invoice_form "10.50") quiet_env
                one_invoice_world))) "invoices"
  = [updated_invoice_row (js "7")
       {| customerId := js "c1"; amount := 10.5; status := js "pending" |}
       old_invoice]
  /\ updated_invoice_row (js "7")
       {| customerId := js "c1"; amount := 10.5; status := js "pending" |}
       old_invoice !! "amount"%string = Some (SqlNumber 1050).
Proof.
  assert (E : UpdateInvoice_safeParse (emailRegex_test quiet_env)
                (invoice_input (invoice_form "10.50"))
              = SafeParseSuccess {| customerId := js "c1"; amount := 10.5;
                                    status := js "pending" |})
    by (by vm_compute).
  destruct (updateInvoice_sets_three_fields (js "7") no_state
              (invoice_form "10.50") quiet_env one_invoice_world _ E eq_refl)
    as (_ & _ & Ht & _).
  split; [rewrite Ht; by vm_compute | by vm_compute].
Defined.

(** C4, as stated, fails on the date: the UPDATE that [updateInvoice]
    sends assigns no [date], and an invoice dated 2020-01-01 keeps that
    date when it is updated on 2024-03-09, while its amount changes. *)
Lemma update_leaves_the_date :
  let run := updateInvoice (js "7") no_state (invoice_form "10.50") quiet_env
               one_invoice_world in
  fst run = Throw (NEXT_REDIRECT "/dashboard/invoices")
  /\ flat_map assigned_columns
       (sql_statements
          (events_of (updateInvoice (js "7") no_state (invoice_form "10.50"))
             quiet_env one_invoice_world))
     = ["customer_id"; "amount"; "status"]%string
  /\ split_first 84 (toISOString (now quiet_env)) = js "2024-03-09"
  /\ exists r : Row,
       table_rows (db (snd run)) "invoices" = [r]
       /\ r !! "date"%string = Some (SqlText (js "2020-01-01"))
       /\ r !! "amount"%string = Some (SqlNumber 1050).
Proof.
  cbv zeta. split; [by vm_compute|]. split; [by vm_compute|].
  split; [by vm_compute|].
  exists (updated_invoice_row (js "7")
            {| customerId := js "c1"; amount := 10.5; status := js "pending" |}
            old_invoice).
  repeat split; by vm_compute.
Qed.

(* ===================================================================== *)
(** * Further properties of the actions *)
(* ===================================================================== *)

(** ** Which submissions validate *)
Section WhichSubmissions.

Variable t : jsstring -> bool.

Lemma customerId_parse (v : JsValue) (pth : list string) :
  ZodString_parse t FormSchema.customerId v pth
  = match v with
    | VString s => (PARSED false s, [])
    | VUndefined => (INVALID, [{| issue_path := pth; issue_message := js "Required" |}])
    | _ => (INVALID, [{| issue_path := pth; issue_message := msg_select_customer |}])
    end.
Proof. destruct v; reflexivity. Qed.

Lemma status_parse (v : JsValue) (pth : list string) :
  ZodEnum_parse FormSchema.status v pth
  = match v with
    | VString s =>
      if jsstring_eqb s (js "pending") || jsstring_eqb s (js "paid")
      then (PARSED false s, [])
      else (INVALID,
            [{| issue_path := pth;
                issue_message :=
                  js "Invalid enum value. Expected 'pending' | 'paid', received '"
                    ++ s ++ js "'" |}])
    | VUndefined => (INVALID, [{| issue_path := pth; issue_message := js "Required" |}])
    | _ => (INVALID, [{| issue_path := pth; issue_message := msg_select_status |}])
    end.
Proof.
  destruct v; try reflexivity.
  unfold ZodEnum_parse, FormSchema.status, z_enum.
  cbn [ze_values ze_params existsb]. rewrite orb_false_r.
  destruct (_ || _); [reflexivity|].
  do 3 f_equal.
Qed.

(** The three parses of an invoice object, put together. *)
Lemma invoice_object_parse_eq (input : InvoiceInput) :
  invoice_object_parse t input
  = let r1 := ZodString_parse t FormSchema.customerId (in_customerId input)
                ["customerId"%string] in
    let r2 := ZodNumber_parse FormSchema.amount (in_amount input)
                ["amount"%string] in
    let r3 := ZodEnum_parse FormSchema.status (in_status input)
                ["status"%string] in
    (merge_field
       (merge_field (merge_field (PARSED false tt) (fst r1) (fun _ c => c))
                    (fst r2) (fun c a => (c, a)))
       (fst r3)
       (fun ca s => {| customerId := fst ca; amount := snd ca; status := s |}),
     snd r1 ++ snd r2 ++ snd r3).
Proof.
  unfold invoice_object_parse.
  destruct (ZodString_parse _ _ _ _), (ZodNumber_parse _ _ _),
    (ZodEnum_parse _ _ _). reflexivity.
Qed.

End WhichSubmissions.

(** ** Invoice submissions, field by field *)
Section InvoiceFields.

Variable t : jsstring -> bool.

Lemma invoice_messages (input : InvoiceInput) (k : string) :
  messages_at k (snd (invoice_object_parse t input))
  = (if String.eqb "customerId" k
     then map issue_message
            (snd (ZodString_parse t FormSchema.customerId (in_customerId input)
                    ["customerId"%string]))
     else [])
    ++ (if String.eqb "amount" k
        then map issue_message
               (snd (ZodNumber_parse FormSchema.amount (in_amount input)
                       ["amount"%string]))
        else [])
    ++ (if String.eqb "status" k
        then map issue_message
               (snd (ZodEnum_parse FormSchema.status (in_status input)
                       ["status"%string]))
        else []).
Proof.
  rewrite invoice_object_parse_eq. cbv zeta. cbn [snd].
  rewrite !messages_at_app.
  rewrite (messages_at_path _ _ _ (at_path_string t _ _ _)),
    (messages_at_path _ _ _ (at_path_number _ _ _)),
    (messages_at_path _ _ _ (at_path_enum _ _ _)).
  reflexivity.
Qed.

(** The object validates exactly to the invoice the submission stands
    for. *)
Lemma invoice_parse_expected (fd : FormData) :
  handleResult (invoice_object_parse t (invoice_input fd))
  = match expected_invoice fd with
    | Some d => SafeParseSuccess d
    | None => SafeParseError (snd (invoice_object_parse t (invoice_input fd)))
    end.
Proof.
  rewrite invoice_object_parse_eq. cbv zeta. cbn [fst snd].
  unfold expected_invoice. cbn [invoice_input in_customerId in_amount in_status].
  rewrite customerId_parse, amount_parse, status_parse.
  destruct (formData_get fd "customerId") as [| | c | f | fs];
    destruct (formData_get fd "status") as [| | s | f' | fs'];
    cbn [fst snd];
    try (destruct (is_nan (Number (formData_get fd "amount")));
         [reflexivity|];
         destruct (Number (formData_get fd "amount") <=? 0)%float; reflexivity).
  destruct (is_nan (Number (formData_get fd "amount")));
    destruct (Number (formData_get fd "amount") <=? 0)%float;
    destruct (jsstring_eqb s (js "pending") || jsstring_eqb s (js "paid"));
    reflexivity.
Qed.

End InvoiceFields.

(** X1. An invoice submission reaches the store exactly when its customer
    is a string, its amount coerces to a number above zero and its status
    is "pending" or "paid": then [createInvoice] sends the one INSERT and
    [updateInvoice] the one UPDATE built from these values; otherwise
    neither action has any effect, and the errors each of the two returns
    hold a message under at least one of the three fields. *)
Theorem valid_invoices_reach_the_store (id : jsstring) (prev : State)
    (fd : FormData) (env : Env) (w : World) :
  sql_statements (events_of (createInvoice prev fd) env w)
  = match expected_invoice fd with
    | Some d => [insert_invoice d (now env)]
    | None => []
    end
  /\ sql_statements (events_of (updateInvoice id prev fd) env w)
     = match expected_invoice fd with
       | Some d => [update_invoice id d]
       | None => []
       end
  /\ (expected_invoice fd = None ->
      events_of (createInvoice prev fd) env w = []
      /\ events_of (updateInvoice id prev fd) env w = []
      /\ (is_Some (field_errors (createInvoice prev fd env w) "customerId")
          \/ is_Some (field_errors (createInvoice prev fd env w) "amount")
          \/ is_Some (field_errors (createInvoice prev fd env w) "status"))
      /\ (is_Some (field_errors (updateInvoice id prev fd env w) "customerId")
          \/ is_Some (field_errors (updateInvoice id prev fd env w) "amount")
          \/ is_Some (field_errors (updateInvoice id prev fd env w) "status"))).
Proof.
  assert (Hst : forall stmt url,
            sql_statements (mutation_events env w stmt url) = [stmt]).
  { intros stmt url. unfold mutation_events.
    destruct (sql_rejects env stmt (db w)); reflexivity. }
  pose proof (invoice_parse_expected (emailRegex_test env) fd) as E.
  rewrite createInvoice_events, updateInvoice_events.
  unfold CreateInvoice_safeParse, UpdateInvoice_safeParse. rewrite E.
  split; [|split].
  - destruct (expected_invoice fd); [apply Hst | reflexivity].
  - destruct (expected_invoice fd); [apply Hst | reflexivity].
  - intros Hnone. rewrite Hnone in E |- *. split; [reflexivity|].
    split; [reflexivity|].
    set (issues := snd (invoice_object_parse (emailRegex_test env)
                          (invoice_input fd))) in *.
    assert (Herr : is_Some (fieldErrors issues !! "customerId"%string)
                   \/ is_Some (fieldErrors issues !! "amount"%string)
                   \/ is_Some (fieldErrors issues !! "status"%string));
      [|split; unfold field_errors;
        [ rewrite createInvoice_run; unfold CreateInvoice_safeParse
        | rewrite updateInvoice_run; unfold UpdateInvoice_safeParse ];
        rewrite E; cbn [fst rejected errors]; cbn [mbind option_bind];
        exact Herr].
    subst issues. rewrite !fieldErrors_lookup, !invoice_messages.
    change ("customerId" =? "customerId")%string with true.
    change ("amount" =? "customerId")%string with false.
    change ("status" =? "customerId")%string with false.
    change ("customerId" =? "amount")%string with false.
    change ("amount" =? "amount")%string with true.
    change ("status" =? "amount")%string with false.
    change ("customerId" =? "status")%string with false.
    change ("amount" =? "status")%string with false.
    change ("status" =? "status")%string with true.
    cbn [app]. rewrite !app_nil_r.
    cbn [invoice_input in_customerId in_amount in_status].
    rewrite customerId_parse, amount_parse, status_parse.
    unfold expected_invoice in Hnone.
    destruct (formData_get fd "customerId") as [| | c | f | fs];
      try (left; cbn [snd map]; eexists; reflexivity).
    destruct (formData_get fd "status") as [| | s | f' | fs'];
      try (right; right; cbn [snd map]; eexists; reflexivity).
    cbv zeta in Hnone.
    destruct (is_nan (Number (formData_get fd "amount")));
      [right; left; cbn [snd map]; eexists; reflexivity|].
    destruct (Number (formData_get fd "amount") <=? 0)%float;
      [right; left; cbn [snd map]; eexists; reflexivity|].
    destruct (jsstring_eqb s (js "pending") || jsstring_eqb s (js "paid"));
      [discriminate|].
    right; right; cbn [snd map]; eexists; reflexivity.
Qed.

(** X2. What [createInvoice] and [updateInvoice] return under
    [customerId] and under [status] is decided by the submitted value
    alone: nothing for a string customer, "Please select a customer." for
    a missing one; nothing for the status "pending" or "paid", "Please
    select an invoice status." for a missing status, and zod's "Invalid
    enum value" message, which quotes the value, for any other string.
    No other key than the three fields of the schema ever holds errors. *)
Theorem invoice_field_errors (id : jsstring) (prev : State) (fd : FormData)
    (env : Env) (w : World) :
  field_errors (createInvoice prev fd env w) "customerId"
  = expected_customerId_errors (formData_get fd "customerId")
  /\ field_errors (createInvoice prev fd env w) "status"
     = expected_status_errors (formData_get fd "status")
  /\ field_errors (updateInvoice id prev fd env w) "customerId"
     = expected_customerId_errors (formData_get fd "customerId")
  /\ field_errors (updateInvoice id prev fd env w) "status"
     = expected_status_errors (formData_get fd "status")
  /\ forall k : string,
       k <> "customerId"%string -> k <> "amount"%string -> k <> "status"%string ->
       field_errors (createInvoice prev fd env w) k = None
       /\ field_errors (updateInvoice id prev fd env w) k = None.
Proof.
  assert (Hc : forall k,
    field_errors (createInvoice prev fd env w) k
    = match expected_invoice fd with
      | Some _ => None
      | None =>
        match messages_at k (snd (invoice_object_parse (emailRegex_test env)
                                    (invoice_input fd))) with
        | [] => None
        | ms => Some ms
        end
      end).
  { intros k. unfold field_errors. rewrite createInvoice_run.
    unfold CreateInvoice_safeParse. rewrite invoice_parse_expected.
    destruct (expected_invoice fd) as [d|].
    - cbv zeta. destruct (sql_rejects env _ (db w)); reflexivity.
    - cbn [fst rejected errors]. cbn [mbind option_bind].
      apply fieldErrors_lookup. }
  assert (Hu : forall k,
    field_errors (updateInvoice id prev fd env w) k
    = match expected_invoice fd with
      | Some _ => None
      | None =>
        match messages_at k (snd (invoice_object_parse (emailRegex_test env)
                                    (invoice_input fd))) with
        | [] => None
        | ms => Some ms
        end
      end).
  { intros k. unfold field_errors. rewrite updateInvoice_run.
    unfold UpdateInvoice_safeParse. rewrite invoice_parse_expected.
    destruct (expected_invoice fd) as [d|].
    - cbv zeta. destruct (sql_rejects env _ (db w)); reflexivity.
    - cbn [fst rejected errors]. cbn [mbind option_bind].
      apply fieldErrors_lookup. }
  assert (H1 : match expected_invoice fd with
               | Some _ => None
               | None =>
                 match messages_at "customerId"
                         (snd (invoice_object_parse (emailRegex_test env)
                                 (invoice_input fd))) with
                 | [] => None
                 | ms => Some ms
                 end
               end
               = expected_customerId_errors (formData_get fd "customerId")).
  { rewrite invoice_messages.
    change ("customerId" =? "customerId")%string with true.
    change ("amount" =? "customerId")%string with false.
    change ("status" =? "customerId")%string with false.
    cbn [app]. rewrite app_nil_r.
    cbn [invoice_input in_customerId]. rewrite customerId_parse.
    unfold expected_invoice, expected_customerId_errors.
    unfold msg_select_customer.
    destruct (formData_get fd "customerId") as [| | c | f | fs];
      cbn [snd map issue_message]; [reflexivity | reflexivity | | reflexivity ..].
    by destruct (match formData_get fd "status" with VString _ => _ | _ => _ end). }
  assert (H2 : match expected_invoice fd with
               | Some _ => None
               | None =>
                 match messages_at "status"
                         (snd (invoice_object_parse (emailRegex_test env)
                                 (invoice_input fd))) with
                 | [] => None
                 | ms => Some ms
                 end
               end
               = expected_status_errors (formData_get fd "status")).
  { rewrite invoice_messages.
    change ("customerId" =? "status")%string with false.
    change ("amount" =? "status")%string with false.
    change ("status" =? "status")%string with true.
    cbn [app].
    cbn [invoice_input in_status]. rewrite status_parse.
    unfold expected_invoice, expected_status_errors.
    unfold msg_select_status.
    destruct (formData_get fd "status") as [| | s | f | fs];
      destruct (formData_get fd "customerId") as [| | c | f0 | fs0];
      cbv zeta; cbn [snd map issue_message];
      try destruct (jsstring_eqb s (js "pending") || jsstring_eqb s (js "paid"));
      cbn [snd map issue_message];
      rewrite ?andb_false_r, ?andb_true_r;
      first [ by destruct (_ && _) | reflexivity ]. }
  split; [rewrite (Hc "customerId"%string); exact H1|].
  split; [rewrite (Hc "status"%string); exact H2|].
  split; [rewrite (Hu "customerId"%string); exact H1|].
  split; [rewrite (Hu "status"%string); exact H2|].
  intros k K1 K2 K3. rewrite (Hu k), (Hc k).
  assert (Hk : match expected_invoice fd with
               | Some _ => None
               | None =>
                 match messages_at k
                         (snd (invoice_object_parse (emailRegex_test env)
                                 (invoice_input fd))) with
                 | [] => None
                 | ms => Some ms
                 end
               end = None).
  { destruct (expected_invoice fd); [reflexivity|].
    rewrite invoice_messages.
    apply String.eqb_neq in K1, K2, K3.
    rewrite (String.eqb_sym "customerId" k), (String.eqb_sym "amount" k),
      (String.eqb_sym "status" k), K1, K2, K3. reflexivity. }
  rewrite Hk. split; reflexivity.
Qed.

Lemma valid_invoices_reach_the_store_witness :
  sql_statements
    (events_of (updateInvoice (js "7") no_state (invoice_form "10.50"))
       quiet_env empty_world)
  = [update_invoice (js "7")
       {| customerId := js "c1"; amount := 10.5; status := js "pending" |}]
  /\ events_of (createInvoice no_state (invoice_form "-3")) quiet_env empty_world
     = [].
Proof.
  split.
  - destruct (valid_invoices_reach_the_store (js "7") no_state
                (invoice_form "10.50") quiet_env empty_world) as (_ & H & _).
    rewrite H. by vm_compute.
  - destruct (valid_invoices_reach_the_store (js "7") no_state
                (invoice_form "-3") quiet_env empty_world) as (_ & _ & H).
    assert (Hx : expected_invoice (invoice_form "-3") = None) by (by vm_compute).
    exact (proj1 (H Hx)).
Defined.

Lemma invoice_field_errors_witness :
  field_errors (createInvoice no_state [] quiet_env empty_world) "customerId"
  = Some [js "Please select a customer."]
  /\ field_errors (createInvoice no_state [] quiet_env empty_world) "date" = None.
Proof.
  destruct (invoice_field_errors (js "7") no_state [] quiet_env empty_world)
    as (H1 & _ & _ & _ & Hk).
  split; [exact H1|].
  assert (K1 : "date"%string <> "customerId"%string) by discriminate.
  assert (K2 : "date"%string <> "amount"%string) by discriminate.
  assert (K3 : "date"%string <> "status"%string) by discriminate.
  exact (proj1 (Hk "date"%string K1 K2 K3)).
Defined.


(** ** Blank amounts *)
Section BlankAmounts.

Lemma skip_white_blank (s : jsstring) : blank s -> skip_white s = [].
Proof.
  induction 1 as [|c s Hc _ IH]; [reflexivity|].
  cbn [skip_white]. by rewrite Hc.
Qed.

Lemma trim_blank (s : jsstring) : blank s -> trim s = [].
Proof. intros H. unfold trim. by rewrite (skip_white_blank s H). Qed.

Lemma StringToNumber_blank (s : jsstring) : blank s -> StringToNumber s = zero.
Proof. intros H. unfold StringToNumber. by rewrite (trim_blank s H). Qed.

End BlankAmounts.

(** X3. An amount that is missing from the form, empty, or made of white
    space only coerces to zero: [createInvoice] and [updateInvoice] reject
    the submission with "Please enter an amount greater than $0." under
    [amount] and have no effect. *)
Theorem blank_amount_is_zero (id : jsstring) (prev : State) (fd : FormData)
    (env : Env) (w : World) :
  formData_get fd "amount" = VNull
  \/ (exists s, formData_get fd "amount" = VString s /\ blank s) ->
  Number (formData_get fd "amount") = zero
  /\ field_errors (createInvoice prev fd env w) "amount"
     = Some [js "Please enter an amount greater than $0."]
  /\ field_errors (updateInvoice id prev fd env w) "amount"
     = Some [js "Please enter an amount greater than $0."]
  /\ events_of (createInvoice prev fd) env w = []
  /\ events_of (updateInvoice id prev fd) env w = [].
Proof.
  intros Hblank.
  assert (Hz : Number (formData_get fd "amount") = zero).
  { destruct Hblank as [-> | (s & -> & Hs)]; [reflexivity|].
    cbn [Number]. by apply StringToNumber_blank. }
  destruct (invoice_amount_invalid (emailRegex_test env) (invoice_input fd))
    as (issues & Hparse & Hmsg).
  { right. cbn [invoice_input in_amount]. by rewrite Hz. }
  assert (Hn : is_nan (Number (formData_get fd "amount")) = false)
    by (rewrite Hz; reflexivity).
  cbn [invoice_input in_amount] in Hmsg. rewrite Hn in Hmsg.
  pose proof (createInvoice_run prev fd env w) as Hc.
  pose proof (updateInvoice_run id prev fd env w) as Hu.
  unfold CreateInvoice_safeParse in Hc. unfold UpdateInvoice_safeParse in Hu.
  rewrite Hparse in Hc, Hu.
  assert (Hfe : fieldErrors issues !! "amount"%string
                = Some [js "Please enter an amount greater than $0."]).
  { rewrite fieldErrors_lookup, Hmsg. reflexivity. }
  split; [exact Hz|].
  split; [unfold field_errors; rewrite Hc; exact Hfe|].
  split; [unfold field_errors; rewrite Hu; exact Hfe|].
  split; [by apply events_of_unchanged in Hc | by apply events_of_unchanged in Hu].
Qed.

Lemma blank_amount_is_zero_witness :
  field_errors (createInvoice no_state (invoice_form "  ") quiet_env empty_world)
    "amount"
  = Some [js "Please enter an amount greater than $0."]
  /\ field_errors (updateInvoice (js "7") no_state [] quiet_env empty_world)
       "amount"
     = Some [js "Please enter an amount greater than $0."].
Proof.
  split.
  - assert (H : formData_get (invoice_form "  ") "amount" = VNull
                \/ exists s, formData_get (invoice_form "  ") "amount" = VString s
                             /\ blank s).
    { right. exists (js "  "). split; [reflexivity|].
      repeat constructor. }
    destruct (blank_amount_is_zero (js "7") no_state (invoice_form "  ")
                quiet_env empty_world H) as (_ & Hc & _).
    exact Hc.
  - destruct (blank_amount_is_zero (js "7") no_state [] quiet_env empty_world
                (or_introl eq_refl)) as (_ & _ & Hu & _).
    exact Hu.
Defined.

(** ** Customer submissions, field by field *)
Section CustomerFields.

Variable t : jsstring -> bool.

Lemma email_parse (v : JsValue) (pth : list string) :
  ZodString_parse t FormSchemaCustomer.email v pth
  = match v with
    | VString e =>
      if t e then (PARSED false e, [])
      else (PARSED true e, [{| issue_path := pth; issue_message := msg_email |}])
    | VUndefined =>
      (INVALID, [{| issue_path := pth; issue_message := js "Required" |}])
    | VNull =>
      (INVALID, [{| issue_path := pth;
                    issue_message := js "Expected string, received null" |}])
    | _ =>
      (INVALID, [{| issue_path := pth;
                    issue_message := js "Expected string, received object" |}])
    end.
Proof.
  destruct v as [| | e | f | fs]; try (by vm_compute).
  unfold ZodString_parse, FormSchemaCustomer.email, Zod.email, z_string.
  cbn [zs_checks zs_params app flat_map run_string_check].
  destruct (t e); reflexivity.
Qed.

Lemma image_url_parse (v : JsValue) (pth : list string) :
  ZodString_parse t FormSchemaCustomer.image_url v pth
  = match v with
    | VString u => (PARSED false u, [])
    | VUndefined =>
      (INVALID, [{| issue_path := pth; issue_message := js "Required" |}])
    | VNull =>
      (INVALID, [{| issue_path := pth;
                    issue_message := js "Expected string, received null" |}])
    | _ =>
      (INVALID, [{| issue_path := pth;
                    issue_message := js "Expected string, received object" |}])
    end.
Proof. destruct v as [| | e | f | fs]; by vm_compute. Qed.

(** The parse of an object whose upload is a file. *)
Lemma customer_object_parse_eq (input : CustomerInput) (f : File) :
  in_image_upload input = VFile f ->
  customer_object_parse t input
  = let r1 := ZodString_parse t FormSchemaCustomer.name (in_name input)
                ["name"%string] in
    let r2 := ZodString_parse t FormSchemaCustomer.email (in_email input)
                ["email"%string] in
    let r3 := ZodString_parse t FormSchemaCustomer.image_url (in_image_url input)
                ["image_url"%string] in
    let r4 := PARSED (negb (bool_decide
                              (FormSchemaCustomer.check_file (VFile f) = [])))
                (VFile f) in
    Normal
      (merge_field
         (merge_field
            (merge_field (merge_field (PARSED false tt) (fst r1) (fun _ n => n))
                         (fst r2) (fun n e => (n, e)))
            (fst r3) (fun ne u => (ne, u)))
         r4
         (fun neu f => {| name := fst (fst neu); email := snd (fst neu);
                          image_url := snd neu; image_upload := f |}),
       customer_field_issues t input).
Proof.
  intros Hf. unfold customer_object_parse, customer_field_issues.
  rewrite image_upload_parse, Hf. cbv zeta.
  destruct (ZodString_parse t FormSchemaCustomer.name _ _),
    (ZodString_parse t FormSchemaCustomer.email _ _),
    (ZodString_parse t FormSchemaCustomer.image_url _ _). reflexivity.
Qed.

(** A file passes the refinement exactly when it is small enough and of
    an image type. *)
Lemma check_file_passes (f : File) :
  FormSchemaCustomer.check_file (VFile f) = []
  <-> (file_size f <=? 5 * 1024 * 1024) = true
      /\ existsb (jsstring_eqb (file_type f)) image_mime_types = true.
Proof.
  unfold FormSchemaCustomer.check_file. rewrite image_types_agree.
  rewrite N.leb_le, N.ltb_antisym.
  destruct (file_size f <=? 5 * 1024 * 1024) eqn:Hs;
    destruct (existsb _ image_mime_types); cbn [negb app];
    [apply N.leb_le in Hs | apply N.leb_le in Hs
    | apply N.leb_gt in Hs | apply N.leb_gt in Hs];
    split; try discriminate; try (intros [? ?]; first [discriminate | lia]);
    intros _; split; [lia | reflexivity].
Qed.

(** What a valid customer submission holds. *)
Lemma expected_customer_some (fd : FormData) (d : CustomerData) :
  expected_customer t fd = Some d ->
  formData_get fd "name" = VString (name d)
  /\ formData_get fd "email" = VString (email d)
  /\ t (email d) = true
  /\ formData_get fd "image_url" = VString (image_url d)
  /\ exists f, formData_get fd "image_upload" = VFile f
               /\ image_upload d = VFile f
               /\ (file_size f <=? 5 * 1024 * 1024) = true
               /\ existsb (jsstring_eqb (file_type f)) image_mime_types = true.
Proof.
  unfold expected_customer.
  destruct (formData_get fd "name") as [| | n | |]; try discriminate.
  destruct (formData_get fd "email") as [| | e | |]; try discriminate.
  destruct (formData_get fd "image_url") as [| | u | |]; try discriminate.
  destruct (formData_get fd "image_upload") as [| | | f |]; try discriminate.
  destruct (t e) eqn:Ht; [|discriminate].
  destruct (file_size f <=? 5 * 1024 * 1024) eqn:Hs; [|discriminate].
  destruct (existsb _ image_mime_types) eqn:Hty; [|discriminate].
  intros [= <-]. cbn [name email image_url image_upload].
  repeat split; try reflexivity; try assumption. exists f. auto.
Qed.

(** With a file to upload, the update object validates exactly to the
    customer the submission stands for; without one the parse throws. *)
Lemma customer_parse_expected (fd : FormData) :
  safeParse (customer_object_parse t (update_customer_input fd))
  = match formData_get fd "image_upload" with
    | VFile _ =>
      Normal
        match expected_customer t fd with
        | Some d => SafeParseSuccess d
        | None =>
          SafeParseError (customer_field_issues t (update_customer_input fd))
        end
    | _ => Throw ReferenceError
    end.
Proof.
  destruct (formData_get fd "image_upload") as [| | s | f | fs] eqn:Hf;
    try (apply customer_without_upload_throws;
         cbn [update_customer_input in_image_upload]; by rewrite Hf).
  destruct (safeParse _) as [[d|issues]|e] eqn:E.
  - f_equal. pose proof E as E'.
    apply customer_parse_success in E
      as (Hn & He & Hu & f0 & Hf0 & Hd & Hnil).
    cbn [update_customer_input in_name in_email in_image_url in_image_upload]
      in Hn, He, Hu, Hf0.
    assert (f0 = f) as -> by congruence.
    unfold expected_customer. rewrite Hn, He, Hu, Hf.
    assert (Hc : FormSchemaCustomer.check_file (VFile f) = []).
    { destruct (check_file_spec f) as [Hm _]. rewrite Hnil in Hm.
      by destruct (FormSchemaCustomer.check_file (VFile f)). }
    pose proof Hc as Hc'. apply check_file_passes in Hc' as [-> ->].
    assert (Ht : t (email d) = true).
    { apply safeParse_success in E' as (r & Er & E').
      rewrite (customer_object_parse_eq _ f) in Er by exact Hf.
      cbv zeta in Er. injection Er as <-. cbn [fst] in E'.
      cbn [update_customer_input in_name in_email in_image_url] in E'.
      rewrite He, email_parse in E'.
      destruct (t (email d)); [reflexivity|].
      cbn [fst] in E'.
      destruct (fst (ZodString_parse t FormSchemaCustomer.name _ _)) as [|[|] ?];
        cbn [merge_field orb] in E'; try discriminate;
        destruct (fst (ZodString_parse t FormSchemaCustomer.image_url _ _))
          as [|[|] ?];
        cbn [merge_field orb] in E'; discriminate. }
    rewrite Ht. cbn [andb]. destruct d as [n e u up].
    cbn [image_upload] in Hd. cbn [name email image_url]. by rewrite Hd.
  - f_equal. pose proof E as E0. apply customer_parse_error in E0 as [-> _].
    destruct (expected_customer t fd) as [d|] eqn:Hx; [|reflexivity].
    exfalso.
    apply expected_customer_some in Hx
      as (Hn & He & Ht & Hu & f0 & Hf0 & Hd & Hs & Hty).
    assert (f0 = f) as -> by congruence.
    assert (Hc : FormSchemaCustomer.check_file (VFile f) = [])
      by (by apply check_file_passes).
    assert (Hok : safeParse (customer_object_parse t (update_customer_input fd))
                  = Normal (SafeParseSuccess
                              {| name := name d; email := email d;
                                 image_url := image_url d;
                                 image_upload := VFile f |})).
    { rewrite (customer_object_parse_eq _ f) by exact Hf. cbv zeta.
      cbn [update_customer_input in_name in_email in_image_url].
      rewrite Hn, He, Hu, name_parse, email_parse, image_url_parse, Ht, Hc.
      reflexivity. }
    rewrite Hok in E. discriminate.
  - destruct (customer_object_parse_file t (update_customer_input fd) f Hf)
      as (r & Er).
    rewrite Er in E. discriminate.
Qed.

End CustomerFields.

Section CustomerMessages.

Variable t : jsstring -> bool.

Lemma customer_messages (input : CustomerInput) (k : string) :
  messages_at k (customer_field_issues t input)
  = (if String.eqb "name" k
     then map issue_message
            (snd (ZodString_parse t FormSchemaCustomer.name (in_name input)
                    ["name"%string]))
     else [])
    ++ (if String.eqb "email" k
        then map issue_message
               (snd (ZodString_parse t FormSchemaCustomer.email (in_email input)
                       ["email"%string]))
        else [])
    ++ (if String.eqb "image_url" k
        then map issue_message
               (snd (ZodString_parse t FormSchemaCustomer.image_url
                       (in_image_url input) ["image_url"%string]))
        else [])
    ++ (if String.eqb "image_upload" k
        then map custom_message
               (FormSchemaCustomer.check_file (in_image_upload input))
        else []).
Proof.
  unfold customer_field_issues. rewrite !messages_at_app.
  rewrite (messages_at_path _ _ _ (at_path_string t FormSchemaCustomer.name _ _)),
    (messages_at_path _ _ _ (at_path_string t FormSchemaCustomer.email _ _)),
    (messages_at_path _ _ _ (at_path_string t FormSchemaCustomer.image_url _ _)),
    upload_issues_at.
  reflexivity.
Qed.

End CustomerMessages.

(** What an update of a customer returns under a key when the form holds
    a file to upload: nothing when the submission validates, the messages
    of the issues at that key otherwise. *)
Lemma updateCustomer_field_errors (id : jsstring) (prev : StateCustomer)
    (fd : FormData) (env : Env) (w : World) (k : string) (f : File) :
  formData_get fd "image_upload" = VFile f ->
  field_errors (updateCustomer id prev fd env w) k
  = match expected_customer (emailRegex_test env) fd with
    | Some _ => None
    | None =>
      match messages_at k
              (customer_field_issues (emailRegex_test env)
                 (update_customer_input fd)) with
      | [] => None
      | ms => Some ms
      end
    end.
Proof.
  intros Hf. unfold field_errors. rewrite updateCustomer_run.
  unfold UpdateCustomer_safeParse. rewrite customer_parse_expected, Hf.
  destruct (expected_customer (emailRegex_test env) fd) as [d|].
  - cbn [truthy negb].
    destruct (image_upload d); try reflexivity.
    cbv zeta. destruct (writeFile_rejects env _ _); [reflexivity|].
    destruct (sql_rejects env _ _); reflexivity.
  - cbn [fst rejected errors]. cbn [mbind option_bind].
    apply fieldErrors_lookup.
Qed.

(** X4. [updateCustomer] writes the upload and goes on to the store
    exactly when the name, the e-mail and the image_url are strings, the
    e-mail matches the pattern, and the upload is a file of at most 5MB
    whose type is one of the four image types; an empty name is accepted.
    Otherwise it has no effect, no file is written and no statement
    sent: with a file to upload it returns "Missing Fields. Failed to
    Update Invoice.", and without one it throws the [ReferenceError] of
    the parse. *)
Theorem valid_customer_updates_are_written (id : jsstring)
    (prev : StateCustomer) (fd : FormData) (env : Env) (w : World) :
  events_of (updateCustomer id prev fd) env w
  = match expected_customer (emailRegex_test env) fd,
          formData_get fd "image_upload" with
    | Some d, VFile f => upload_events id env w d f
    | _, _ => []
    end
  /\ (expected_customer (emailRegex_test env) fd = None ->
      snd (updateCustomer id prev fd env w) = w
      /\ match formData_get fd "image_upload" with
         | VFile _ =>
           returned_message (updateCustomer id prev fd env w)
           = Some (js "Missing Fields. Failed to Update Invoice.")
         | _ => fst (updateCustomer id prev fd env w) = Throw ReferenceError
         end).
Proof.
  split.
  - rewrite updateCustomer_events. unfold UpdateCustomer_safeParse.
    rewrite customer_parse_expected.
    destruct (expected_customer (emailRegex_test env) fd) as [d|] eqn:Hx.
    + apply expected_customer_some in Hx as (_ & _ & _ & _ & f & -> & -> & _).
      reflexivity.
    + by destruct (formData_get fd "image_upload").
  - intros Hnone. unfold returned_message. rewrite updateCustomer_run.
    unfold UpdateCustomer_safeParse. rewrite customer_parse_expected, Hnone.
    destruct (formData_get fd "image_upload"); split; reflexivity.
Qed.

Lemma valid_customer_updates_are_written_witness :
  events_of (updateCustomer (js "7") no_state big_gif_form) quiet_env empty_world
  = []
  /\ returned_message
       (updateCustomer (js "7") no_state big_gif_form quiet_env empty_world)
     = Some (js "Missing Fields. Failed to Update Invoice.")
  /\ fst (updateCustomer (js "7") no_state fileless_form quiet_env empty_world)
     = Throw ReferenceError.
Proof.
  destruct (valid_customer_updates_are_written (js "7") no_state big_gif_form
              quiet_env empty_world) as [He Hn].
  destruct (valid_customer_updates_are_written (js "7") no_state fileless_form
              quiet_env empty_world) as [_ Hn'].
  assert (Hx : expected_customer (emailRegex_test quiet_env) big_gif_form = None)
    by (by vm_compute).
  assert (Hx' : expected_customer (emailRegex_test quiet_env) fileless_form = None)
    by (by vm_compute).
  split; [rewrite He, Hx; reflexivity|].
  split; [exact (proj2 (Hn Hx)) | exact (proj2 (Hn' Hx'))].
Defined.

(** X5. With a file to upload, what [updateCustomer] returns under
    [email] and under [image_url] is decided by the submitted value
    alone: under [email] nothing for a string that matches the pattern,
    "Email no válido" for one that does not, and zod's "Expected string,
    received null" for a missing field; under [image_url] nothing for a
    string and the same type messages otherwise. No key other than the
    four fields of the schema ever holds errors. *)
Theorem customer_field_errors (id : jsstring) (prev : StateCustomer)
    (fd : FormData) (env : Env) (w : World) (f : File) :
  formData_get fd "image_upload" = VFile f ->
  field_errors (updateCustomer id prev fd env w) "email"
  = expected_email_errors (emailRegex_test env) (formData_get fd "email")
  /\ field_errors (updateCustomer id prev fd env w) "image_url"
     = match formData_get fd "image_url" with
       | VString _ => None
       | VNull => Some [js "Expected string, received null"]
       | VUndefined => Some [js "Required"]
       | _ => Some [js "Expected string, received object"]
       end
  /\ forall k : string,
       k <> "name"%string -> k <> "email"%string -> k <> "image_url"%string ->
       k <> "image_upload"%string ->
       field_errors (updateCustomer id prev fd env w) k = None.
Proof.
  intros Hf. split; [|split].
  - rewrite (updateCustomer_field_errors _ _ _ _ _ _ f Hf).
    destruct (expected_customer (emailRegex_test env) fd) as [d|] eqn:Hx.
    + apply expected_customer_some in Hx as (_ & -> & Ht & _).
      unfold expected_email_errors. by rewrite Ht.
    + rewrite customer_messages.
      change ("name" =? "email")%string with false.
      change ("email" =? "email")%string with true.
      change ("image_url" =? "email")%string with false.
      change ("image_upload" =? "email")%string with false.
      cbn [app]. rewrite app_nil_r.
      cbn [update_customer_input in_email]. rewrite email_parse.
      unfold expected_email_errors, msg_email.
      destruct (formData_get fd "email") as [| | e | f' | fs];
        try reflexivity.
      destruct (emailRegex_test env e); reflexivity.
  - rewrite (updateCustomer_field_errors _ _ _ _ _ _ f Hf).
    destruct (expected_customer (emailRegex_test env) fd) as [d|] eqn:Hx.
    + apply expected_customer_some in Hx as (_ & _ & _ & -> & _). reflexivity.
    + rewrite customer_messages.
      change ("name" =? "image_url")%string with false.
      change ("email" =? "image_url")%string with false.
      change ("image_url" =? "image_url")%string with true.
      change ("image_upload" =? "image_url")%string with false.
      cbn [app]. rewrite app_nil_r.
      cbn [update_customer_input in_image_url]. rewrite image_url_parse.
      destruct (formData_get fd "image_url") as [| | u | f' | fs]; reflexivity.
  - intros k K1 K2 K3 K4.
    rewrite (updateCustomer_field_errors _ _ _ _ _ _ f Hf), customer_messages.
    apply String.eqb_neq in K1, K2, K3, K4.
    rewrite (String.eqb_sym "name" k), (String.eqb_sym "email" k),
      (String.eqb_sym "image_url" k), (String.eqb_sym "image_upload" k),
      K1, K2, K3, K4.
    by destruct (expected_customer _ _).
Qed.

(** X6. [createCustomer] never reaches the store and never returns: it
    hands the schema an object without [image_upload], the transform of
    that field throws on it, and every call completes by throwing a
    [ReferenceError], with no event and the world as it was. *)
Theorem createCustomer_never_stores (prev : StateCustomer) (fd : FormData)
    (env : Env) (w : World) :
  fst (createCustomer prev fd env w) = Throw ReferenceError
  /\ snd (createCustomer prev fd env w) = w
  /\ events_of (createCustomer prev fd) env w = []
  /\ returned_message (createCustomer prev fd env w) = None.
Proof.
  pose proof (createCustomer_always_throws prev fd env w) as Hr.
  split; [by rewrite Hr|]. split; [by rewrite Hr|].
  split; [by apply events_of_unchanged in Hr|].
  unfold returned_message. by rewrite Hr.
Qed.

Lemma customer_field_errors_witness :
  field_errors (updateCustomer (js "7") no_state bad_email_form quiet_env
                  empty_world) "email"
  = Some [js "Email no válido"]
  /\ field_errors (updateCustomer (js "7") no_state bad_email_form quiet_env
                     empty_world) "id"
     = None.
Proof.
  destruct (customer_field_errors (js "7") no_state bad_email_form quiet_env
              empty_world photo eq_refl) as (H1 & _ & Hk).
  split; [rewrite H1; by vm_compute|].
  assert (K1 : "id"%string <> "name"%string) by discriminate.
  assert (K2 : "id"%string <> "email"%string) by discriminate.
  assert (K3 : "id"%string <> "image_url"%string) by discriminate.
  assert (K4 : "id"%string <> "image_upload"%string) by discriminate.
  exact (Hk "id"%string K1 K2 K3 K4).
Defined.

(** ** The file name as a path segment *)
Section Segment.

Lemma extname_loop_scan (p : jsstring) (n : nat) :
  forall st, (n <= length p)%nat -> ext_scan p n st ->
             exists m, ext_scan p m (NodePath.extname_loop p n st).
Proof.
  induction n as [|i IH]; intros st Hn Hinv; cbn [NodePath.extname_loop].
  - by exists 0%nat.
  - destruct (N.eqb_spec (NodePath.charCodeAt p i) NodePath.CHAR_FORWARD_SLASH)
      as [Hs|Hs].
    + destruct (NodePath.matchedSlash st) eqn:Hm; cbn [negb].
      * apply IH; [lia|].
        destruct Hinv as (H0 & H1 & H2 & H3 & H4).
        pose proof (H0 Hm) as He. pose proof (H1 He) as Hd.
        unfold ext_scan. rewrite He, Hd.
        repeat split; intros; lia.
      * exists (S i). destruct Hinv as (H0 & H1 & H2 & H3 & H4).
        unfold ext_scan.
        cbn [NodePath.end_ NodePath.startDot NodePath.preDotState
             NodePath.matchedSlash].
        split; [discriminate|]. split; [exact H1|]. split; [exact H2|].
        split; [exact H3 | exact H4].
    + apply IH; [lia|].
      destruct Hinv as (H0 & H1 & H2 & H3 & H4).
      assert (Hrange : forall (P : N -> Prop) (e : Z),
                P (NodePath.charCodeAt p i) ->
                (forall j : nat, (Z.of_nat (S i) <= Z.of_nat j < e)%Z ->
                                 P (NodePath.charCodeAt p j)) ->
                forall j : nat, (Z.of_nat i <= Z.of_nat j < e)%Z ->
                                P (NodePath.charCodeAt p j)).
      { intros P e Hi Hr j Hj. destruct (decide (j = i)) as [->|Hne];
          [exact Hi | apply Hr; lia]. }
      destruct (Z.eqb_spec (NodePath.end_ st) (-1)) as [He|He];
        destruct (N.eqb_spec (NodePath.charCodeAt p i) NodePath.CHAR_DOT)
          as [Hd|Hd];
        cbn [NodePath.end_ NodePath.startDot NodePath.preDotState
             NodePath.matchedSlash negb];
        repeat (match goal with
                | |- context [(?a =? ?b)%Z] => destruct (Z.eqb_spec a b)
                end;
                cbn [NodePath.end_ NodePath.startDot NodePath.preDotState
                     NodePath.matchedSlash negb]);
        unfold ext_scan;
        cbn [NodePath.end_ NodePath.startDot NodePath.preDotState
             NodePath.matchedSlash];
        try (specialize (H1 He)); try (specialize (H2 He)).
      all: (split; [intros; first [congruence | lia | tauto]|]).
      all: (split; [intros; first [congruence | lia | tauto]|]).
      all: (split; [intros _; split; [lia|];
                    first [ apply (Hrange (fun c => c <> 47)); [exact Hs|];
                            first [ apply H2 | intros; lia ]
                          | intros; lia ]|]).
      all: try lia.
      all: split;
        [ intros Hsd j Hj;
          first [ lia
                | congruence
                | revert j Hj; apply (Hrange (fun c => c <> 46)); [exact Hd|];
                  first [ apply H3; assumption | intros; lia ] ]
        | intros Hsd; split;
          [ first [ lia | destruct (H4 Hsd) as [? _]; lia ]
          | split;
            [ first [ rewrite Nat2Z.id; exact Hd | apply (H4 Hsd) ]
            | intros j Hj;
              first [ lia
                    | apply H3; [assumption | lia]
                    | apply (H4 Hsd); lia ] ] ] ].
Qed.

(** The extension is empty, or the dot followed by units that are
    neither a dot nor a separator. *)
Lemma extname_shape (p : jsstring) :
  NodePath.extname p = []
  \/ exists rest, NodePath.extname p = 46 :: rest /\ Forall plain_unit rest.
Proof.
  unfold NodePath.extname.
  set (st0 := {| NodePath.startDot := -1; NodePath.startPart := 0;
                 NodePath.end_ := -1; NodePath.matchedSlash := true;
                 NodePath.preDotState := 0 |}).
  destruct (extname_loop_scan p (length p) st0) as (m & H0 & H1 & H2 & H3 & H4).
  { lia. }
  { unfold ext_scan, st0. cbn. repeat split; intros; lia. }
  set (st := NodePath.extname_loop p (length p) st0) in *.
  destruct (_ || _ || _ || _)%bool eqn:E; [by left|right].
  apply orb_false_elim in E as [E _]. apply orb_false_elim in E as [E _].
  apply orb_false_elim in E as [E1 E2].
  apply Z.eqb_neq in E1, E2.
  destruct (H2 E2) as [Hb Hslash]. destruct (H4 E1) as (Hsd & Hdot & Hnodot).
  unfold slice.
  assert (Hlt : (Z.to_nat (NodePath.startDot st) < length p)%nat) by lia.
  apply lookup_lt_is_Some in Hlt as [c Hc].
  unfold NodePath.charCodeAt in Hdot. rewrite nth_lookup, Hc in Hdot.
  cbn in Hdot. subst c. rewrite (drop_S _ _ _ Hc).
  destruct (Z.to_nat (NodePath.end_ st - NodePath.startDot st)) as [|k] eqn:Ek;
    [lia|].
  cbn [take]. eexists. split; [reflexivity|].
  apply Forall_lookup. intros i c Hi.
  apply lookup_take_Some in Hi as [Hi Hik].
  rewrite lookup_drop in Hi.
  assert (Hch : NodePath.charCodeAt p (S (Z.to_nat (NodePath.startDot st)) + i) = c).
  { unfold NodePath.charCodeAt. by rewrite nth_lookup, Hi. }
  rewrite <- Hch. split.
  - apply Hnodot. lia.
  - apply Hslash. lia.
Qed.

(** *** The units of the timestamp *)

Lemma digits_loop_digits (fuel : nat) :
  forall n acc, all_digits acc -> all_digits (digits_loop fuel n acc).
Proof.
  induction fuel as [|k IH]; intros n acc Hacc; cbn [digits_loop]; [exact Hacc|].
  assert (Hd : all_digits ((48 + n mod 10) :: acc)).
  { constructor; [|exact Hacc]. unfold is_digit.
    pose proof (N.mod_upper_bound n 10 ltac:(lia)) as Hr.
    set (r := n mod 10) in *. clearbody r.
    apply andb_true_intro. split; apply N.leb_le; lia. }
  destruct (n / 10 =? 0); [exact Hd | by apply IH].
Qed.

Lemma String_of_int_units (z : Z) : Forall stamp_unit (String_of_int z).
Proof.
  assert (H : forall n, Forall stamp_unit (digits_of_N n)).
  { intros n. unfold digits_of_N.
    eapply Forall_impl; [apply digits_loop_digits; constructor|].
    intros c Hc. by left. }
  destruct z; cbn [String_of_int]; try apply H.
  constructor; [right; by left | apply H].
Qed.

Lemma padStart_zero_units (s : jsstring) (w : nat) :
  Forall stamp_unit s -> Forall stamp_unit (padStart s w (js "0")).
Proof.
  intros Hs. unfold padStart.
  destruct (w <=? length s)%nat; [exact Hs|].
  change (js "0") with [48]. apply Forall_app. split; [|exact Hs].
  apply Forall_take, Forall_concat, Forall_replicate.
  constructor; [by left | constructor].
Qed.

Lemma timestamp_units (now : Date) : Forall stamp_unit (timestamp now).
Proof.
  unfold timestamp.
  assert (Hu : Forall stamp_unit (js "_")).
  { change (js "_") with [95]. constructor; [right; by right | constructor]. }
  repeat (apply Forall_app; split);
    first [ exact Hu
          | apply String_of_int_units
          | apply padStart_zero_units, String_of_int_units ].
Qed.

Lemma stamp_unit_plain (c : N) : stamp_unit c -> plain_unit c.
Proof.
  unfold stamp_unit, plain_unit, is_digit.
  intros [H|[->| ->]]; [|lia|lia].
  apply andb_prop in H as [H1%N.leb_le H2%N.leb_le]. lia.
Qed.

Lemma replace_unsafe_plain (s : jsstring) : Forall plain_unit (replace_unsafe s).
Proof.
  eapply Forall_impl; [apply replace_unsafe_safe|].
  intros c Hc. unfold plain_unit.
  split; intros ->; by vm_compute in Hc.
Qed.

(** The part of the file name before the extension. *)
Lemma sanitized_stem_plain (now : Date) (originalFilename : jsstring) :
  exists stem,
    sanitizeAndTimestampFilename now originalFilename
    = stem ++ NodePath.extname originalFilename
    /\ Forall plain_unit stem /\ In 95 stem.
Proof.
  exists (replace_unsafe (NodePath.basename originalFilename
                            (NodePath.extname originalFilename))
          ++ js "_" ++ timestamp now).
  split; [|split].
  - unfold sanitizeAndTimestampFilename. by rewrite <- !app_assoc.
  - apply Forall_app. split; [apply replace_unsafe_plain|].
    apply Forall_app. split.
    + change (js "_") with [95]. constructor; [split; lia | constructor].
    + eapply Forall_impl; [apply timestamp_units | apply stamp_unit_plain].
  - apply in_or_app. right. change (js "_") with [95]. by left.
Qed.

End Segment.

(** X7. For every clock reading and every original name, the file name
    [sanitizeAndTimestampFilename] returns holds no path separator: it is
    one path segment, and since it holds an underscore it is neither
    empty nor [.] nor [..]. *)
Theorem sanitized_filename_is_one_segment (now : Date)
    (originalFilename : jsstring) :
  Forall (fun c => c <> 47) (sanitizeAndTimestampFilename now originalFilename)
  /\ In 95 (sanitizeAndTimestampFilename now originalFilename).
Proof.
  destruct (sanitized_stem_plain now originalFilename) as (stem & -> & Hs & Hu).
  split.
  - apply Forall_app. split.
    + eapply Forall_impl; [exact Hs|]. by intros c [_ ?].
    + destruct (extname_shape originalFilename) as [-> | (rest & -> & Hr)];
        [constructor|].
      constructor; [lia|]. eapply Forall_impl; [exact Hr|]. by intros c [_ ?].
  - apply in_or_app. by left.
Qed.

(** ** The extension survives *)
Section Extension.
Variable p : jsstring.

(** Without a dot below [n], the loop finds none. *)
Lemma extname_loop_no_dot (n : nat) :
  forall st,
    (forall j, (j < n)%nat -> plain_unit (NodePath.charCodeAt p j)) ->
    NodePath.startDot st = (-1)%Z ->
    NodePath.startDot (NodePath.extname_loop p n st) = (-1)%Z.
Proof.
  induction n as [|i IH]; intros st Hp Hsd; cbn [NodePath.extname_loop];
    [exact Hsd|].
  destruct (Hp i ltac:(lia)) as [Hd Hs].
  destruct (N.eqb_spec (NodePath.charCodeAt p i) NodePath.CHAR_FORWARD_SLASH);
    [done|].
  destruct (N.eqb_spec (NodePath.charCodeAt p i) NodePath.CHAR_DOT); [done|].
  apply IH; [intros; apply Hp; lia|].
  destruct (NodePath.end_ st =? -1)%Z;
    cbn [NodePath.startDot]; rewrite ?Hsd;
    cbn [Z.eqb Pos.eqb negb NodePath.startDot]; rewrite ?Hsd; reflexivity.
Qed.

(** Units after the last dot: the loop fixes [end] at the first of them
    and changes nothing else. *)
Lemma extname_loop_tail (m k : nat) :
  forall st,
    (forall j, (m <= j < m + k)%nat -> plain_unit (NodePath.charCodeAt p j)) ->
    NodePath.startDot st = (-1)%Z ->
    exists st',
      NodePath.extname_loop p (m + k) st = NodePath.extname_loop p m st'
      /\ NodePath.startDot st' = (-1)%Z
      /\ NodePath.startPart st' = NodePath.startPart st
      /\ NodePath.preDotState st' = NodePath.preDotState st
      /\ NodePath.end_ st'
         = (if decide (k = 0%nat) then NodePath.end_ st
            else if decide (NodePath.end_ st = -1) then Z.of_nat (m + k)
                 else NodePath.end_ st)%Z.
Proof.
  induction k as [|k IH]; intros st Hp Hsd.
  - exists st. rewrite Nat.add_0_r. by rewrite decide_True.
  - replace (m + S k)%nat with (S (m + k)) by lia.
    cbn [NodePath.extname_loop].
    destruct (Hp (m + k)%nat ltac:(lia)) as [Hd Hs].
    destruct (N.eqb_spec (NodePath.charCodeAt p (m + k)) NodePath.CHAR_FORWARD_SLASH);
      [done|].
    destruct (N.eqb_spec (NodePath.charCodeAt p (m + k)) NodePath.CHAR_DOT);
      [done|].
    rewrite decide_False by lia.
    destruct (Z.eqb_spec (NodePath.end_ st) (-1)) as [He|He];
      cbn [NodePath.startDot]; rewrite ?Hsd; cbn [Z.eqb Pos.eqb negb].
    + edestruct IH as (st' & -> & H1 & H2 & H3 & H4);
        [intros; apply Hp; lia | | ].
      { reflexivity. }
      exists st'. cbn [NodePath.startDot NodePath.startPart NodePath.preDotState
                       NodePath.end_] in *.
      rewrite decide_True by exact He.
      repeat (split; [done|]). rewrite H4.
      destruct (decide (k = 0%nat)) as [->|]; [f_equal; lia|].
      rewrite decide_False by lia. lia.
    + edestruct IH as (st' & -> & H1 & H2 & H3 & H4);
        [intros; apply Hp; lia | exact Hsd | ].
      exists st'. rewrite decide_False by exact He.
      repeat (split; [done|]). rewrite H4.
      destruct (decide (k = 0%nat)); [done|]. by rewrite decide_False.
Qed.

(** Units before the last dot: the loop only records that it saw some. *)
Lemma extname_loop_stem (n : nat) :
  forall st,
    (forall j, (j < n)%nat -> plain_unit (NodePath.charCodeAt p j)) ->
    NodePath.startDot st <> (-1)%Z -> NodePath.end_ st <> (-1)%Z ->
    (0 < n)%nat ->
    NodePath.extname_loop p n st
    = {| NodePath.startDot := NodePath.startDot st;
         NodePath.startPart := NodePath.startPart st;
         NodePath.end_ := NodePath.end_ st;
         NodePath.matchedSlash := NodePath.matchedSlash st;
         NodePath.preDotState := -1 |}.
Proof.
  induction n as [|i IH]; intros st Hp Hsd He Hn; [lia|].
  cbn [NodePath.extname_loop].
  destruct (Hp i ltac:(lia)) as [Hd Hs].
  destruct (N.eqb_spec (NodePath.charCodeAt p i) NodePath.CHAR_FORWARD_SLASH);
    [done|].
  destruct (N.eqb_spec (NodePath.charCodeAt p i) NodePath.CHAR_DOT); [done|].
  destruct (Z.eqb_spec (NodePath.end_ st) (-1)); [done|].
  destruct (Z.eqb_spec (NodePath.startDot st) (-1)); [done|].
  cbn [negb].
  destruct i as [|i]; [reflexivity|].
  rewrite IH; [reflexivity | intros; apply Hp; lia | done | done | lia].
Qed.

End Extension.

(** A name made of a non-empty stem and an extension of the shape
    [extname] returns has that extension. *)
Lemma extname_of_stem_ext (stem ext : jsstring) :
  Forall plain_unit stem -> stem <> [] ->
  (ext = [] \/ exists rest, ext = 46 :: rest /\ Forall plain_unit rest) ->
  NodePath.extname (stem ++ ext) = ext.
Proof.
  intros Hstem Hne Hext.
  assert (Hat : forall (l : jsstring) (pre post : jsstring) j q,
            Forall plain_unit l -> (length pre <= j < length pre + length l)%nat ->
            q = pre ++ l ++ post ->
            plain_unit (NodePath.charCodeAt q j)).
  { intros l pre post j q Hl Hj ->. unfold NodePath.charCodeAt.
    destruct (lookup_lt_is_Some_2 l (j - length pre)%nat ltac:(lia)) as [c Hc].
    rewrite nth_lookup, lookup_app_r by lia.
    rewrite lookup_app_l by lia. rewrite Hc. cbn.
    by eapply Forall_lookup_1. }
  unfold NodePath.extname.
  set (st0 := {| NodePath.startDot := -1; NodePath.startPart := 0;
                 NodePath.end_ := -1; NodePath.matchedSlash := true;
                 NodePath.preDotState := 0 |}).
  destruct Hext as [-> | (rest & -> & Hrest)].
  - rewrite extname_loop_no_dot; [reflexivity | | reflexivity].
    intros j Hj. rewrite app_nil_r in Hj.
    apply (Hat stem [] [] j _ Hstem); [cbn; lia | reflexivity].
  - rewrite length_app. cbn [length].
    replace (length stem + S (length rest))%nat
      with (S (length stem) + length rest)%nat by lia.
    destruct (extname_loop_tail (stem ++ 46 :: rest) (S (length stem))
                (length rest) st0) as (st1 & -> & H1 & H2 & H3 & H4);
      [ | reflexivity | ].
    { intros j Hj.
      apply (Hat rest (stem ++ [46]) [] j _ Hrest).
      - rewrite length_app. cbn. lia.
      - by rewrite app_nil_r, <- app_assoc. }
    cbn [NodePath.extname_loop].
    assert (Hdot : NodePath.charCodeAt (stem ++ 46 :: rest) (length stem) = 46).
    { unfold NodePath.charCodeAt. rewrite nth_lookup, lookup_app_r by lia.
      by rewrite Nat.sub_diag. }
    rewrite Hdot. cbn [N.eqb Pos.eqb NodePath.CHAR_FORWARD_SLASH NodePath.CHAR_DOT].
    assert (Hend : NodePath.end_ st1
                   = if decide (length rest = 0%nat) then (-1)%Z
                     else Z.of_nat (S (length stem) + length rest)).
    { rewrite H4. cbn [NodePath.end_ st0].
      destruct (decide (length rest = 0%nat)); [reflexivity|].
      by rewrite decide_True. }
    clear H4.
    assert (Hlen : (0 < length stem)%nat) by (destruct stem; [done | cbn; lia]).
    assert (Hpl : forall j, (j < length stem)%nat ->
                plain_unit (NodePath.charCodeAt (stem ++ 46 :: rest) j)).
    { intros j Hj.
      apply (Hat stem [] (46 :: rest) j _ Hstem); [cbn; lia | reflexivity]. }
    destruct (Z.eqb_spec (NodePath.end_ st1) (-1)) as [He|He];
      cbn [NodePath.startDot]; rewrite H1;
      cbn [Z.eqb Pos.eqb NodePath.startDot NodePath.end_ NodePath.startPart
           NodePath.matchedSlash NodePath.preDotState];
      (rewrite extname_loop_stem;
       [ | exact Hpl | cbn [NodePath.startDot]; lia
         | cbn [NodePath.end_]; first [exact He | lia] | exact Hlen ]);
      cbn [NodePath.startDot NodePath.end_ NodePath.startPart
           NodePath.matchedSlash NodePath.preDotState];
      destruct (Z.eqb_spec (Z.of_nat (length stem)) (-1)); try lia;
      cbn [orb andb Z.eqb Pos.eqb].
    + destruct (Z.eqb_spec (Z.of_nat (length stem) + 1) (-1)); [lia|].
      cbn [orb]. unfold slice.
      rewrite Nat2Z.id, drop_app_length.
      apply take_ge.
      destruct (decide (length rest = 0%nat)) as [E|E]; [|lia].
      cbn [length]. lia.
    + destruct (Z.eqb_spec (NodePath.end_ st1) (-1)); [lia|].
      cbn [orb]. unfold slice.
      rewrite Nat2Z.id, drop_app_length.
      apply take_ge.
      destruct (decide (length rest = 0%nat)) as [E|E]; [lia|].
      cbn [length]. lia.
Qed.

(** X8. The file name [sanitizeAndTimestampFilename] returns has the
    extension of the original name, as [path.extname] reads it: the
    sanitized stem and the timestamp go before the extension and add no
    dot and no separator. *)
Theorem sanitized_filename_keeps_the_extension (now : Date)
    (originalFilename : jsstring) :
  NodePath.extname (sanitizeAndTimestampFilename now originalFilename)
  = NodePath.extname originalFilename.
Proof.
  destruct (sanitized_stem_plain now originalFilename) as (stem & -> & Hs & Hu).
  apply extname_of_stem_ext.
  - exact Hs.
  - intros ->. destruct Hu.
  - apply extname_shape.
Qed.

(** ** The timestamp tells clock readings apart *)
Section Readings.

(** [String(n)] tells integers apart. *)
Lemma String_of_int_inj (a b : Z) : String_of_int a = String_of_int b -> a = b.
Proof.
  assert (Hsign : forall p n, 45 :: digits_of_N (Npos p) <> digits_of_N n).
  { intros p n H.
    assert (Hd : all_digits (digits_of_N n))
      by (apply digits_loop_digits; constructor).
    rewrite <- H in Hd. apply Forall_cons_1 in Hd as [Hd _]. discriminate. }
  assert (Hval : forall m n, digits_of_N m = digits_of_N n -> m = n).
  { intros m n H. by rewrite <- (digits_of_N_value m), H, digits_of_N_value. }
  destruct a as [|p|p], b as [|q|q]; cbn [String_of_int Z.to_N]; intros H;
    try reflexivity;
    try (apply Hval in H; congruence);
    try (exfalso; eapply Hsign; first [exact H | symmetry; exact H]).
  injection H as H. apply Hval in H. congruence.
Qed.

(** A padded field that fits its width tells its values apart. *)
Lemma pad2_inj (a b : Z) :
  (0 <= a <= 99)%Z -> (0 <= b <= 99)%Z ->
  padStart (String_of_int a) 2 (js "0") = padStart (String_of_int b) 2 (js "0") ->
  a = b.
Proof.
  intros Ha Hb E. pose proof (pad2_value a Ha) as Va.
  rewrite E, (pad2_value b Hb) in Va. lia.
Qed.

Lemma pad3_inj (a b : Z) :
  (0 <= a <= 999)%Z -> (0 <= b <= 999)%Z ->
  padStart (String_of_int a) 3 (js "0") = padStart (String_of_int b) 3 (js "0") ->
  a = b.
Proof.
  intros Ha Hb E. pose proof (pad3_value a Ha) as Va.
  rewrite E, (pad3_value b Hb) in Va. lia.
Qed.

Lemma pad2_length (z : Z) :
  (0 <= z <= 99)%Z -> length (padStart (String_of_int z) 2 (js "0")) = 2%nat.
Proof. intros Hz. exact (proj1 (digits_of_width_spec _ _ (pad2_digits z Hz))). Qed.

Lemma pad3_length (z : Z) :
  (0 <= z <= 999)%Z -> length (padStart (String_of_int z) 3 (js "0")) = 3%nat.
Proof. intros Hz. exact (proj1 (digits_of_width_spec _ _ (pad3_digits z Hz))). Qed.

(** Within the ranges of the getters, equal timestamps come from equal
    readings. *)
Lemma timestamp_inj (now1 now2 : Date) :
  fields_in_range (local now1) -> fields_in_range (local now2) ->
  timestamp now1 = timestamp now2 -> local now1 = local now2.
Proof.
  unfold timestamp, fields_in_range.
  destruct (local now1) as [y1 mo1 d1 h1 mi1 s1 ms1].
  destruct (local now2) as [y2 mo2 d2 h2 mi2 s2 ms2].
  cbn [fullYear month date hours minutes seconds milliseconds].
  intros (Hmo1 & Hd1 & Hh1 & Hmi1 & Hs1 & Hms1)
         (Hmo2 & Hd2 & Hh2 & Hmi2 & Hs2 & Hms2) E.
  pose proof (pad2_length (mo1 + 1) ltac:(lia)) as L1.
  pose proof (pad2_length (mo2 + 1) ltac:(lia)) as L2.
  pose proof (pad2_length d1 ltac:(lia)) as L3.
  pose proof (pad2_length d2 ltac:(lia)) as L4.
  pose proof (pad2_length h1 ltac:(lia)) as L5.
  pose proof (pad2_length h2 ltac:(lia)) as L6.
  pose proof (pad2_length mi1 ltac:(lia)) as L7.
  pose proof (pad2_length mi2 ltac:(lia)) as L8.
  pose proof (pad2_length s1 ltac:(lia)) as L9.
  pose proof (pad2_length s2 ltac:(lia)) as L10.
  pose proof (pad3_length ms1 ltac:(lia)) as L11.
  pose proof (pad3_length ms2 ltac:(lia)) as L12.
  change (js "_") with [95] in *.
  assert (Hlen : length (String_of_int y1) = length (String_of_int y2)).
  { apply (f_equal length) in E. rewrite !length_app in E. cbn [length] in E.
    lia. }
  apply app_inj_1 in E as [Ey E]; [|exact Hlen].
  apply app_inj_1 in E as [Emo E]; [|lia].
  apply app_inj_1 in E as [Ed E]; [|lia].
  cbn [app] in E. injection E as E.
  apply app_inj_1 in E as [Eh E]; [|lia].
  apply app_inj_1 in E as [Emi E]; [|lia].
  apply app_inj_1 in E as [Es E]; [|lia].
  cbn [app] in E. injection E as E.
  apply String_of_int_inj in Ey.
  apply pad2_inj in Emo, Ed, Eh, Emi, Es; try lia.
  apply pad3_inj in E; try lia.
  f_equal; lia.
Qed.

End Readings.

(** X9. Two uploads of the same original name get different file names
    as soon as the local clock readings differ, be it by a millisecond:
    within the ranges of the [Date] getters the timestamp determines the
    reading, whatever the year. *)
Theorem distinct_readings_give_distinct_filenames (now1 now2 : Date)
    (originalFilename : jsstring) :
  fields_in_range (local now1) -> fields_in_range (local now2) ->
  local now1 <> local now2 ->
  sanitizeAndTimestampFilename now1 originalFilename
  <> sanitizeAndTimestampFilename now2 originalFilename.
Proof.
  intros H1 H2 Hne E. apply Hne. apply timestamp_inj; [exact H1 | exact H2 |].
  unfold sanitizeAndTimestampFilename in E. cbv zeta in E.
  apply app_inv_head in E. change (js "_") with [95] in E.
  cbn [app] in E. injection E as E.
  by apply app_inv_tail in E.
Qed.

Lemma distinct_readings_give_distinct_filenames_witness :
  local scenario_clock <> local next_millisecond
  /\ sanitizeAndTimestampFilename scenario_clock (js "photo.png")
     <> sanitizeAndTimestampFilename next_millisecond (js "photo.png").
Proof.
  assert (Hne : local scenario_clock <> local next_millisecond)
    by (intros H; discriminate H).
  split; [exact Hne|].
  apply (distinct_readings_give_distinct_filenames scenario_clock
           next_millisecond (js "photo.png")).
  - unfold fields_in_range, scenario_clock; simpl; lia.
  - unfold fields_in_range, next_millisecond; simpl; lia.
  - exact Hne.
Defined.

(** ** The date of a new invoice *)
Section InvoiceDate.

Lemma split_first_app (sep : N) (a b : jsstring) :
  Forall (fun c => c <> sep) a -> split_first sep (a ++ sep :: b) = a.
Proof.
  induction a as [|c a IH]; intros Ha; cbn [app split_first].
  - by rewrite N.eqb_refl.
  - apply Forall_cons_1 in Ha as [Hc Ha].
    destruct (N.eqb_spec c sep); [done|]. by rewrite IH.
Qed.

Lemma pad_int_units (z : Z) (w : nat) : Forall stamp_unit (pad_int z w).
Proof. apply padStart_zero_units, String_of_int_units. Qed.

Lemma stamp_unit_not_T (s : jsstring) :
  Forall stamp_unit s -> Forall (fun c => c <> 84) s.
Proof.
  intros Hs. eapply Forall_impl; [exact Hs|]. unfold stamp_unit, is_digit.
  intros c [H|[->| ->]]; [|lia|lia].
  apply andb_prop in H as [_ H%N.leb_le]. lia.
Qed.

Lemma isoYear_not_T (y : Z) : Forall (fun c => c <> 84) (isoYear y).
Proof.
  unfold isoYear.
  destruct (_ && _)%bool; [apply stamp_unit_not_T, pad_int_units|].
  destruct (y <? 0)%Z.
  - change (js "-") with [45]. constructor; [lia|].
    apply stamp_unit_not_T, pad_int_units.
  - change (js "+") with [43]. constructor; [lia|].
    apply stamp_unit_not_T, pad_int_units.
Qed.

(** The part of the ISO string before the [T]. *)
Lemma toISOString_day (d : Date) :
  split_first 84 (toISOString d)
  = isoYear (fullYear (utc d)) ++ js "-" ++ pad_int (month (utc d) + 1) 2
      ++ js "-" ++ pad_int (date (utc d)) 2.
Proof.
  assert (HT : js "T" = [84]) by reflexivity.
  assert (Hd : js "-" = [45]) by reflexivity.
  unfold toISOString. cbv zeta. rewrite HT, Hd. clear HT Hd.
  set (rest := pad_int (hours (utc d)) 2 ++ _).
  set (day := isoYear (fullYear (utc d)) ++ [45]
                ++ pad_int (month (utc d) + 1) 2 ++ [45]
                ++ pad_int (date (utc d)) 2).
  transitivity (split_first 84 (day ++ 84 :: rest)).
  - f_equal. subst day. by rewrite <- !app_assoc.
  - apply split_first_app. subst day.
    repeat (apply Forall_app; split);
      first [ apply isoYear_not_T
            | apply stamp_unit_not_T, pad_int_units
            | constructor; [lia | constructor] ].
Qed.

Lemma isoYear_length (y : Z) :
  (0 <= y <= 9999)%Z -> length (isoYear y) = 4%nat.
Proof.
  intros Hy. unfold isoYear.
  destruct (Z.leb_spec 0 y); [|lia]. destruct (Z.leb_spec y 9999); [|lia].
  cbn [andb].
  destruct (Z.lt_ge_cases y 1000) as [Hlt|Hge].
  - assert (Hw : digits_of_width 4 (pad_int y 4) = true).
    { apply (checked_on_range (fun z => digits_of_width 4 (pad_int z 4)) 0 1000);
        [by vm_compute | lia]. }
    exact (proj1 (digits_of_width_spec _ _ Hw)).
  - destruct (digits_of_width_spec _ _ (year4_digits y ltac:(lia))) as [L _].
    unfold pad_int, padStart. cbv zeta. rewrite L. cbn [Nat.leb]. exact L.
Qed.

End InvoiceDate.

(** X10. The date [createInvoice] stores with a new invoice is the UTC
    calendar day of the call, not the local one: the year of
    [toISOString], a dash, the two-digit month, a dash and the two-digit
    day of the month, all read in UTC; ten characters for the years 0 to
    9999. *)
Theorem invoice_date_is_the_utc_day (prev : State) (fd : FormData)
    (env : Env) (w : World) (d : InvoiceData) :
  expected_invoice fd = Some d ->
  let u := utc (now env) in
  let day := isoYear (fullYear u) ++ js "-" ++ pad_int (month u + 1) 2
               ++ js "-" ++ pad_int (date u) 2 in
  sql_statements (events_of (createInvoice prev fd) env w)
  = [INSERT_INTO "invoices" ["customer_id"; "amount"; "status"; "date"]%string
       [SqlText (customerId d); SqlNumber (amount d * 100)%float;
        SqlText (status d); SqlText day]]
  /\ ((0 <= fullYear u <= 9999)%Z -> (0 <= month u <= 11)%Z ->
      (1 <= date u <= 31)%Z -> length day = 10%nat).
Proof.
  intros Hx u day. split.
  - rewrite createInvoice_events. unfold CreateInvoice_safeParse.
    rewrite invoice_parse_expected, Hx. unfold mutation_events, insert_invoice.
    rewrite toISOString_day. fold u. fold day.
    destruct (sql_rejects env _ (db w)); reflexivity.
  - intros Hy Hm Hd. subst day. rewrite !length_app.
    rewrite isoYear_length by exact Hy. unfold pad_int.
    rewrite !pad2_length by lia. reflexivity.
Qed.

Lemma invoice_date_is_the_utc_day_witness :
  date (local (now late_evening_env)) = 9%Z
  /\ sql_statements
       (events_of (createInvoice no_state (invoice_form "10.50"))
          late_evening_env empty_world)
     = [INSERT_INTO "invoices" ["customer_id"; "amount"; "status"; "date"]%string
          [SqlText (js "c1"); SqlNumber 1050%float; SqlText (js "pending");
           SqlText (js "2024-03-10")]].
Proof.
  split; [reflexivity|].
  assert (Hx : expected_invoice (invoice_form "10.50")
               = Some {| customerId := js "c1"; amount := 10.5%float;
                         status := js "pending" |}) by (by vm_compute).
  destruct (invoice_date_is_the_utc_day no_state (invoice_form "10.50")
              late_evening_env empty_world _ Hx) as [H _].
  rewrite H. by vm_compute.
Defined.

(** ** Updates of a customer that validate *)
Section CustomerUpdates.

(** The run of an update whose submission validates. *)
Lemma updateCustomer_valid_run (id : jsstring) (prev : StateCustomer)
    (fd : FormData) (env : Env) (w : World) (d : CustomerData) :
  expected_customer (emailRegex_test env) fd = Some d ->
  exists f,
    formData_get fd "image_upload" = VFile f
    /\ image_upload d = VFile f
    /\ updateCustomer id prev fd env w
       = if writeFile_rejects env (upload_target env f) (file_bytes f)
         then (Normal (failed (js "Error occured al grabar archivo.")),
               emit (EvConsoleLog [js "Error occured "; error_text FileSystemError])
                 (emit (EvWriteFile (upload_target env f) (file_bytes f) false)
                    (emit (EvConsoleLog [upload_name env f]) w)))
         else
           if sql_rejects env (update_customer id d (upload_name env f)) (db w)
           then (Normal (failed (js "Database Error: Failed to Update Customer.")),
                 emit (EvConsoleLog [js "Error occured "; upload_name env f])
                   (emit (EvSql (update_customer id d (upload_name env f)) false)
                      (written env f w)))
           else (Throw (NEXT_REDIRECT "/dashboard/customers"),
                 listed "/dashboard/customers"
                   (stored env (update_customer id d (upload_name env f))
                      (written env f w))).
Proof.
  intros Hx. pose proof Hx as Hx'.
  apply expected_customer_some in Hx' as (_ & _ & _ & _ & f & Hf & Hd & _).
  exists f. split; [exact Hf|]. split; [exact Hd|].
  rewrite updateCustomer_run. unfold UpdateCustomer_safeParse.
  rewrite customer_parse_expected, Hf, Hx, Hd. cbn [truthy negb]. cbv zeta.
  change (db (written env f w)) with (db w). reflexivity.
Qed.

(** The run of an update with a file whose submission does not
    validate. *)
Lemma updateCustomer_invalid_run (id : jsstring) (prev : StateCustomer)
    (fd : FormData) (env : Env) (w : World) (f : File) :
  formData_get fd "image_upload" = VFile f ->
  expected_customer (emailRegex_test env) fd = None ->
  updateCustomer id prev fd env w
  = (Normal (rejected (customer_field_issues (emailRegex_test env)
                         (update_customer_input fd))
               (js "Missing Fields. Failed to Update Invoice.")), w).
Proof.
  intros Hf Hx. rewrite updateCustomer_run. unfold UpdateCustomer_safeParse.
  by rewrite customer_parse_expected, Hf, Hx.
Qed.

Lemma valid_upload_events (id : jsstring) (prev : StateCustomer)
    (fd : FormData) (env : Env) (w : World) (d : CustomerData) (f : File) :
  expected_customer (emailRegex_test env) fd = Some d ->
  image_upload d = VFile f ->
  events_of (updateCustomer id prev fd) env w = upload_events id env w d f.
Proof.
  intros Hx Hf. pose proof Hx as Hx'.
  apply expected_customer_some in Hx' as (_ & _ & _ & _ & f' & Hg & Hd & _).
  rewrite updateCustomer_events. unfold UpdateCustomer_safeParse.
  rewrite customer_parse_expected, Hg, Hx. cbn [truthy negb]. by rewrite Hf.
Qed.

(** The issues of a submission do not depend on which string its
    [image_url] is. *)
Lemma customer_issues_without_url (t : jsstring -> bool) (fd1 fd2 : FormData)
    (u1 u2 : jsstring) :
  formData_get fd1 "name" = formData_get fd2 "name" ->
  formData_get fd1 "email" = formData_get fd2 "email" ->
  formData_get fd1 "image_upload" = formData_get fd2 "image_upload" ->
  formData_get fd1 "image_url" = VString u1 ->
  formData_get fd2 "image_url" = VString u2 ->
  customer_field_issues t (update_customer_input fd1)
  = customer_field_issues t (update_customer_input fd2).
Proof.
  intros Hn He Hf H1 H2. unfold customer_field_issues.
  cbn [update_customer_input in_name in_email in_image_url in_image_upload].
  rewrite Hn, He, Hf, H1, H2, !image_url_parse. reflexivity.
Qed.

End CustomerUpdates.

(** X11. [updateCustomer] ends in one of five ways: the redirect to the
    customers listing, the [ReferenceError] of the parse, or one of the
    three messages "Missing Fields. Failed to Update Invoice.", "Error
    occured al grabar archivo." and "Database Error: Failed to Update
    Customer.". It throws the [ReferenceError] exactly when the form
    holds no file under [image_upload]. Its branch "No files received."
    is never taken, because the entry it tests has passed the schema as
    a file, and for the same reason reading the name and the bytes of
    the upload never throws. *)
Theorem updateCustomer_ends_in_one_of_five_ways (id : jsstring)
    (prev : StateCustomer) (fd : FormData) (env : Env) (w : World) :
  (fst (updateCustomer id prev fd env w)
   = Throw (NEXT_REDIRECT "/dashboard/customers")
   \/ fst (updateCustomer id prev fd env w) = Throw ReferenceError
   \/ returned_message (updateCustomer id prev fd env w)
      = Some (js "Missing Fields. Failed to Update Invoice.")
   \/ returned_message (updateCustomer id prev fd env w)
      = Some (js "Error occured al grabar archivo.")
   \/ returned_message (updateCustomer id prev fd env w)
      = Some (js "Database Error: Failed to Update Customer."))
  /\ (fst (updateCustomer id prev fd env w) = Throw ReferenceError
      <-> FormSchemaCustomer.instanceof_File (formData_get fd "image_upload")
          = false)
  /\ returned_message (updateCustomer id prev fd env w)
     <> Some (js "No files received.")
  /\ fst (updateCustomer id prev fd env w) <> Throw TypeError.
Proof.
  assert (Hlen : forall m : jsstring,
            length m <> 18%nat -> Some m <> Some (js "No files received.")).
  { intros m Hm [= ->]. apply Hm. reflexivity. }
  unfold returned_message.
  destruct (FormSchemaCustomer.instanceof_File (formData_get fd "image_upload"))
    eqn:Hi.
  - destruct (formData_get fd "image_upload") as [| | | f |] eqn:Hf;
      try discriminate.
    destruct (expected_customer (emailRegex_test env) fd) as [d|] eqn:Hx.
    + destruct (updateCustomer_valid_run id prev fd env w d Hx)
        as (f' & _ & _ & ->).
      destruct (writeFile_rejects env _ _); [|destruct (sql_rejects env _ _)];
        cbn [fst failed message].
      * split; [right; right; right; left; reflexivity|].
        split; [split; discriminate|].
        split; [apply Hlen; by vm_compute | discriminate].
      * split; [right; right; right; right; reflexivity|].
        split; [split; discriminate|].
        split; [apply Hlen; by vm_compute | discriminate].
      * split; [left; reflexivity|]. split; [split; discriminate|].
        split; discriminate.
    + rewrite (updateCustomer_invalid_run id prev fd env w f Hf Hx).
      cbn [fst rejected message].
      split; [right; right; left; reflexivity|].
      split; [split; discriminate|].
      split; [apply Hlen; by vm_compute | discriminate].
  - rewrite (updateCustomer_without_file_throws id prev fd env w Hi).
    cbn [fst].
    split; [right; left; reflexivity|]. split; [split; reflexivity|].
    split; discriminate.
Qed.

(** X12. [updateCustomer] does not take the file back: once the write
    has succeeded the upload is on the disk, with the submitted bytes,
    whatever the store then says; when the store refuses the statement
    the rows stay as they were, the action returns "Database Error:
    Failed to Update Customer." without invalidating or navigating, and
    the file just written is left behind. *)
Theorem upload_outlives_a_refused_update (id : jsstring) (prev : StateCustomer)
    (fd : FormData) (env : Env) (w : World) (d : CustomerData) (f : File) :
  expected_customer (emailRegex_test env) fd = Some d ->
  image_upload d = VFile f ->
  writeFile_rejects env (upload_target env f) (file_bytes f) = false ->
  disk (snd (updateCustomer id prev fd env w)) !! upload_target env f
  = Some (file_bytes f)
  /\ (sql_rejects env (update_customer id d (upload_name env f)) (db w) = true ->
      db (snd (updateCustomer id prev fd env w)) = db w
      /\ disk (snd (updateCustomer id prev fd env w))
         = <[upload_target env f := file_bytes f]> (disk w)
      /\ returned_message (updateCustomer id prev fd env w)
         = Some (js "Database Error: Failed to Update Customer.")
      /\ existsb is_revalidate (events_of (updateCustomer id prev fd) env w)
         = false
      /\ existsb is_redirect (events_of (updateCustomer id prev fd) env w)
         = false).
Proof.
  intros Hx Hf Hw.
  pose proof (valid_upload_events id prev fd env w d f Hx Hf) as Hev.
  destruct (updateCustomer_valid_run id prev fd env w d Hx)
    as (f' & _ & Hf' & Hrun).
  assert (f' = f) as -> by congruence.
  rewrite Hw in Hrun. rewrite Hev. unfold upload_events. rewrite Hw.
  unfold returned_message. rewrite Hrun.
  destruct (sql_rejects env _ (db w)).
  - cbn [snd fst emit disk db written failed message].
    split; [apply lookup_insert_eq|]. intros _.
    repeat split; reflexivity.
  - cbn [snd listed stored emit disk written].
    split; [apply lookup_insert_eq | discriminate].
Qed.

Lemma upload_outlives_a_refused_update_witness :
  disk (snd (updateCustomer (js "7") no_state
               (customer_form (EntryString (js "Ann"))) store_down_env empty_world))
    !! upload_target store_down_env photo
  = Some (file_bytes photo)
  /\ db (snd (updateCustomer (js "7") no_state
                (customer_form (EntryString (js "Ann"))) store_down_env
                empty_world))
     = db empty_world
  /\ returned_message
       (updateCustomer (js "7") no_state
          (customer_form (EntryString (js "Ann"))) store_down_env empty_world)
     = Some (js "Database Error: Failed to Update Customer.").
Proof.
  destruct (upload_outlives_a_refused_update (js "7") no_state
              (customer_form (EntryString (js "Ann"))) store_down_env empty_world
              {| name := js "Ann"; email := js "ann@example.com";
                 image_url := js "/customers/ann.png";
                 image_upload := VFile photo |} photo)
    as [Hdisk Hrefused].
  - by vm_compute.
  - reflexivity.
  - reflexivity.
  - destruct (Hrefused eq_refl) as (Hdb & _ & Hmsg & _).
    split; [exact Hdisk|]. split; [exact Hdb | exact Hmsg].
Defined.

(** X13. [updateCustomer] validates the submitted [image_url] and then
    never uses it, and it never reads the previous state: two
    submissions that agree on the name, the e-mail and the upload, and
    both carry some string as [image_url], end the same way and leave
    the same world, whatever the two strings and the two previous states
    are. *)
Theorem submitted_image_url_is_never_used (id : jsstring)
    (prev1 prev2 : StateCustomer) (fd1 fd2 : FormData) (u1 u2 : jsstring)
    (env : Env) (w : World) :
  formData_get fd1 "name" = formData_get fd2 "name" ->
  formData_get fd1 "email" = formData_get fd2 "email" ->
  formData_get fd1 "image_upload" = formData_get fd2 "image_upload" ->
  formData_get fd1 "image_url" = VString u1 ->
  formData_get fd2 "image_url" = VString u2 ->
  updateCustomer id prev1 fd1 env w = updateCustomer id prev2 fd2 env w.
Proof.
  intros Hn He Hf H1 H2.
  destruct (expected_customer (emailRegex_test env) fd1) as [d1|] eqn:Hx1.
  - assert (Hx2 : expected_customer (emailRegex_test env) fd2
                  = Some {| name := name d1; email := email d1; image_url := u2;
                            image_upload := image_upload d1 |}).
    { revert Hx1. unfold expected_customer. rewrite <- Hn, <- He, <- Hf, H1, H2.
      destruct (formData_get fd1 "name"); try discriminate.
      destruct (formData_get fd1 "email"); try discriminate.
      destruct (formData_get fd1 "image_upload"); try discriminate.
      destruct (_ && _ && _)%bool; [|discriminate].
      by intros [= <-]. }
    destruct (updateCustomer_valid_run id prev1 fd1 env w _ Hx1)
      as (f1 & Hg1 & _ & ->).
    destruct (updateCustomer_valid_run id prev2 fd2 env w _ Hx2)
      as (f2 & Hg2 & _ & ->).
    assert (f2 = f1) as -> by congruence.
    reflexivity.
  - assert (Hx2 : expected_customer (emailRegex_test env) fd2 = None).
    { revert Hx1. unfold expected_customer. rewrite <- Hn, <- He, <- Hf, H1, H2.
      destruct (formData_get fd1 "name"); try reflexivity.
      destruct (formData_get fd1 "email"); try reflexivity.
      destruct (formData_get fd1 "image_upload"); try reflexivity.
      destruct (_ && _ && _)%bool; [discriminate | reflexivity]. }
    destruct (FormSchemaCustomer.instanceof_File (formData_get fd1 "image_upload"))
      eqn:Hi.
    + destruct (formData_get fd1 "image_upload") as [| | | f |] eqn:Hf1;
        try discriminate.
      rewrite (updateCustomer_invalid_run id prev1 fd1 env w f Hf1 Hx1),
        (updateCustomer_invalid_run id prev2 fd2 env w f (eq_sym Hf) Hx2).
      by rewrite (customer_issues_without_url _ fd1 fd2 u1 u2 Hn He
                    (eq_trans Hf1 Hf) H1 H2).
    + rewrite (updateCustomer_without_file_throws id prev1 fd1 env w Hi).
      rewrite Hf in Hi.
      by rewrite (updateCustomer_without_file_throws id prev2 fd2 env w Hi).
Qed.

Lemma submitted_image_url_is_never_used_witness :
  formData_get (customer_form (EntryString (js "Ann"))) "image_url"
  = VString (js "/customers/ann.png")
  /\ formData_get customer_form_other_url "image_url"
     = VString (js "https://elsewhere.example/x.png")
  /\ updateCustomer (js "7") no_state (customer_form (EntryString (js "Ann")))
       quiet_env empty_world
     = updateCustomer (js "7") some_state customer_form_other_url
         quiet_env empty_world.
Proof.
  split; [by vm_compute|]. split; [by vm_compute|].
  apply (submitted_image_url_is_never_used (js "7") no_state some_state
           (customer_form (EntryString (js "Ann"))) customer_form_other_url
           (js "/customers/ann.png") (js "https://elsewhere.example/x.png"));
    by vm_compute.
Defined.

(** ** Signing in *)

(** X14. [authenticate] keeps every [AuthError] of [signIn] from its
    caller and lets every other thrown value through as it is: it
    returns "Invalid credentials." exactly when [signIn] threw an
    [AuthError] of type [CredentialsSignin], "Something went wrong."
    exactly when it threw an [AuthError] of another type, so that the
    type is not told apart any further, and nothing when [signIn]
    returned; it calls [signIn] with the provider "credentials" and does
    nothing else to the world. *)
Theorem authenticate_keeps_auth_errors
    (signIn : jsstring -> FormData -> World -> Settled unit * World)
    (prevState : option jsstring) (formData : FormData) (w : World) :
  let s := signIn (js "credentials") formData w in
  let r := authenticate signIn prevState formData w in
  snd r = snd s
  /\ (forall type, fst r <> Threw (AuthError type))
  /\ (forall e, fst r = Threw (NotAuthError e) <-> fst s = Threw (NotAuthError e))
  /\ (fst r = Returned (Some (js "Invalid credentials."))
      <-> fst s = Threw (AuthError (js "CredentialsSignin")))
  /\ (fst r = Returned (Some (js "Something went wrong."))
      <-> exists type, type <> js "CredentialsSignin"
                       /\ fst s = Threw (AuthError type))
  /\ (fst r = Returned None <-> exists u, fst s = Returned u).
Proof.
  intros s r. subst r. unfold authenticate. fold s. clearbody s.
  assert (Hne : forall a b : jsstring,
            length a <> length b -> a <> b).
  { intros a b Hl ->. by apply Hl. }
  assert (Hm : js "Invalid credentials." <> js "Something went wrong.")
    by (apply Hne; by vm_compute).
  clear Hne.
  set (invalid := js "Invalid credentials.") in *.
  set (wrong := js "Something went wrong.") in *.
  set (credentials := js "CredentialsSignin") in *.
  clearbody invalid wrong credentials.
  destruct s as [[u | [type | e]] w']; cbn [fst snd];
    [ | unfold jsstring_eqb;
        destruct (bool_decide_reflect (type = credentials))
          as [->|Hty]; cbn [fst snd] | ].
  - repeat split; try discriminate;
      first [ intros (? & ?); discriminate
            | intros (? & ? & ?); discriminate
            | intros _; reflexivity
            | intros _; by exists u ].
  - repeat split; try discriminate;
      first [ intros (? & ?); discriminate
            | intros [= H]; by destruct Hm
            | intros _; reflexivity
            | intros (ty & Hn & [= <-]); by destruct Hn ].
  - repeat split; try discriminate;
      first [ intros (? & ?); discriminate
            | intros [= H]; exfalso; apply Hm; symmetry; exact H
            | intros [= ->]; by destruct Hty
            | intros _; reflexivity
            | intros _; exists type; split; [exact Hty | reflexivity] ].
  - repeat split; try discriminate;
      first [ intros (? & ?); discriminate
            | intros (? & ? & ?); discriminate
            | intros [= ->]; reflexivity ].
Qed.
